(** * Onebeam agent runtime: tool boundary, schema validator, two-phase runs

    A shallow embedding of the safety core of the Onebeam agent runtime
    ([core/tools.ts], [core/schema-validator.ts], [core/agent-runtime.ts],
    [core/providers.ts], [core/types.ts]) and the properties its
    specification states about it.

    Conventions of the embedding.
    - JavaScript strings are [string]; template literals are written with
      [+:+]; [Array.prototype.join] is [String.concat].
    - A plain object is the list of its own enumerable properties in
      enumeration order.  The [in] operator and property reads also see the
      names every plain object inherits from [Object.prototype].
    - [ToolCall]s are mutable objects shared by reference between
      [result.toolCalls], [approvedCalls], [blockedCalls] and log entries:
      they live in a store indexed by locations.
    - The module-level counter [logIdCounter] and the store form the world
      that the two phases thread; a thrown [Error] is an outcome of its own.
    - The model providers are external capabilities: what
      [generateStructuredOutput] answers is a parameter of the runtime. *)

From Stdlib Require Import String Ascii List ZArith Lia Bool.
From stdpp Require Import base list strings pretty.
Import ListNotations.

Local Open Scope string_scope.
Local Open Scope list_scope.

Set Warnings "-register-all".

(** ** JavaScript values *)

(** The values that can reach the validator: JSON data, [undefined], and the
    two kinds of value that a property read on a plain object can produce for
    an inherited name (a built-in function, or [Object.prototype] itself).
    An object is a plain one: its prototype is [Object.prototype].  The
    payload of a number is never inspected. *)
Inductive Value : Type :=
| VUndefined
| VNull
| VBool (b : bool)
| VNum (n : Z)
| VStr (s : string)
| VArr (elems : list Value)
| VObj (fields : list (string * Value))
| VFun
| VObjectPrototype.

(** [typeof value] *)
Definition typeof (value : Value) : string :=
  match value with
  | VUndefined => "undefined"
  | VNull => "object"
  | VBool _ => "boolean"
  | VNum _ => "number"
  | VStr _ => "string"
  | VArr _ => "object"
  | VObj _ => "object"
  | VFun => "function"
  | VObjectPrototype => "object"
  end.

(** [value === null] *)
Definition is_null (value : Value) : bool :=
  match value with VNull => true | _ => false end.

(** [Array.isArray(value)] *)
Definition isArray (value : Value) : bool :=
  match value with VArr _ => true | _ => false end.

(** The property names of [Object.prototype]; every plain object inherits
    them. *)
Definition object_prototype_names : list string :=
  [ "constructor"; "hasOwnProperty"; "isPrototypeOf"; "propertyIsEnumerable";
    "toLocaleString"; "toString"; "valueOf"; "__proto__";
    "__defineGetter__"; "__defineSetter__";
    "__lookupGetter__"; "__lookupSetter__" ].

(** [arr.includes(x)] on an array of strings *)
Definition includes (arr : list string) (x : string) : bool :=
  existsb (String.eqb x) arr.

Definition inherited (key : string) : bool :=
  includes object_prototype_names key.

(** The own property [key] of a plain object, first match. *)
Fixpoint own_property {A : Type} (key : string) (fields : list (string * A))
  : option A :=
  match fields with
  | [] => None
  | (k, v) :: rest => if String.eqb key k then Some v else own_property key rest
  end.

Definition has_own {A : Type} (key : string) (fields : list (string * A)) : bool :=
  match own_property key fields with Some _ => true | None => false end.

(** [key in fields], for an object literal or parsed JSON object whose own
    properties are [fields]. *)
Definition in_object {A : Type} (key : string) (fields : list (string * A)) : bool :=
  has_own key fields || inherited key.

(** [key in obj], for the values that pass the validator's object test. *)
Definition js_in (key : string) (obj : Value) : bool :=
  match obj with
  | VObj fields => in_object key fields
  | VObjectPrototype => inherited key
  | _ => false
  end.

(** [obj[key]] *)
Definition js_get (key : string) (obj : Value) : Value :=
  match obj with
  | VObj fields =>
      match own_property key fields with
      | Some v => v
      | None =>
          if String.eqb key "__proto__" then VObjectPrototype
          else if inherited key then VFun
          else VUndefined
      end
  | VObjectPrototype =>
      if String.eqb key "__proto__" then VNull
      else if inherited key then VFun
      else VUndefined
  | _ => VUndefined
  end.

(** [Object.keys(obj)] *)
Definition object_keys (obj : Value) : list string :=
  match obj with
  | VObj fields => map fst fields
  | _ => []
  end.

(** ** core/types.ts: schemas and validation results *)

(** [interface JSONSchema]; an optional member is an [option]. *)
Inductive JSONSchema : Type := mkJSONSchema {
  s_type : string;
  s_properties : option (list (string * JSONSchema));
  s_items : option JSONSchema;
  s_required : option (list string);
  s_enum : option (list string);
  s_description : option string;
  s_additionalProperties : option bool
}.

Record ValidationResult : Type := mkValidationResult {
  valid : bool;
  errors : list string
}.

(** ** core/schema-validator.ts *)

(** [value.forEach((item, i) => f(item, i))], threading the state [f]
    updates. *)
Fixpoint forEach_indexed {A St : Type} (f : A -> nat -> St -> St)
  (arr : list A) (i : nat) (st : St) : St :=
  match arr with
  | [] => st
  | item :: rest => forEach_indexed f rest (S i) (f item i st)
  end.

(** The inner [validate(value, s, path)].  It pushes onto the [errors] array
    of the enclosing call: the array is threaded as the last argument and
    the result is the array after the call. *)
Fixpoint validate (s : JSONSchema) (value : Value) (path : string)
  (errors : list string) : list string :=
  if String.eqb (s_type s) "object" then
    if negb (String.eqb (typeof value) "object") || is_null value || isArray value
    then errors ++ [path +:+ ": expected object, got " +:+ typeof value]
    else
      let obj := value in
      let errors :=
        match s_required s with
        | Some required =>
            fold_left
              (fun errors key =>
                 if negb (js_in key obj)
                 then errors ++ [path +:+ "." +:+ key +:+ ": required field missing"]
                 else errors)
              required errors
        | None => errors
        end in
      let errors :=
        match s_properties s with
        | Some properties =>
            fold_left
              (fun errors '(key, propSchema) =>
                 if js_in key obj
                 then validate propSchema (js_get key obj) (path +:+ "." +:+ key) errors
                 else errors)
              properties errors
        | None => errors
        end in
      match s_additionalProperties s, s_properties s with
      | Some false, Some properties =>
          fold_left
            (fun errors key =>
               if negb (in_object key properties)
               then errors ++ [path +:+ "." +:+ key +:+ ": unexpected property"]
               else errors)
            (object_keys obj) errors
      | _, _ => errors
      end
  else if String.eqb (s_type s) "array" then
    match value with
    | VArr elems =>
        match s_items s with
        | Some items =>
            forEach_indexed
              (fun item i errors =>
                 validate items item (path +:+ "[" +:+ pretty i +:+ "]") errors)
              elems 0 errors
        | None => errors
        end
    | _ => errors ++ [path +:+ ": expected array, got " +:+ typeof value]
    end
  else if String.eqb (s_type s) "string" then
    match value with
    | VStr str =>
        match s_enum s with
        | Some enum =>
            if negb (includes enum str)
            then errors ++ [path +:+ ": must be one of [" +:+ String.concat ", " enum +:+ "]"]
            else errors
        | None => errors
        end
    | _ => errors ++ [path +:+ ": expected string, got " +:+ typeof value]
    end
  else if String.eqb (s_type s) "number" then
    if negb (String.eqb (typeof value) "number")
    then errors ++ [path +:+ ": expected number, got " +:+ typeof value]
    else errors
  else if String.eqb (s_type s) "boolean" then
    if negb (String.eqb (typeof value) "boolean")
    then errors ++ [path +:+ ": expected boolean, got " +:+ typeof value]
    else errors
  else errors.

Definition validateAgainstSchema (data : Value) (schema : JSONSchema)
  : ValidationResult :=
  let errors := validate schema data "$" [] in
  {| valid := Nat.eqb (length errors) 0; errors := errors |}.

(** ** core/types.ts: the types of the runtime *)

(** Tokens of [type Permission]: one of [read:tasks], [write:tasks],
    [read:workflows], [write:workflows], [read:entities], [write:entities],
    [execute:workflows]; compared as strings. *)
Definition Permission : Type := string.

Record ToolDefinition : Type := mkToolDefinition {
  tool_name : string;
  tool_description : string;
  tool_parameters : JSONSchema;
  tool_requiredPermissions : list Permission
}.

(** [ToolCall.status] *)
Inductive Status : Type := pending | approved | rejected | executed.

Record ToolCall : Type := mkToolCall {
  call_toolName : string;
  call_arguments : Value;
  call_result : option Value;
  call_status : Status
}.

(** A reference to a [ToolCall] object. *)
Definition loc : Type := nat.

Record StructuredResult : Type := mkStructuredResult {
  res_success : bool;
  res_data : Value;
  res_toolCalls : list loc;
  res_reasoning : option string;
  res_rawOutput : option string
}.

(** [type ModelId]; at run time whatever string the request carries. *)
Definition ModelId : Type := string.

Inductive Vendor : Type := openai | anthropic | google.

(** The data members of [interface LLMProvider]; its method
    [generateStructuredOutput] is a parameter of the runtime below. *)
Record LLMProvider : Type := mkLLMProvider {
  modelId : ModelId;
  displayName : string;
  vendor : Vendor
}.

Record AgentConfig : Type := mkAgentConfig {
  cfg_name : string;
  cfg_model : ModelId;
  cfg_instructions : string;
  cfg_allowedTools : list string;
  cfg_outputSchema : string;
  cfg_permissions : list Permission
}.

Record AgentRunRequest : Type := mkAgentRunRequest {
  req_agent : string;
  req_model : option ModelId;
  req_input : string
}.

Inductive Phase : Type := PDiscussion | PExecution.

(** [LogEntry.type] *)
Inductive LogType : Type :=
  LPlan | LToolCall | LValidation | LExecution | LError | LBlocked.

(** [LogEntry.data]: absent, the logged [ToolCall] object, or the logged
    [ValidationResult]. *)
Inductive LogData : Type :=
| DNone
| DCall (call : loc)
| DValidation (validation : ValidationResult).

Record LogEntry : Type := mkLogEntry {
  log_id : string;
  log_timestamp : Z;
  log_phase : Phase;
  log_model : ModelId;
  log_agent : string;
  log_type : LogType;
  log_message : string;
  log_data : LogData
}.

(** ** Lookups in object literals used as tables *)

(** A truthy result of [table[key]]: an entry of the table, or a value
    inherited from [Object.prototype] (which has none of the members the
    table's entries have). *)
Inductive Looked (A : Type) : Type :=
| Own (a : A)
| Inherited.
Arguments Own {A} a.
Arguments Inherited {A}.

(** [table[key]]; [None] is [undefined]. *)
Definition table_get {A : Type} (table : list (string * A)) (key : string)
  : option (Looked A) :=
  match own_property key table with
  | Some a => Some (Own a)
  | None => if inherited key then Some Inherited else None
  end.

(** ** core/tools.ts *)

(** Shorthands for the schema object literals. *)
Definition schema_string : JSONSchema :=
  mkJSONSchema "string" None None None None None None.
Definition schema_string_described (description : string) : JSONSchema :=
  mkJSONSchema "string" None None None None (Some description) None.
Definition schema_string_enum (enum : list string) : JSONSchema :=
  mkJSONSchema "string" None None None (Some enum) None None.
Definition schema_object (properties : option (list (string * JSONSchema)))
  (required : option (list string)) (additionalProperties : option bool)
  : JSONSchema :=
  mkJSONSchema "object" properties None required None None additionalProperties.
Definition schema_array (items : JSONSchema) : JSONSchema :=
  mkJSONSchema "array" None (Some items) None None None None.

Definition workflow_schema : JSONSchema :=
  schema_object
    (Some [ ("name", schema_string);
            ("trigger", schema_string);
            ("steps",
             schema_array
               (schema_object
                  (Some [ ("type", schema_string_enum ["update"; "notify"; "condition"]);
                          ("entity", schema_string);
                          ("update", schema_object None None None) ])
                  (Some ["type"]) None)) ])
    (Some ["name"; "trigger"; "steps"]) None.

Definition TOOL_REGISTRY : list ToolDefinition :=
  [ {| tool_name := "readTask";
       tool_description :=
         "Read a task by ID. Returns task details including status, assignee, and due date.";
       tool_parameters :=
         schema_object
           (Some [ ("taskId", schema_string_described "The ID of the task to read") ])
           (Some ["taskId"]) None;
       tool_requiredPermissions := ["read:tasks"] |};
    {| tool_name := "updateTask";
       tool_description :=
         "Update a task's properties such as status, priority, or assignee.";
       tool_parameters :=
         schema_object
           (Some [ ("taskId", schema_string_described "The ID of the task to update");
                   ("updates",
                    schema_object
                      (Some [ ("status", schema_string_enum ["open"; "in-progress"; "urgent"; "done"]);
                              ("priority", schema_string_enum ["low"; "medium"; "high"; "critical"]);
                              ("assignee", schema_string) ])
                      None None) ])
           (Some ["taskId"; "updates"]) None;
       tool_requiredPermissions := ["write:tasks"] |};
    {| tool_name := "createWorkflow";
       tool_description := "Create an automation workflow with trigger and steps.";
       tool_parameters :=
         schema_object (Some [ ("workflow", workflow_schema) ]) (Some ["workflow"]) None;
       tool_requiredPermissions := ["write:workflows"] |};
    {| tool_name := "listTasks";
       tool_description := "List all tasks matching optional filter criteria.";
       tool_parameters :=
         schema_object
           (Some [ ("filter",
                    schema_object
                      (Some [ ("status", schema_string);
                              ("priority", schema_string);
                              ("assignee", schema_string) ])
                      None None) ])
           None None;
       tool_requiredPermissions := ["read:tasks"] |} ].

Definition getPermittedTools (allowedToolNames : list string)
  (agentPermissions : list Permission) : list ToolDefinition :=
  List.filter
    (fun tool =>
       let nameAllowed := includes allowedToolNames (tool_name tool) in
       let hasPermissions :=
         forallb (fun p => includes agentPermissions p)
                 (tool_requiredPermissions tool) in
       nameAllowed && hasPermissions)
    TOOL_REGISTRY.

(** The double-quote character of the block messages. *)
Definition dquote : string := String "034"%char EmptyString.

Definition validateToolAccess (toolName : string)
  (allowedToolNames : list string) (agentPermissions : list Permission)
  : option string :=
  if negb (includes allowedToolNames toolName) then
    Some ("BLOCKED: Tool " +:+ dquote +:+ toolName +:+ dquote +:+
          " is not in the agent's allowed tools list. This call has been rejected.")
  else
    match List.find (fun t => String.eqb (tool_name t) toolName) TOOL_REGISTRY with
    | None =>
        Some ("BLOCKED: Tool " +:+ dquote +:+ toolName +:+ dquote +:+
              " does not exist in the registry.")
    | Some tool =>
        let missingPermissions :=
          List.filter (fun p => negb (includes agentPermissions p))
                      (tool_requiredPermissions tool) in
        if Nat.ltb 0 (length missingPermissions) then
          Some ("BLOCKED: Agent lacks permissions: [" +:+
                String.concat ", " missingPermissions +:+
                "]. This call has been rejected.")
        else None
    end.

Definition OUTPUT_SCHEMAS : list (string * JSONSchema) :=
  [ ("WorkflowDefinition",
     schema_object (Some [ ("workflow", workflow_schema) ])
                   (Some ["workflow"]) (Some false));
    ("TaskUpdate",
     schema_object
       (Some [ ("taskId", schema_string);
               ("updates",
                schema_object
                  (Some [ ("status", schema_string_enum ["open"; "in-progress"; "urgent"; "done"]);
                          ("priority", schema_string_enum ["low"; "medium"; "high"; "critical"]) ])
                  None None) ])
       (Some ["taskId"; "updates"]) (Some false));
    ("TaskList",
     schema_object
       (Some [ ("tasks",
                schema_array
                  (schema_object
                     (Some [ ("id", schema_string);
                             ("title", schema_string);
                             ("status", schema_string);
                             ("priority", schema_string) ])
                     (Some ["id"; "title"; "status"]) None)) ])
       (Some ["tasks"]) (Some false)) ].

(** ** core/providers.ts: the provider registry *)

Definition providers : list (ModelId * LLMProvider) :=
  [ ("gpt-5.2", mkLLMProvider "gpt-5.2" "OpenAI GPT-5.2" openai);
    ("claude-opus-4.6", mkLLMProvider "claude-opus-4.6" "Claude Opus 4.6" anthropic);
    ("gemini-3", mkLLMProvider "gemini-3" "Gemini 3" google) ].

(** ** core/agent-runtime.ts *)

(** The mutable state a run can touch: the module-level [logIdCounter] and
    the store of [ToolCall] objects. *)
Record World : Type := mkWorld {
  logIdCounter : nat;
  heap : loc -> ToolCall
}.

(** How a call ends: with a value, or with a thrown [Error]. *)
Inductive Outcome (A : Type) : Type :=
| Return (a : A)
| Throw (message : string).
Arguments Return {A} a.
Arguments Throw {A} message.

(** Computations over the world that may throw; what was done before a
    throw stays done. *)
Definition M (A : Type) : Type := World -> World * Outcome A.

Definition ret {A : Type} (a : A) : M A := fun w => (w, Return a).

Definition throw {A : Type} (message : string) : M A :=
  fun w => (w, Throw message).

Definition bind {A B : Type} (m : M A) (k : A -> M B) : M B :=
  fun w =>
    match m w with
    | (w', Return a) => k a w'
    | (w', Throw message) => (w', Throw message)
    end.

Declare Scope run_scope.
Delimit Scope run_scope with run.
Notation "'let*' x ':=' m 'in' k" := (bind m (fun x => k))
  (at level 10, x name, m at level 100, k at level 200) : run_scope.
Notation "'let*' ' pat ':=' m 'in' k" :=
  (bind m (fun x => match x with pat => k end))
  (at level 10, pat pattern, m at level 100, k at level 200) : run_scope.

(** [for (const x of arr) body], threading the local variables [st] that
    the body updates. *)
Fixpoint for_of {A St : Type} (body : St -> A -> M St) (arr : list A)
  (st : St) : M St :=
  match arr with
  | [] => ret st
  | x :: rest => bind (body st x) (fun st' => for_of body rest st')
  end.

(** Reading the object behind a reference. *)
Definition readCall (call : loc) : M ToolCall :=
  fun w => (w, Return (heap w call)).

Definition heap_set (h : loc -> ToolCall) (call : loc) (c : ToolCall)
  : loc -> ToolCall :=
  fun l => if Nat.eqb l call then c else h l.

(** [call.status = status] *)
Definition setStatus (call : loc) (status : Status) : M unit :=
  fun w =>
    let c := heap w call in
    (mkWorld (logIdCounter w)
       (heap_set (heap w) call
          (mkToolCall (call_toolName c) (call_arguments c) (call_result c) status)),
     Return tt).

(** [call.result = result] *)
Definition setResult (call : loc) (result : Value) : M unit :=
  fun w =>
    let c := heap w call in
    (mkWorld (logIdCounter w)
       (heap_set (heap w) call
          (mkToolCall (call_toolName c) (call_arguments c) (Some result) (call_status c))),
     Return tt).

Definition AGENT_CONFIGS : list AgentConfig :=
  [ {| cfg_name := "workflow-agent";
       cfg_model := "claude-opus-4.6";
       cfg_instructions :=
         "Create and manage automation workflows safely for Onebeam apps. Always produce structured workflow definitions.";
       cfg_allowedTools := ["readTask"; "createWorkflow"; "listTasks"];
       cfg_outputSchema := "WorkflowDefinition";
       cfg_permissions := ["read:tasks"; "write:workflows"; "read:workflows"] |};
    {| cfg_name := "task-agent";
       cfg_model := "gpt-5.2";
       cfg_instructions :=
         "Manage tasks — read, list, and update tasks. Never create workflows or access unauthorized resources.";
       cfg_allowedTools := ["readTask"; "updateTask"; "listTasks"];
       cfg_outputSchema := "TaskUpdate";
       cfg_permissions := ["read:tasks"; "write:tasks"] |};
    {| cfg_name := "readonly-agent";
       cfg_model := "gemini-3";
       cfg_instructions :=
         "Read-only agent that can only list and read tasks. Cannot modify any data.";
       cfg_allowedTools := ["readTask"; "listTasks"];
       cfg_outputSchema := "TaskList";
       cfg_permissions := ["read:tasks"] |} ].

Record AgentRunResult : Type := mkAgentRunResult {
  run_phase : Phase;
  run_result : StructuredResult;
  run_logs : list LogEntry;
  run_validationPassed : bool;
  run_blockedCalls : list loc;
  run_approvedCalls : list loc
}.

(** The argument of [generateStructuredOutput]. *)
Record GenerateOptions : Type := mkGenerateOptions {
  opt_systemPrompt : string;
  opt_userPrompt : string;
  opt_tools : list ToolDefinition;
  opt_outputSchema : Looked JSONSchema
}.

(** [getProvider(modelId)]: throws when [providers[modelId]] is falsy and
    returns what the lookup gave otherwise. *)
Definition getProvider (modelId : ModelId) : M (Looked LLMProvider) :=
  match table_get providers modelId with
  | None =>
      throw ("Unknown model: " +:+ modelId +:+ ". Supported: " +:+
             String.concat ", " (map fst providers))
  | Some provider => ret provider
  end.

(** [`${provider.displayName}`] *)
Definition displayName_text (provider : Looked LLMProvider) : string :=
  match provider with
  | Own p => displayName p
  | Inherited => "undefined"
  end.

(** [validateAgainstSchema(data, schema)] where [schema] came out of a table
    lookup.  An inherited value has no [type] member, so no branch of
    [validate] applies to it and nothing is pushed. *)
Definition validateAgainstLooked (data : Value) (schema : Looked JSONSchema)
  : ValidationResult :=
  match schema with
  | Own s => validateAgainstSchema data s
  | Inherited => {| valid := Nat.eqb (length (@nil string)) 0; errors := [] |}
  end.

(** [request.model || config.model]: the empty string is falsy. *)
Definition effectiveModel (request : AgentRunRequest) (config : AgentConfig)
  : ModelId :=
  match req_model request with
  | Some m => if String.eqb m "" then cfg_model config else m
  | None => cfg_model config
  end.

Section Runtime.

(** The configuration the runtime is started with (the shipped one is
    [AGENT_CONFIGS] and [OUTPUT_SCHEMAS]), the reading of the clock when the
    [n]-th log entry is created, and the answer of a provider's
    [generateStructuredOutput], which may allocate and return [ToolCall]
    objects or fail.  A run is suspended while it awaits that answer, and
    other runs go on meanwhile: [logIdCounter] is shared by all runs, and
    [interleaved w] is the number of log entries the other runs create
    while a run suspended in world [w] waits; what they do to the store is
    part of the store the answer comes with. *)
Variable agentConfigs : list AgentConfig.
Variable outputSchemas : list (string * JSONSchema).
Variable clock : nat -> Z.
Variable generateStructuredOutput :
  LLMProvider -> GenerateOptions -> (loc -> ToolCall) ->
  (loc -> ToolCall) * Outcome StructuredResult.
Variable interleaved : World -> nat.

Local Open Scope run_scope.

Definition createLog (phase : Phase) (model : ModelId) (agent : string)
  (type : LogType) (message : string) (data : LogData) : M LogEntry :=
  fun w =>
    let n := S (logIdCounter w) in
    (mkWorld n (heap w),
     Return {| log_id := "log-" +:+ pretty n;
               log_timestamp := clock n;
               log_phase := phase;
               log_model := model;
               log_agent := agent;
               log_type := type;
               log_message := message;
               log_data := data |}).

(** [await provider.generateStructuredOutput(options)]: when the run
    resumes, with the answer or with the provider's error, the counter has
    moved on by what the other runs logged meanwhile.  Calling a member
    that is not a function throws before anything is awaited. *)
Definition callProvider (provider : Looked LLMProvider)
  (options : GenerateOptions) : M StructuredResult :=
  match provider with
  | Own p =>
      fun w =>
        let '(h, outcome) := generateStructuredOutput p options (heap w) in
        (mkWorld (logIdCounter w + interleaved w) h, outcome)
  | Inherited => throw "TypeError: provider.generateStructuredOutput is not a function"
  end.

Definition runDiscussion (request : AgentRunRequest) : M AgentRunResult :=
  match List.find (fun c => String.eqb (cfg_name c) (req_agent request)) agentConfigs with
  | None => throw ("Unknown agent: " +:+ req_agent request)
  | Some config =>
    let modelId := effectiveModel request config in
    let* provider := getProvider modelId in
    let logs : list LogEntry := [] in
    let* e := createLog PDiscussion modelId (cfg_name config) LPlan
           ("Starting discussion phase with " +:+ displayName_text provider) DNone in
    let logs := logs ++ [e] in
    let permittedTools :=
      getPermittedTools (cfg_allowedTools config) (cfg_permissions config) in
    let* e := createLog PDiscussion modelId (cfg_name config) LPlan
           ("Permitted tools: [" +:+
            String.concat ", " (map tool_name permittedTools) +:+ "]") DNone in
    let logs := logs ++ [e] in
    let* result := callProvider provider
                {| opt_systemPrompt := cfg_instructions config;
                   opt_userPrompt := req_input request;
                   opt_tools := permittedTools;
                   opt_outputSchema :=
                     match table_get outputSchemas (cfg_outputSchema config) with
                     | Some schema => schema
                     | None => Own (mkJSONSchema "object" None None None None None None)
                     end |} in
    let* '(blockedCalls, approvedCalls, logs) :=
      for_of
        (fun '(blockedCalls, approvedCalls, logs) call =>
           let* c := readCall call in
           let blockReason :=
             validateToolAccess (call_toolName c)
               (cfg_allowedTools config) (cfg_permissions config) in
           let approve :=
             let* _ := setStatus call approved in
             let* e := createLog PDiscussion modelId (cfg_name config) LToolCall
                    ("Tool call approved: " +:+ call_toolName c) (DCall call) in
             ret (blockedCalls, approvedCalls ++ [call], logs ++ [e]) in
           match blockReason with
           | Some reason =>
               if String.eqb reason "" then approve
               else
                 let* _ := setStatus call rejected in
                 let* e := createLog PDiscussion modelId (cfg_name config) LBlocked
                        reason (DCall call) in
                 ret (blockedCalls ++ [call], approvedCalls, logs ++ [e])
           | None => approve
           end)
        (res_toolCalls result) ([], [], logs) in
    let schema := table_get outputSchemas (cfg_outputSchema config) in
    let* '(validationPassed, logs) :=
      match schema with
      | Some schema =>
          let validation := validateAgainstLooked (res_data result) schema in
          let validationPassed := valid validation in
          let* e := createLog PDiscussion modelId (cfg_name config) LValidation
                 (if validationPassed
                  then "✓ Output matches JSON schema"
                  else "✗ Schema validation failed: " +:+
                       String.concat "; " (errors validation))
                 (DValidation validation) in
          ret (validationPassed, logs ++ [e])
      | None => ret (true, logs)
      end in
    let* e := createLog PDiscussion modelId (cfg_name config) LPlan
           ("Discussion complete. " +:+ pretty (length approvedCalls) +:+
            " approved, " +:+ pretty (length blockedCalls) +:+ " blocked.") DNone in
    let logs := logs ++ [e] in
    ret {| run_phase := PDiscussion;
           run_result := result;
           run_logs := logs;
           run_validationPassed := validationPassed;
           run_blockedCalls := blockedCalls;
           run_approvedCalls := approvedCalls |}
  end.

Definition runExecution (discussionResult : AgentRunResult)
  (request : AgentRunRequest) : M AgentRunResult :=
  match List.find (fun c => String.eqb (cfg_name c) (req_agent request)) agentConfigs with
  | None => throw ("Unknown agent: " +:+ req_agent request)
  | Some config =>
    let modelId := effectiveModel request config in
    let logs : list LogEntry := [] in
    let* e := createLog PExecution modelId (cfg_name config) LExecution
           "User confirmed — entering execution phase" DNone in
    let logs := logs ++ [e] in
    let schema := table_get outputSchemas (cfg_outputSchema config) in
    let* '(validationPassed, logs) :=
      match schema with
      | Some schema =>
          let validation :=
            validateAgainstLooked (res_data (run_result discussionResult)) schema in
          let validationPassed := valid validation in
          let* e := createLog PExecution modelId (cfg_name config) LValidation
                 (if validationPassed
                  then "✓ Re-validation passed"
                  else "✗ Re-validation failed: " +:+
                       String.concat "; " (errors validation))
                 (DValidation validation) in
          ret (validationPassed, logs ++ [e])
      | None => ret (true, logs)
      end in
    if negb validationPassed then
      let* e := createLog PExecution modelId (cfg_name config) LError
             "Execution aborted: output failed re-validation" DNone in
      let logs := logs ++ [e] in
      ret {| run_phase := PExecution;
             run_result := run_result discussionResult;
             run_logs := logs;
             run_validationPassed := false;
             run_blockedCalls := run_blockedCalls discussionResult;
             run_approvedCalls := run_approvedCalls discussionResult |}
    else
      let* logs :=
        for_of
          (fun logs call =>
             let* _ := setStatus call executed in
             let* c := readCall call in
             let* _ :=
               setResult call
                 (VObj [ ("success", VBool true);
                         ("message",
                          VStr ("Executed " +:+ call_toolName c +:+ " successfully")) ]) in
             let* e := createLog PExecution modelId (cfg_name config) LExecution
                    ("Executed: " +:+ call_toolName c) (DCall call) in
             ret (logs ++ [e]))
          (run_approvedCalls discussionResult) logs in
      let* e := createLog PExecution modelId (cfg_name config) LExecution
             ("Execution complete. " +:+
              pretty (length (run_approvedCalls discussionResult)) +:+
              " tool calls executed.") DNone in
      let logs := logs ++ [e] in
      ret {| run_phase := PExecution;
             run_result := run_result discussionResult;
             run_logs := run_logs discussionResult ++ logs;
             run_validationPassed := validationPassed;
             run_blockedCalls := run_blockedCalls discussionResult;
             run_approvedCalls := run_approvedCalls discussionResult |}
  end.

End Runtime.

(** * Specification-side definitions *)

(** ** Schemas and conforming values *)

(** The types of the documented schema subset. *)
Definition supported_types : list string :=
  ["object"; "array"; "string"; "number"; "boolean"].


(** A non-null, non-array object. *)
Definition is_object (value : Value) : bool :=
  match value with
  | VObj _ | VObjectPrototype => true
  | _ => false
  end.

(** The property names a schema node declares. *)
Definition declared_names (s : JSONSchema) : list string :=
  match s_properties s with
  | Some properties => map fst properties
  | None => []
  end.

(** A value that passes every check of [validate], with presence of a
    field read as the source reads it, by [in]: at an [object] node it is
    an object, every required name is [in] it, every declared name that is
    [in] it has a value that conforms to its own schema, and where
    [additionalProperties] is [false] each of its keys is declared; at an
    [array] node it is an array whose elements conform to [items]; at a
    [string] node it is a string, a member of [enum] when there is one; at
    a [number] or [boolean] node it is a number or a boolean.  A name
    inherited from [Object.prototype] is [in] every object. *)
Fixpoint conforms (s : JSONSchema) (value : Value) : bool :=
  if String.eqb (s_type s) "object" then
    is_object value
    && match s_required s with
       | Some required => forallb (fun key => js_in key value) required
       | None => true
       end
    && match s_properties s with
       | Some properties =>
           forallb
             (fun '(key, propSchema) =>
                implb (js_in key value) (conforms propSchema (js_get key value)))
             properties
       | None => true
       end
    && match s_additionalProperties s with
       | Some false => forallb (includes (declared_names s)) (object_keys value)
       | _ => true
       end
  else if String.eqb (s_type s) "array" then
    match value with
    | VArr elems =>
        match s_items s with
        | Some items => forallb (conforms items) elems
        | None => true
        end
    | _ => false
    end
  else if String.eqb (s_type s) "string" then
    match value with
    | VStr str =>
        match s_enum s with
        | Some enum => includes enum str
        | None => true
        end
    | _ => false
    end
  else if String.eqb (s_type s) "number" then
    match value with VNum _ => true | _ => false end
  else if String.eqb (s_type s) "boolean" then
    match value with VBool _ => true | _ => false end
  else false.



(** The last character of a string. *)
Fixpoint last_char (s : string) : option ascii :=
  match s with
  | EmptyString => None
  | String c EmptyString => Some c
  | String _ rest => last_char rest
  end.

(** The error the validator pushes for an undeclared key. *)
Definition unexpected_property (path key : string) : string :=
  path +:+ "." +:+ key +:+ ": unexpected property".

(** The error the validator pushes for an absent required field. *)
Definition required_missing (path key : string) : string :=
  path +:+ "." +:+ key +:+ ": required field missing".

(** ** Block reasons *)

(** The three reasons for which a tool call is blocked. *)
Inductive BlockReason : Type :=
| NotAllowlisted (toolName : string)
| NotInRegistry (toolName : string)
| MissingPermissions (missing : list Permission).

(** The message of a block reason. *)
Definition blockMessage (reason : BlockReason) : string :=
  match reason with
  | NotAllowlisted toolName =>
      "BLOCKED: Tool " +:+ dquote +:+ toolName +:+ dquote +:+
      " is not in the agent's allowed tools list. This call has been rejected."
  | NotInRegistry toolName =>
      "BLOCKED: Tool " +:+ dquote +:+ toolName +:+ dquote +:+
      " does not exist in the registry."
  | MissingPermissions missing =>
      "BLOCKED: Agent lacks permissions: [" +:+ String.concat ", " missing +:+
      "]. This call has been rejected."
  end.

(** The decision order of the enforcement boundary, first match wins. *)
Inductive AccessDecision (toolName : string) (allowedNames : list string)
  (grantedPermissions : list Permission) : option BlockReason -> Prop :=
| decide_not_allowlisted :
    toolName ∉ allowedNames ->
    AccessDecision toolName allowedNames grantedPermissions
      (Some (NotAllowlisted toolName))
| decide_not_in_registry :
    toolName ∈ allowedNames ->
    (forall tool, tool ∈ TOOL_REGISTRY -> tool_name tool <> toolName) ->
    AccessDecision toolName allowedNames grantedPermissions
      (Some (NotInRegistry toolName))
| decide_missing_permissions tool :
    toolName ∈ allowedNames ->
    tool ∈ TOOL_REGISTRY -> tool_name tool = toolName ->
    let missing :=
      filter (fun p => p ∉ grantedPermissions) (tool_requiredPermissions tool) in
    missing <> [] ->
    AccessDecision toolName allowedNames grantedPermissions
      (Some (MissingPermissions missing))
| decide_permitted tool :
    toolName ∈ allowedNames ->
    tool ∈ TOOL_REGISTRY -> tool_name tool = toolName ->
    tool_requiredPermissions tool ⊆ grantedPermissions ->
    AccessDecision toolName allowedNames grantedPermissions None.

(** ** The status machine of a tool call *)

(** The legal transitions: [pending] to [approved] or [rejected], and
    [approved] to [executed]. *)
Inductive transition : Status -> Status -> Prop :=
| transition_approve : transition pending approved
| transition_reject : transition pending rejected
| transition_execute : transition approved executed.

(** Whether the enforcement boundary lets a tool name through, as the
    classification loop of the Discussion phase tests it. *)
Definition passes (config : AgentConfig) (toolName : string) : bool :=
  match validateToolAccess toolName (cfg_allowedTools config) (cfg_permissions config) with
  | Some reason => String.eqb reason ""
  | None => true
  end.

Definition with_status (c : ToolCall) (status : Status) : ToolCall :=
  mkToolCall (call_toolName c) (call_arguments c) (call_result c) status.

(** What executing a call leaves in its object. *)
Definition executed_call (c : ToolCall) : ToolCall :=
  mkToolCall (call_toolName c) (call_arguments c)
    (Some (VObj [ ("success", VBool true);
                  ("message",
                   VStr ("Executed " +:+ call_toolName c +:+ " successfully")) ]))
    executed.

Definition is_log_type (t : LogType) (e : LogEntry) : bool :=
  match t, log_type e with
  | LPlan, LPlan | LToolCall, LToolCall | LValidation, LValidation
  | LExecution, LExecution | LError, LError | LBlocked, LBlocked => true
  | _, _ => false
  end.

(** The number of entries of a type in a log. *)
Definition count_type (t : LogType) (logs : list LogEntry) : nat :=
  length (List.filter (is_log_type t) logs).

(** The status a call gets in the Discussion phase. *)
Definition verdict (config : AgentConfig) (c : ToolCall) : Status :=
  if passes config (call_toolName c) then approved else rejected.

(** What one round of the classification loop of [runDiscussion] does:
    the call gets its verdict, goes to the list of its verdict, and one
    entry is logged. *)
Definition classifies (config : AgentConfig)
  (body : list loc * list loc * list LogEntry -> loc ->
          M (list loc * list loc * list LogEntry)) : Prop :=
  forall blockedCalls approvedCalls logs call w,
  exists e w',
    body (blockedCalls, approvedCalls, logs) call w
    = (w', Return (if passes config (call_toolName (heap w call))
                   then (blockedCalls, approvedCalls ++ [call], logs ++ [e])
                   else (blockedCalls ++ [call], approvedCalls, logs ++ [e])))
    /\ log_type e = (if passes config (call_toolName (heap w call))
                     then LToolCall else LBlocked)
    /\ logIdCounter w' = S (logIdCounter w)
    /\ forall l,
         heap w' l
         = heap_set (heap w) call
             (with_status (heap w call) (verdict config (heap w call))) l.

(** What one round of the execution loop of [runExecution] does. *)
Definition executes (body : list LogEntry -> loc -> M (list LogEntry)) : Prop :=
  forall logs call w,
  exists e w',
    body logs call w = (w', Return (logs ++ [e]))
    /\ log_type e = LExecution
    /\ logIdCounter w' = S (logIdCounter w)
    /\ forall l,
         heap w' l = heap_set (heap w) call (executed_call (heap w call)) l.

(** The outcome of validating [data] against the output schema an agent
    names: [true] when the schema table has no such entry. *)
Definition schemaVerdict (outputSchemas : list (string * JSONSchema))
  (config : AgentConfig) (data : Value) : bool :=
  match table_get outputSchemas (cfg_outputSchema config) with
  | Some schema => valid (validateAgainstLooked data schema)
  | None => true
  end.

(** The agent a request names. *)
Definition findAgent (agentConfigs : list AgentConfig)
  (request : AgentRunRequest) : option AgentConfig :=
  List.find (fun c => String.eqb (cfg_name c) (req_agent request)) agentConfigs.

(** What a provider is invoked with in the Discussion phase of a request. *)
Definition discussionOptions (outputSchemas : list (string * JSONSchema))
  (config : AgentConfig) (request : AgentRunRequest) : GenerateOptions :=
  {| opt_systemPrompt := cfg_instructions config;
     opt_userPrompt := req_input request;
     opt_tools := getPermittedTools (cfg_allowedTools config) (cfg_permissions config);
     opt_outputSchema :=
       match table_get outputSchemas (cfg_outputSchema config) with
       | Some schema => schema
       | None => Own (mkJSONSchema "object" None None None None None None)
       end |}.

(** * Sample inputs *)

(** The [TaskUpdate] output schema. *)
Definition TaskUpdate_schema : JSONSchema :=
  match own_property "TaskUpdate" OUTPUT_SCHEMAS with
  | Some s => s
  | None => schema_object None None None
  end.

(** [{ taskId: "task-001", updates: { status: "in-progress" } }] *)
Definition sample_task_update : Value :=
  VObj [ ("taskId", VStr "task-001");
         ("updates", VObj [ ("status", VStr "in-progress") ]) ].

(** [{ type: "integer" }], a type outside the supported subset. *)
Definition integer_schema : JSONSchema :=
  mkJSONSchema "integer" None None None None None None.

(** [{ type: "object", required: ["id"], additionalProperties: false }] *)
Definition closed_object_schema : JSONSchema :=
  schema_object None (Some ["id"]) (Some false).

(** [{ id: "task-001", executeSQL: "DROP TABLE users" }] *)
Definition sample_extra_keys : Value :=
  VObj [ ("id", VStr "task-001"); ("executeSQL", VStr "DROP TABLE users") ].



(** A run of [task-agent]: the provider proposes [updateTask] and the
    invented [deleteDatabase], both pending, with data for the
    [TaskUpdate] schema. *)
Definition sample_request : AgentRunRequest :=
  {| req_agent := "task-agent";
     req_model := Some "gpt-5.2";
     req_input := "Update task-001 status to in-progress and delete the database" |}.

Definition sample_updateTask_call : ToolCall :=
  {| call_toolName := "updateTask";
     call_arguments :=
       VObj [ ("taskId", VStr "task-001");
              ("updates", VObj [ ("status", VStr "in-progress") ]) ];
     call_result := None;
     call_status := pending |}.

Definition sample_deleteDatabase_call : ToolCall :=
  {| call_toolName := "deleteDatabase";
     call_arguments := VObj [ ("target", VStr "all") ];
     call_result := None;
     call_status := pending |}.

Definition sample_result : StructuredResult :=
  {| res_success := true;
     res_data := sample_task_update;
     res_toolCalls := [0; 1];
     res_reasoning := Some "[GPT-5.2] Analyzed request using structured output mode.";
     res_rawOutput := None |}.

(** A provider that allocates the two calls at locations 0 and 1. *)
Definition sample_generate (p : LLMProvider) (options : GenerateOptions)
  (h : loc -> ToolCall) : (loc -> ToolCall) * Outcome StructuredResult :=
  (heap_set (heap_set h 0 sample_updateTask_call) 1 sample_deleteDatabase_call,
   Return sample_result).

Definition sample_clock (n : nat) : Z := (1700000000000 + Z.of_nat n)%Z.

(** Three entries of other runs are logged while the sample run awaits its
    provider. *)
Definition sample_interleaved (w : World) : nat := 3.

Definition sample_world : World :=
  {| logIdCounter := 0; heap := fun _ => sample_deleteDatabase_call |}.

(** The two phases of the sample run. *)
Definition sample_discussion : World * Outcome AgentRunResult :=
  runDiscussion AGENT_CONFIGS OUTPUT_SCHEMAS sample_clock sample_generate sample_interleaved
    sample_request sample_world.

Definition sample_discussion_world : World := fst sample_discussion.

Definition sample_discussion_result : AgentRunResult :=
  match snd sample_discussion with
  | Return r => r
  | Throw _ => mkAgentRunResult PDiscussion sample_result [] false [] []
  end.

Definition sample_execution : World * Outcome AgentRunResult :=
  runExecution AGENT_CONFIGS OUTPUT_SCHEMAS sample_clock
    sample_discussion_result sample_request sample_discussion_world.

Definition sample_execution_world : World := fst sample_execution.

Definition sample_execution_result : AgentRunResult :=
  match snd sample_execution with
  | Return r => r
  | Throw _ => mkAgentRunResult PExecution sample_result [] false [] []
  end.

(** A discussion result whose data misses the fields [TaskUpdate]
    requires, with one approved call. *)
Definition invalid_discussion_result : AgentRunResult :=
  {| run_phase := PDiscussion;
     run_result :=
       {| res_success := true;
          res_data := VObj [ ("result", VStr "structured output") ];
          res_toolCalls := [0];
          res_reasoning := None;
          res_rawOutput := None |};
     run_logs := [];
     run_validationPassed := false;
     run_blockedCalls := [];
     run_approvedCalls := [0] |}.

Definition approved_world : World :=
  {| logIdCounter := 5;
     heap := fun _ => with_status sample_updateTask_call approved |}.

(** A request for an agent that is not configured, and one for a model
    that no provider serves. *)
Definition unknown_agent_request : AgentRunRequest :=
  {| req_agent := "ghost-agent"; req_model := None; req_input := "List all current tasks" |}.

Definition unknown_model_request : AgentRunRequest :=
  {| req_agent := "task-agent"; req_model := Some "gpt-4"; req_input := "List all current tasks" |}.




(** An agent table whose only agent names an output schema that
    [OUTPUT_SCHEMAS] does not have. *)
Definition summary_agent : AgentConfig :=
  {| cfg_name := "summary-agent";
     cfg_model := "gpt-5.2";
     cfg_instructions := "Summarise the open tasks.";
     cfg_allowedTools := ["readTask"; "listTasks"];
     cfg_outputSchema := "Summary";
     cfg_permissions := ["read:tasks"] |}.


(** The configuration of [task-agent]. *)
Definition task_agent : AgentConfig :=
  match findAgent AGENT_CONFIGS sample_request with
  | Some config => config
  | None => summary_agent
  end.

(** The provider registered for [gpt-5.2]. *)
Definition gpt_provider : LLMProvider :=
  mkLLMProvider "gpt-5.2" "OpenAI GPT-5.2" openai.

(** * Further specification-side definitions *)

(** The values a schema lets through, read off the checks of [validate]
    with the paths and messages left out: an unsupported type lets
    everything through, and a key is declared when it is [in] the
    [properties] object. *)
Fixpoint accepted (s : JSONSchema) (value : Value) : bool :=
  if String.eqb (s_type s) "object" then
    is_object value
    && match s_required s with
       | Some required => forallb (fun key => js_in key value) required
       | None => true
       end
    && match s_properties s with
       | Some properties =>
           forallb
             (fun '(key, propSchema) =>
                implb (js_in key value) (accepted propSchema (js_get key value)))
             properties
       | None => true
       end
    && match s_additionalProperties s, s_properties s with
       | Some false, Some properties =>
           forallb (fun key => in_object key properties) (object_keys value)
       | _, _ => true
       end
  else if String.eqb (s_type s) "array" then
    match value with
    | VArr elems =>
        match s_items s with
        | Some items => forallb (accepted items) elems
        | None => true
        end
    | _ => false
    end
  else if String.eqb (s_type s) "string" then
    match value with
    | VStr str =>
        match s_enum s with
        | Some enum => includes enum str
        | None => true
        end
    | _ => false
    end
  else if String.eqb (s_type s) "number" then
    match value with VNum _ => true | _ => false end
  else if String.eqb (s_type s) "boolean" then
    match value with VBool _ => true | _ => false end
  else true.

(** The errors of the declared properties of an object, in the order of
    the [properties] object. *)
Definition property_errors (properties : list (string * JSONSchema))
  (obj : Value) (path : string) : list string :=
  flat_map
    (fun '(key, propSchema) =>
       if js_in key obj
       then validate propSchema (js_get key obj) (path +:+ "." +:+ key) []
       else [])
    properties.

(** ** The audit trail *)

(** The id of the [n]-th log entry. *)
Definition logId (n : nat) : string := "log-" +:+ pretty n.

(** What a log entry says, apart from its id and timestamp. *)
Record LogContent : Type := mkLogContent {
  said_phase : Phase;
  said_model : ModelId;
  said_agent : string;
  said_type : LogType;
  said_message : string;
  said_data : LogData
}.

Definition contentOf (e : LogEntry) : LogContent :=
  mkLogContent (log_phase e) (log_model e) (log_agent e) (log_type e)
    (log_message e) (log_data e).

(** The entry with a content, created as the [n]-th entry. *)
Definition entryAt (clock : nat -> Z) (n : nat) (c : LogContent) : LogEntry :=
  {| log_id := logId n;
     log_timestamp := clock n;
     log_phase := said_phase c;
     log_model := said_model c;
     log_agent := said_agent c;
     log_type := said_type c;
     log_message := said_message c;
     log_data := said_data c |}.

(** The entries with the given contents, created one after the other when
    the counter is at [n]. *)
Fixpoint stamp (clock : nat -> Z) (n : nat) (contents : list LogContent)
  : list LogEntry :=
  match contents with
  | [] => []
  | c :: rest => entryAt clock (S n) c :: stamp clock (S n) rest
  end.

(** What the Discussion phase logs for a proposed call. *)
Definition classificationContent (config : AgentConfig) (modelId : ModelId)
  (toolName : string) (call : loc) : LogContent :=
  if passes config toolName
  then mkLogContent PDiscussion modelId (cfg_name config) LToolCall
         ("Tool call approved: " +:+ toolName) (DCall call)
  else mkLogContent PDiscussion modelId (cfg_name config) LBlocked
         (default ""
            (validateToolAccess toolName (cfg_allowedTools config)
               (cfg_permissions config)))
         (DCall call).

(** What the validation step of a phase logs, if the agent's output schema
    is found. *)
Definition validationContent (outputSchemas : list (string * JSONSchema))
  (config : AgentConfig) (modelId : ModelId) (phase : Phase)
  (passedText failedText : string) (data : Value) : list LogContent :=
  match table_get outputSchemas (cfg_outputSchema config) with
  | Some schema =>
      let validation := validateAgainstLooked data schema in
      [ mkLogContent phase modelId (cfg_name config) LValidation
          (if valid validation
           then passedText
           else failedText +:+ String.concat "; " (errors validation))
          (DValidation validation) ]
  | None => []
  end.

(** What a Discussion phase logs before it awaits the provider: the start
    and the permitted tools. *)
Definition discussionOpening (config : AgentConfig) (modelId : ModelId)
  (p : LLMProvider) : list LogContent :=
  [ mkLogContent PDiscussion modelId (cfg_name config) LPlan
      ("Starting discussion phase with " +:+ displayName p) DNone;
    mkLogContent PDiscussion modelId (cfg_name config) LPlan
      ("Permitted tools: [" +:+
       String.concat ", "
         (map tool_name
            (getPermittedTools (cfg_allowedTools config) (cfg_permissions config)))
       +:+ "]") DNone ].

(** What it logs once it has the answer: one entry per proposed call, the
    validation, the summary. *)
Definition discussionAnswered (outputSchemas : list (string * JSONSchema))
  (config : AgentConfig) (modelId : ModelId)
  (h0 : loc -> ToolCall) (result : StructuredResult) : list LogContent :=
  let approvedCalls :=
    List.filter (fun l => passes config (call_toolName (h0 l)))
                (res_toolCalls result) in
  let blockedCalls :=
    List.filter (fun l => negb (passes config (call_toolName (h0 l))))
                (res_toolCalls result) in
  map (fun call =>
         classificationContent config modelId (call_toolName (h0 call)) call)
      (res_toolCalls result)
  ++ validationContent outputSchemas config modelId PDiscussion
       "✓ Output matches JSON schema" "✗ Schema validation failed: "
       (res_data result)
  ++ [ mkLogContent PDiscussion modelId (cfg_name config) LPlan
         ("Discussion complete. " +:+ pretty (length approvedCalls) +:+
          " approved, " +:+ pretty (length blockedCalls) +:+ " blocked.")
         DNone ].

(** What a Discussion phase logs, in order. *)
Definition discussionContents (outputSchemas : list (string * JSONSchema))
  (config : AgentConfig) (modelId : ModelId) (p : LLMProvider)
  (h0 : loc -> ToolCall) (result : StructuredResult) : list LogContent :=
  discussionOpening config modelId p
  ++ discussionAnswered outputSchemas config modelId h0 result.

(** The entries with the contents [before] and [after], created when the
    counter is at [n], with [gap] entries of other runs created between
    the two groups. *)
Definition stampAround (clock : nat -> Z) (n gap : nat)
  (before after : list LogContent) : list LogEntry :=
  stamp clock n before ++ stamp clock (n + length before + gap) after.

(** The numbers of the entries of [stampAround]. *)
Definition numbersAround (n gap before after : nat) : list nat :=
  seq (S n) before ++ seq (S (n + before + gap)) after.

(** What the Execution phase logs for an approved call. *)
Definition executionContent (config : AgentConfig) (modelId : ModelId)
  (toolName : string) (call : loc) : LogContent :=
  mkLogContent PExecution modelId (cfg_name config) LExecution
    ("Executed: " +:+ toolName) (DCall call).

(** What an Execution phase logs, in order: the confirmation, the
    re-validation, then either the abort or one entry per approved call and
    the summary. *)
Definition executionContents (outputSchemas : list (string * JSONSchema))
  (config : AgentConfig) (modelId : ModelId)
  (discussionResult : AgentRunResult) (h : loc -> ToolCall) : list LogContent :=
  [ mkLogContent PExecution modelId (cfg_name config) LExecution
      "User confirmed — entering execution phase" DNone ]
  ++ validationContent outputSchemas config modelId PExecution
       "✓ Re-validation passed" "✗ Re-validation failed: "
       (res_data (run_result discussionResult))
  ++ (if schemaVerdict outputSchemas config
           (res_data (run_result discussionResult))
      then map (fun call =>
                  executionContent config modelId (call_toolName (h call)) call)
               (run_approvedCalls discussionResult)
           ++ [ mkLogContent PExecution modelId (cfg_name config) LExecution
                  ("Execution complete. " +:+
                   pretty (length (run_approvedCalls discussionResult)) +:+
                   " tool calls executed.") DNone ]
      else [ mkLogContent PExecution modelId (cfg_name config) LError
               "Execution aborted: output failed re-validation" DNone ]).

(** One round of the classification loop, with the entry it logs. *)
Definition logsClassification (clock : nat -> Z) (config : AgentConfig)
  (modelId : ModelId)
  (body : list loc * list loc * list LogEntry -> loc ->
          M (list loc * list loc * list LogEntry)) : Prop :=
  forall blockedCalls approvedCalls logs call w,
  exists w',
    body (blockedCalls, approvedCalls, logs) call w
    = (w', Return
             (let e :=
                entryAt clock (S (logIdCounter w))
                  (classificationContent config modelId
                     (call_toolName (heap w call)) call) in
              if passes config (call_toolName (heap w call))
              then (blockedCalls, approvedCalls ++ [call], logs ++ [e])
              else (blockedCalls ++ [call], approvedCalls, logs ++ [e])))
    /\ logIdCounter w' = S (logIdCounter w)
    /\ forall l, call_toolName (heap w' l) = call_toolName (heap w l).

(** One round of the execution loop, with the entry it logs. *)
Definition logsExecution (clock : nat -> Z) (config : AgentConfig)
  (modelId : ModelId)
  (body : list LogEntry -> loc -> M (list LogEntry)) : Prop :=
  forall logs call w,
  exists w',
    body logs call w
    = (w', Return
             (logs ++
              [entryAt clock (S (logIdCounter w))
                 (executionContent config modelId
                    (call_toolName (heap w call)) call)]))
    /\ logIdCounter w' = S (logIdCounter w)
    /\ forall l, call_toolName (heap w' l) = call_toolName (heap w l).

(** The type of the entry the Discussion phase logs for a call, by the
    list the call went to. *)
Definition classificationType (approvedCalls : list loc) (call : loc) : LogType :=
  if bool_decide (call ∈ approvedCalls) then LToolCall else LBlocked.

(** The type of the validation entry, if the agent's output schema is
    found. *)
Definition validationType (outputSchemas : list (string * JSONSchema))
  (config : AgentConfig) : list LogType :=
  match table_get outputSchemas (cfg_outputSchema config) with
  | Some _ => [LValidation]
  | None => []
  end.

(** * Further sample inputs *)

(** [{ updates: { status: "archived" }, note: 1 }]: no [taskId], a status
    outside the enum, an undeclared key. *)
Definition sample_bad_update : Value :=
  VObj [ ("updates", VObj [ ("status", VStr "archived") ]);
         ("note", VNum 1) ].

(** The [TaskList] output schema and a list whose second task has no
    title. *)
Definition TaskList_schema : JSONSchema :=
  match own_property "TaskList" OUTPUT_SCHEMAS with
  | Some s => s
  | None => schema_object None None None
  end.

Definition tasks_schema : JSONSchema :=
  match s_properties TaskList_schema with
  | Some ((_, s) :: _) => s
  | _ => schema_object None None None
  end.

Definition sample_tasks : list Value :=
  [ VObj [ ("id", VStr "task-001"); ("title", VStr "Update onboarding flow");
           ("status", VStr "open") ];
    VObj [ ("id", VStr "task-002"); ("status", VStr "open") ] ].
(** ** core/providers.ts: the adapters *)

(** [haystack.includes(needle)] on strings *)
Fixpoint str_includes (needle haystack : string) : bool :=
  String.prefix needle haystack
  || match haystack with
     | EmptyString => false
     | String _ rest => str_includes needle rest
     end.

(** [tools.find(t => t.name === name)], as a condition: the entry found is
    an object, hence truthy. *)
Definition offers (tools : list ToolDefinition) (name : string) : bool :=
  match List.find (fun t => String.eqb (tool_name t) name) tools with
  | Some _ => true
  | None => false
  end.

(** [schema.properties?.name], as a condition.  A schema that came out of
    [Object.prototype] has no [properties] member. *)
Definition has_schema_property (schema : Looked JSONSchema) (name : string)
  : bool :=
  match schema with
  | Own s =>
      match s_properties s with
      | Some properties =>
          match table_get properties name with
          | Some _ => true
          | None => false
          end
      | None => false
      end
  | Inherited => false
  end.

(** [calls.push(call)] when [condition] holds. *)
Definition push_if (condition : bool) (call : ToolCall) (calls : list ToolCall)
  : list ToolCall :=
  if condition then calls ++ [call] else calls.

(** The fresh [ToolCall] objects of a provider's answer, placed in the store
    from location [l] on. *)
Fixpoint allocate (h : loc -> ToolCall) (l : loc) (calls : list ToolCall)
  : loc -> ToolCall :=
  match calls with
  | [] => h
  | c :: rest => allocate (heap_set h l c) (S l) rest
  end.

(** The tool names the adapters propose without looking at the tools they
    were given. *)
Definition probe_names : list string :=
  ["deleteDatabase"; "executeRawSQL"; "dangerousEval"].

(** [tools.map(t => t.name).join(", ")] *)
Definition joined_names (tools : list ToolDefinition) : string :=
  String.concat ", " (map tool_name tools).

(** [getAllProviders()]: [Object.values(providers)] *)
Definition getAllProviders : list LLMProvider := map snd providers.

Section Adapters.

(** [String.prototype.toLowerCase], whose case mapping is the engine's, and
    the location at which the engine places the first object allocated in a
    given store; the following objects take the following locations.  That
    the engine allocates where no object is in use is assumed where a
    property needs it.  [simulateLatency] only waits and is left out. *)
Variable toLowerCase : string -> string.
Variable fresh : (loc -> ToolCall) -> loc.

Definition generateMockData (prompt : string) (schema : Looked JSONSchema)
  : Value :=
  let lower := toLowerCase prompt in
  if has_schema_property schema "workflow" then
    VObj [ ("workflow",
            VObj [ ("name",
                    VStr (if str_includes "overdue" lower
                          then "Overdue Task Handler" else "Custom Workflow"));
                   ("trigger",
                    VStr (if str_includes "overdue" lower
                          then "task.overdue" else "manual"));
                   ("steps",
                    VArr [ VObj [ ("type", VStr "update");
                                  ("entity", VStr "Task");
                                  ("update",
                                   VObj [ ("status",
                                           VStr (if str_includes "urgent" lower
                                                 then "urgent"
                                                 else "in-progress")) ]) ] ]) ]) ]
  else if has_schema_property schema "tasks" then
    VObj [ ("tasks",
            VArr [ VObj [ ("id", VStr "task-001");
                          ("title", VStr "Update onboarding flow");
                          ("status", VStr "open");
                          ("priority", VStr "high") ];
                   VObj [ ("id", VStr "task-002");
                          ("title", VStr "Fix auth redirect bug");
                          ("status", VStr "in-progress");
                          ("priority", VStr "critical") ];
                   VObj [ ("id", VStr "task-003");
                          ("title", VStr "Add dark mode support");
                          ("status", VStr "open");
                          ("priority", VStr "medium") ] ]) ]
  else if has_schema_property schema "taskId" then
    VObj [ ("taskId", VStr "task-001");
           ("updates", VObj [ ("status", VStr "in-progress") ]) ]
  else
    VObj [ ("result", VStr "structured output") ].

(** [OpenAIProvider.extractToolCalls] *)
Definition openai_extractToolCalls (prompt : string)
  (tools : list ToolDefinition) : list ToolCall :=
  let calls : list ToolCall := [] in
  let lower := toLowerCase prompt in
  let calls :=
    push_if ((str_includes "overdue" lower || str_includes "urgent" lower)
             && offers tools "createWorkflow")
      (mkToolCall "createWorkflow"
         (VObj [ ("workflow",
                  VObj [ ("name", VStr "Overdue Task Handler");
                         ("trigger", VStr "task.overdue");
                         ("steps",
                          VArr [ VObj [ ("type", VStr "update");
                                        ("entity", VStr "Task");
                                        ("update",
                                         VObj [ ("status", VStr "urgent") ]) ] ]) ]) ])
         None pending)
      calls in
  let calls :=
    push_if (str_includes "list" lower && offers tools "listTasks")
      (mkToolCall "listTasks" (VObj [ ("filter", VObj []) ]) None pending)
      calls in
  let calls :=
    push_if (str_includes "update" lower && offers tools "updateTask")
      (mkToolCall "updateTask"
         (VObj [ ("taskId", VStr "task-001");
                 ("updates", VObj [ ("status", VStr "in-progress") ]) ])
         None pending)
      calls in
  let calls :=
    push_if (str_includes "delete" lower || str_includes "drop" lower
             || str_includes "eval" lower)
      (mkToolCall "deleteDatabase" (VObj [ ("target", VStr "all") ])
         None pending)
      calls in
  calls.

(** [ClaudeProvider.extractToolCalls] *)
Definition claude_extractToolCalls (prompt : string)
  (tools : list ToolDefinition) : list ToolCall :=
  let calls : list ToolCall := [] in
  let lower := toLowerCase prompt in
  let calls :=
    push_if ((str_includes "workflow" lower || str_includes "overdue" lower)
             && offers tools "createWorkflow")
      (mkToolCall "createWorkflow"
         (VObj [ ("workflow",
                  VObj [ ("name", VStr "Overdue → Urgent Escalation");
                         ("trigger", VStr "task.overdue");
                         ("steps",
                          VArr [ VObj [ ("type", VStr "update");
                                        ("entity", VStr "Task");
                                        ("update",
                                         VObj [ ("status", VStr "urgent") ]) ];
                                 VObj [ ("type", VStr "notify");
                                        ("entity", VStr "User");
                                        ("update",
                                         VObj [ ("message",
                                                 VStr "Task escalated to urgent") ]) ] ]) ]) ])
         None pending)
      calls in
  let calls :=
    push_if (str_includes "list" lower && offers tools "listTasks")
      (mkToolCall "listTasks" (VObj [ ("filter", VObj []) ]) None pending)
      calls in
  let calls :=
    push_if (str_includes "delete" lower || str_includes "drop" lower
             || str_includes "eval" lower)
      (mkToolCall "executeRawSQL" (VObj [ ("query", VStr "DROP TABLE tasks") ])
         None pending)
      calls in
  calls.

(** [GeminiProvider.extractToolCalls] *)
Definition gemini_extractToolCalls (prompt : string)
  (tools : list ToolDefinition) : list ToolCall :=
  let calls : list ToolCall := [] in
  let lower := toLowerCase prompt in
  let calls :=
    push_if ((str_includes "workflow" lower || str_includes "urgent" lower
              || str_includes "overdue" lower)
             && offers tools "createWorkflow")
      (mkToolCall "createWorkflow"
         (VObj [ ("workflow",
                  VObj [ ("name", VStr "Auto-Escalate Overdue Tasks");
                         ("trigger", VStr "task.overdue");
                         ("steps",
                          VArr [ VObj [ ("type", VStr "update");
                                        ("entity", VStr "Task");
                                        ("update",
                                         VObj [ ("status", VStr "urgent") ]) ] ]) ]) ])
         None pending)
      calls in
  let calls :=
    push_if (str_includes "delete" lower || str_includes "eval" lower)
      (mkToolCall "dangerousEval" (VObj [ ("code", VStr "process.exit(1)") ])
         None pending)
      calls in
  calls.

(** [this.extractToolCalls(prompt, tools)]; the class of a provider of the
    registry is told by its vendor. *)
Definition extractToolCalls (p : LLMProvider) (prompt : string)
  (tools : list ToolDefinition) : list ToolCall :=
  match vendor p with
  | openai => openai_extractToolCalls prompt tools
  | anthropic => claude_extractToolCalls prompt tools
  | google => gemini_extractToolCalls prompt tools
  end.

(** The [reasoning] member of the answer. *)
Definition reasoning_text (p : LLMProvider) (tools : list ToolDefinition)
  : string :=
  match vendor p with
  | openai =>
      "[GPT-5.2] Analyzed request using structured output mode with JSON schema enforcement. Tools evaluated: "
      +:+ joined_names tools +:+ "."
  | anthropic =>
      "[Claude Opus 4.6] Applied chain-of-thought reasoning with tool_use blocks. Validated output against schema before returning. Tools available: "
      +:+ joined_names tools +:+ "."
  | google =>
      "[Gemini 3] Used function calling with structured JSON response schema. Generated output matches declared responseSchema. Tools registered: "
      +:+ joined_names tools +:+ "."
  end.

(** [provider.generateStructuredOutput(options)] of the three adapters. *)
Definition adapter_generateStructuredOutput (p : LLMProvider)
  (options : GenerateOptions) (h : loc -> ToolCall)
  : (loc -> ToolCall) * Outcome StructuredResult :=
  let toolCalls := extractToolCalls p (opt_userPrompt options) (opt_tools options) in
  let data := generateMockData (opt_userPrompt options) (opt_outputSchema options) in
  (allocate h (fresh h) toolCalls,
   Return {| res_success := true;
             res_data := data;
             res_toolCalls := seq (fresh h) (length toolCalls);
             res_reasoning := Some (reasoning_text p (opt_tools options));
             res_rawOutput := None |}).

End Adapters.

(** A lower-casing of ASCII letters, to run the adapters on ASCII prompts. *)
Definition ascii_lower (c : ascii) : ascii :=
  let n := nat_of_ascii c in
  if (Nat.leb 65 n && Nat.leb n 90)%bool then ascii_of_nat (n + 32) else c.

Fixpoint ascii_toLowerCase (s : string) : string :=
  match s with
  | EmptyString => EmptyString
  | String c rest => String (ascii_lower c) (ascii_toLowerCase rest)
  end.

(** An allocator for stores whose objects in use lie below location 40. *)
Definition sample_fresh (h : loc -> ToolCall) : loc := 40.

(** The objects in use after the sample run: its two calls. *)
Definition sample_in_use (l : loc) : Prop := l < 2.

Definition probing_request : AgentRunRequest :=
  {| req_agent := "task-agent";
     req_model := None;
     req_input := "List my tasks, UPDATE the first and delete the rest" |}.

(** What the runtime gives the adapter for [probing_request]. *)
Definition probing_options : GenerateOptions :=
  discussionOptions OUTPUT_SCHEMAS task_agent probing_request.

(** The Discussion phase of [probing_request] with the adapters. *)
Definition probing_discussion : World * Outcome AgentRunResult :=
  runDiscussion AGENT_CONFIGS OUTPUT_SCHEMAS sample_clock
    (adapter_generateStructuredOutput ascii_toLowerCase sample_fresh) sample_interleaved
    probing_request sample_world.

Definition probing_discussion_world : World := fst probing_discussion.

Definition probing_discussion_result : AgentRunResult :=
  match snd probing_discussion with
  | Return r => r
  | Throw _ => mkAgentRunResult PDiscussion sample_result [] false [] []
  end.

(** An Execution phase whose re-validation fails, and the sample
    Execution phase run a second time. *)
Definition aborted_execution : World * Outcome AgentRunResult :=
  runExecution AGENT_CONFIGS OUTPUT_SCHEMAS sample_clock
    invalid_discussion_result sample_request approved_world.

Definition aborted_execution_world : World := fst aborted_execution.

Definition aborted_execution_result : AgentRunResult :=
  match snd aborted_execution with
  | Return r => r
  | Throw _ => mkAgentRunResult PExecution sample_result [] false [] []
  end.

Definition sample_reexecution : World * Outcome AgentRunResult :=
  runExecution AGENT_CONFIGS OUTPUT_SCHEMAS sample_clock
    sample_discussion_result sample_request sample_execution_world.

Definition sample_reexecution_world : World := fst sample_reexecution.

Definition sample_reexecution_result : AgentRunResult :=
  match snd sample_reexecution with
  | Return r => r
  | Throw _ => mkAgentRunResult PExecution sample_result [] false [] []
  end.

(** The registry entry of [updateTask]. *)
Definition updateTask_tool : ToolDefinition :=
  match List.find (fun t => String.eqb (tool_name t) "updateTask") TOOL_REGISTRY with
  | Some tool => tool
  | None => mkToolDefinition "updateTask" "" schema_string []
  end.

(** * Properties of the schema validator *)

Section SchemaInduction.

Variable P : JSONSchema -> Prop.

Hypothesis step :
  forall type properties items required enum description additionalProperties,
    match properties with
    | Some ps => Forall (fun kp => P (snd kp)) ps
    | None => True
    end ->
    match items with
    | Some it => P it
    | None => True
    end ->
    P (mkJSONSchema type properties items required enum description
         additionalProperties).

(** Induction on a schema tree, through the property maps and [items]. *)
Lemma JSONSchema_induction : forall s, P s.
Proof using P step.
  fix IH 1.
  intros [type properties items required enum description additionalProperties].
  apply step.
  - destruct properties as [ps|]; [|exact I].
    revert ps. fix go 1. intros [|kp ps]; constructor.
    + apply IH.
    + apply go.
  - destruct items as [it|]; [apply IH | exact I].
Qed.

End SchemaInduction.

Lemma fold_left_unchanged {A B : Type} (f : A -> B -> A) (l : list B) (a : A) :
  Forall (fun x => forall acc, f acc x = acc) l -> fold_left f l a = a.
Proof.
  induction 1 as [|x l Hx _ IH]; simpl; [reflexivity|].
  rewrite Hx. exact IH.
Qed.

Lemma forEach_indexed_unchanged {A St : Type} (f : A -> nat -> St -> St)
  (l : list A) (i : nat) (st : St) :
  Forall (fun x => forall j acc, f x j acc = acc) l ->
  forEach_indexed f l i st = st.
Proof.
  intros H. revert i. induction H as [|x l Hx _ IH]; intros i; simpl;
    [reflexivity|].
  rewrite Hx. apply IH.
Qed.

Lemma includes_elem_of (arr : list string) (x : string) :
  includes arr x = true <-> x ∈ arr.
Proof.
  unfold includes. rewrite existsb_exists, list_elem_of_In. split.
  - intros (y & Hy & Heq). apply String.eqb_eq in Heq. subst. exact Hy.
  - intros Hx. exists x. split; [exact Hx | apply String.eqb_refl].
Qed.

Lemma has_own_declared {A : Type} (key : string) (fields : list (string * A)) :
  includes (map fst fields) key = true -> has_own key fields = true.
Proof.
  unfold has_own. induction fields as [|[k v] fields IH]; simpl; [discriminate|].
  destruct (String.eqb key k); [reflexivity|]. exact IH.
Qed.

Lemma forallb_elem_of {A : Type} (f : A -> bool) (l : list A) :
  forallb f l = true -> forall x, x ∈ l -> f x = true.
Proof.
  intros H x Hx. apply list_elem_of_In in Hx.
  revert x Hx. apply forallb_forall. exact H.
Qed.

Lemma object_test_passes (value : Value) :
  is_object value = true ->
  negb (String.eqb (typeof value) "object") || is_null value || isArray value = false.
Proof. destruct value; simpl; (discriminate || reflexivity). Qed.

(** A conforming value makes [validate] push nothing. *)
Lemma validate_conforms_unchanged :
  forall s value path errors,
    conforms s value = true -> validate s value path errors = errors.
Proof.
  induction s as [type properties items required enum description addl IHp IHi]
    using JSONSchema_induction.
  intros value path errs Hc. simpl in *.
  destruct (String.eqb type "object").
  { apply andb_prop in Hc as [Hc Hextra].
    apply andb_prop in Hc as [Hc Hprops].
    apply andb_prop in Hc as [Hobj Hreq].
    rewrite (object_test_passes _ Hobj).
    assert (Hr : match required with
                 | Some required =>
                     fold_left
                       (fun errors key =>
                          if negb (js_in key value)
                          then errors ++ [path +:+ "." +:+ key +:+ ": required field missing"]
                          else errors) required errs
                 | None => errs
                 end = errs).
    { destruct required as [req|]; [|reflexivity].
      apply fold_left_unchanged, Forall_forall. intros key Hkey acc.
      rewrite (forallb_elem_of _ _ Hreq key Hkey). reflexivity. }
    rewrite Hr. clear Hr.
    destruct properties as [props|].
    - assert (Hp : fold_left
                     (fun errors '(key, propSchema) =>
                        if js_in key value
                        then validate propSchema (js_get key value)
                               (path +:+ "." +:+ key) errors
                        else errors) props errs = errs).
      { apply fold_left_unchanged, Forall_forall. intros [key ps] Hin acc.
        pose proof (forallb_elem_of _ _ Hprops _ Hin) as Hps. simpl in Hps.
        destruct (js_in key value); [|reflexivity].
        rewrite Forall_forall in IHp. apply (IHp _ Hin). exact Hps. }
      rewrite Hp. clear Hp.
      destruct addl as [[|]|]; try reflexivity.
      apply fold_left_unchanged, Forall_forall. intros key Hkey acc.
      pose proof (forallb_elem_of _ _ Hextra key Hkey) as Hd.
      unfold declared_names in Hd. simpl in Hd.
      unfold in_object. rewrite (has_own_declared _ _ Hd). reflexivity.
    - destruct addl as [[|]|]; reflexivity. }
  destruct (String.eqb type "array").
  { destruct value; try discriminate.
    destruct items as [it|]; [|reflexivity].
    apply forEach_indexed_unchanged, Forall_forall. intros item Hitem j acc.
    apply IHi. exact (forallb_elem_of _ _ Hc item Hitem). }
  destruct (String.eqb type "string").
  { destruct value; try discriminate.
    destruct enum as [en|]; [|reflexivity]. rewrite Hc. reflexivity. }
  destruct (String.eqb type "number").
  { destruct value; try discriminate. reflexivity. }
  destruct (String.eqb type "boolean").
  { destruct value; try discriminate. reflexivity. }
  discriminate.
Qed.

(** With presence read by [in], the round trip holds as it is. *)
Lemma conforming_value_is_valid (schema : JSONSchema) (data : Value) :
  conforms schema data = true ->
  validateAgainstSchema data schema = {| valid := true; errors := [] |}.
Proof.
  intros Hc. unfold validateAgainstSchema.
  rewrite (validate_conforms_unchanged _ _ _ _ Hc). reflexivity.
Qed.






(** Data for [TaskUpdate] that omits [taskId]. *)
Example missing_taskId :
  validateAgainstSchema (VObj [ ("updates", VObj [ ("status", VStr "done") ]) ])
    TaskUpdate_schema
  = {| valid := false; errors := ["$.taskId: required field missing"] |}.
Proof. reflexivity. Qed.

(** Presence is the [in] of the source, which also sees inherited names:
    a declared property called [constructor] is checked on an object that
    has no such key of its own. *)
Example inherited_name_is_checked :
  validateAgainstSchema (VObj [])
    (schema_object (Some [ ("constructor", schema_string) ]) None None)
  = {| valid := false;
       errors := ["$.constructor: expected string, got function"] |}.
Proof. reflexivity. Qed.

(** For the same reason an own key called [__proto__] of the data is never
    reported as unexpected, whatever the schema declares. *)
Example proto_key_is_not_unexpected :
  validateAgainstSchema
    (VObj [ ("taskId", VStr "123");
            ("updates", VObj [ ("status", VStr "done") ]);
            ("__proto__", VObj [ ("admin", VBool true) ]);
            ("executeSQL", VStr "DROP TABLE users") ])
    TaskUpdate_schema
  = {| valid := false; errors := ["$.executeSQL: unexpected property"] |}.
Proof. reflexivity. Qed.

(** C6, as stated, fails: the schema [{ type: "integer" }] lies outside the
    supported subset and a string validates against it with no error. *)
Lemma integer_schema_accepts_a_string :
  (s_type integer_schema ∉ supported_types)
  /\ validateAgainstSchema (VStr "DROP TABLE tasks") integer_schema
     = {| valid := true; errors := [] |}.
Proof.
  split; [|reflexivity].
  intros H. apply includes_elem_of in H. discriminate H.
Qed.

(** C6, amended — at a schema node whose type is none of [object], [array],
    [string], [number], [boolean], the validator checks nothing: [validate]
    pushes no error for any value at any path, so as the root schema such a
    node reports every value valid, with no error. *)
Theorem unsupported_type_accepts_every_value (schema : JSONSchema) (data : Value) :
  s_type schema ∉ supported_types ->
  (forall path errs, validate schema data path errs = errs)
  /\ validateAgainstSchema data schema = {| valid := true; errors := [] |}.
Proof.
  intros H.
  assert (Hne : forall t, t ∈ supported_types -> String.eqb (s_type schema) t = false).
  { intros t Ht. apply String.eqb_neq. intros Heq. apply H. rewrite Heq. exact Ht. }
  assert (Hv : forall path errs, validate schema data path errs = errs).
  { intros path errs.
    destruct schema as [type properties items required enum description addl].
    simpl in *.
    rewrite !Hne by (apply list_elem_of_In; simpl; tauto).
    reflexivity. }
  split; [exact Hv|].
  unfold validateAgainstSchema. rewrite Hv. reflexivity.
Qed.

Lemma unsupported_type_accepts_every_value_witness :
  (s_type integer_schema ∉ supported_types)
  /\ validateAgainstSchema (VNum 7) integer_schema
     = {| valid := true; errors := [] |}.
Proof.
  assert (H : s_type integer_schema ∉ supported_types).
  { intros H. apply includes_elem_of in H. discriminate H. }
  split; [exact H|].
  exact (proj2 (unsupported_type_accepts_every_value integer_schema (VNum 7) H)).
Defined.

Lemma fold_left_push {A : Type} (c : A -> bool) (g : A -> string)
  (l : list A) (acc : list string) :
  fold_left (fun acc x => if c x then acc ++ [g x] else acc) l acc
  = acc ++ map g (List.filter c l).
Proof.
  revert acc. induction l as [|x l IH]; intros acc; simpl.
  - rewrite app_nil_r. reflexivity.
  - rewrite IH. destruct (c x); simpl; [|reflexivity].
    rewrite <- app_assoc. reflexivity.
Qed.

Lemma append_nonempty (a b : string) : b <> "" -> a +:+ b <> "".
Proof. intros Hb. destruct a; simpl; [exact Hb | discriminate]. Qed.

Ltac nonempty :=
  repeat first [ discriminate | apply append_nonempty ].

Lemma last_char_app (a b : string) :
  b <> "" -> last_char (a +:+ b) = last_char b.
Proof.
  intros Hb. induction a as [|c a IH]; simpl; [reflexivity|].
  rewrite IH. destruct (a +:+ b) eqn:E; [|reflexivity].
  destruct a; simpl in E; [contradiction | discriminate].
Qed.

Lemma last_char_unexpected_property (path key : string) :
  last_char (unexpected_property path key) = Some "y"%char.
Proof.
  unfold unexpected_property.
  rewrite !last_char_app by nonempty. reflexivity.
Qed.

Lemma last_char_required_missing (path key : string) :
  last_char (required_missing path key) = Some "g"%char.
Proof.
  unfold required_missing.
  rewrite !last_char_app by nonempty. reflexivity.
Qed.

Lemma last_char_type_error (path expected : string) (value : Value) :
  last_char (path +:+ expected +:+ typeof value) <> Some "y"%char.
Proof.
  rewrite !last_char_app by (nonempty; destruct value; discriminate).
  destruct value; discriminate.
Qed.

(** What [validate] pushes at an [object] node that has no [properties]
    map: only the type error or the missing required fields, whatever
    [additionalProperties] says. *)
Lemma validate_object_without_properties (s : JSONSchema) (value : Value)
  (path : string) (errs : list string) :
  s_type s = "object" -> s_properties s = None ->
  validate s value path errs =
  if is_object value
  then errs ++ map (required_missing path)
                   (List.filter (fun key => negb (js_in key value))
                                (default [] (s_required s)))
  else errs ++ [path +:+ ": expected object, got " +:+ typeof value].
Proof.
  destruct s as [type properties items required enum description addl].
  simpl. intros -> ->. simpl.
  destruct (is_object value) eqn:Hobj.
  - rewrite (object_test_passes _ Hobj).
    assert (Hr : match required with
                 | Some required =>
                     fold_left
                       (fun errors key =>
                          if negb (js_in key value)
                          then errors ++ [path +:+ "." +:+ key +:+ ": required field missing"]
                          else errors) required errs
                 | None => errs
                 end
                 = errs ++ map (required_missing path)
                     (List.filter (fun key => negb (js_in key value))
                                  (default [] required))).
    { destruct required as [req|]; simpl.
      - apply (fold_left_push (fun key => negb (js_in key value))
                 (required_missing path)).
      - rewrite app_nil_r. reflexivity. }
    destruct addl as [[|]|]; exact Hr.
  - destruct value; try discriminate; reflexivity.
Qed.

(** C10 — At a schema node with [additionalProperties === false] and no
    [properties] map, [validateAgainstSchema] reports no [unexpected
    property] error: for an object its errors are exactly the missing
    required fields, whatever keys the object has. *)
Theorem no_properties_map_accepts_every_key (schema : JSONSchema) (data : Value) :
  s_type schema = "object" ->
  s_properties schema = None ->
  s_additionalProperties schema = Some false ->
  (forall e path key,
     e ∈ errors (validateAgainstSchema data schema) ->
     e <> unexpected_property path key)
  /\ (is_object data = true ->
      errors (validateAgainstSchema data schema)
      = map (required_missing "$")
          (List.filter (fun key => negb (js_in key data))
                       (default [] (s_required schema)))).
Proof.
  intros Htype Hprops _. unfold validateAgainstSchema. simpl.
  rewrite (validate_object_without_properties _ _ _ _ Htype Hprops).
  split.
  - intros e path key He Heq.
    pose proof (last_char_unexpected_property path key) as Hy.
    rewrite <- Heq in Hy. clear Heq.
    destruct (is_object data); simpl in He.
    + apply list_elem_of_fmap in He as (k & -> & _).
      rewrite last_char_required_missing in Hy. discriminate.
    + apply list_elem_of_singleton in He. subst e.
      exact (last_char_type_error _ _ _ Hy).
  - intros ->. reflexivity.
Qed.

Lemma no_properties_map_accepts_every_key_witness :
  s_type closed_object_schema = "object"
  /\ s_properties closed_object_schema = None
  /\ s_additionalProperties closed_object_schema = Some false
  /\ errors (validateAgainstSchema sample_extra_keys closed_object_schema) = [].
Proof.
  repeat (split; [reflexivity|]).
  pose proof (no_properties_map_accepts_every_key closed_object_schema
                sample_extra_keys eq_refl eq_refl eq_refl) as [_ H].
  rewrite (H eq_refl). reflexivity.
Defined.

(** * Properties of the tool registry and the permission validator *)

Lemma every_includes_subseteq (required granted : list Permission) :
  forallb (fun p => includes granted p) required = true <-> required ⊆ granted.
Proof.
  rewrite forallb_forall. split.
  - intros H p Hp. apply includes_elem_of, H, list_elem_of_In, Hp.
  - intros H p Hp. apply includes_elem_of, H, list_elem_of_In, Hp.
Qed.

Lemma List_filter_sublist {A : Type} (f : A -> bool) (l : list A) :
  sublist (List.filter f l) l.
Proof.
  induction l as [|x l IH]; simpl; [constructor|].
  destruct (f x); constructor; exact IH.
Qed.

(** C5 — [getPermittedTools] returns exactly the registry entries whose
    name is allowed and whose required permissions are all granted, in
    registry order. *)
Theorem getPermittedTools_exact (allowedNames : list string)
  (grantedPermissions : list Permission) :
  (forall tool,
     tool ∈ getPermittedTools allowedNames grantedPermissions
     <-> tool ∈ TOOL_REGISTRY
         /\ tool_name tool ∈ allowedNames
         /\ tool_requiredPermissions tool ⊆ grantedPermissions)
  /\ sublist (getPermittedTools allowedNames grantedPermissions) TOOL_REGISTRY.
Proof.
  split; [|apply List_filter_sublist].
  intros tool. unfold getPermittedTools.
  rewrite !list_elem_of_In, filter_In, andb_true_iff.
  rewrite includes_elem_of, every_includes_subseteq.
  rewrite <- !list_elem_of_In. reflexivity.
Qed.

Lemma find_registry_none (toolName : string) (registry : list ToolDefinition) :
  List.find (fun t => String.eqb (tool_name t) toolName) registry = None
  <-> forall tool, tool ∈ registry -> tool_name tool <> toolName.
Proof.
  split.
  - intros H tool Hin Heq. apply list_elem_of_In in Hin.
    pose proof (find_none _ _ H tool Hin) as Hf. simpl in Hf.
    apply String.eqb_neq in Hf. contradiction.
  - intros H. destruct (List.find _ registry) as [t|] eqn:Hf; [|reflexivity].
    apply find_some in Hf as [Hin Heq]. apply String.eqb_eq in Heq.
    apply list_elem_of_In in Hin. destruct (H t Hin Heq).
Qed.

Lemma find_registry_some (toolName : string) (registry : list ToolDefinition)
  (tool : ToolDefinition) :
  List.find (fun t => String.eqb (tool_name t) toolName) registry = Some tool ->
  tool ∈ registry /\ tool_name tool = toolName.
Proof.
  intros Hf. apply find_some in Hf as [Hin Heq].
  split; [apply list_elem_of_In, Hin | apply String.eqb_eq, Heq].
Qed.

Lemma missing_filter (required granted : list Permission) :
  List.filter (fun p => negb (includes granted p)) required
  = filter (fun p => p ∉ granted) required.
Proof.
  induction required as [|p required IH]; [reflexivity|].
  simpl. rewrite filter_cons, IH.
  destruct (includes granted p) eqn:Hp; simpl.
  - apply includes_elem_of in Hp. rewrite decide_False by tauto. reflexivity.
  - rewrite decide_True; [reflexivity|].
    intros Hin. apply includes_elem_of in Hin. congruence.
Qed.

Lemma filter_nil_subseteq (required granted : list Permission) :
  filter (fun p => p ∉ granted) required = [] -> required ⊆ granted.
Proof.
  intros H p Hp. destruct (decide (p ∈ granted)) as [Hg|Hg]; [exact Hg|].
  assert (Hin : p ∈ filter (fun p => p ∉ granted) required)
    by (apply list_elem_of_filter; split; assumption).
  rewrite H in Hin. inversion Hin.
Qed.

Lemma subseteq_filter_nil (required granted : list Permission) :
  required ⊆ granted -> filter (fun p => p ∉ granted) required = [].
Proof.
  intros Hsub.
  destruct (filter (fun p => p ∉ granted) required) as [|p l] eqn:E;
    [reflexivity|].
  assert (Hp : p ∈ filter (fun p => p ∉ granted) required)
    by (rewrite E; left).
  apply list_elem_of_filter in Hp as [Hng Hreq].
  destruct (Hng (Hsub p Hreq)).
Qed.

(** C3 — [validateToolAccess] decides in the fixed order, first match wins:
    not allow-listed; else not in the registry; else missing permissions,
    listing exactly the required permissions that are not granted; else
    permitted ([null]). *)
Theorem validateToolAccess_decision_order (toolName : string)
  (allowedNames : list string) (grantedPermissions : list Permission) :
  exists decision,
    AccessDecision toolName allowedNames grantedPermissions decision
    /\ validateToolAccess toolName allowedNames grantedPermissions
       = option_map blockMessage decision.
Proof.
  unfold validateToolAccess.
  destruct (includes allowedNames toolName) eqn:Hallowed; cbn [negb].
  2: { exists (Some (NotAllowlisted toolName)). split; [|reflexivity].
       constructor. intros Hin. apply includes_elem_of in Hin. congruence. }
  apply includes_elem_of in Hallowed.
  destruct (List.find (fun t => String.eqb (tool_name t) toolName) TOOL_REGISTRY)
    as [tool|] eqn:Hfind.
  2: { exists (Some (NotInRegistry toolName)). split; [|reflexivity].
       apply decide_not_in_registry; [exact Hallowed|].
       apply find_registry_none, Hfind. }
  apply find_registry_some in Hfind as [Hin Hname].
  rewrite missing_filter.
  destruct (filter (fun p => p ∉ grantedPermissions)
              (tool_requiredPermissions tool)) as [|p missing] eqn:Hmissing.
  - exists None. split; [|reflexivity].
    apply (decide_permitted _ _ _ tool); try assumption.
    apply filter_nil_subseteq, Hmissing.
  - exists (Some (MissingPermissions
                    (filter (fun p => p ∉ grantedPermissions)
                       (tool_requiredPermissions tool)))).
    split.
    + apply (decide_missing_permissions _ _ _ tool); try assumption.
      rewrite Hmissing. discriminate.
    + rewrite Hmissing. reflexivity.
Qed.

(** An agent granted [read:tasks] only proposes [updateTask], which is on
    its allow-list: the call is blocked for the missing permission. *)
Example missing_write_permission :
  validateToolAccess "updateTask" ["readTask"; "updateTask"] ["read:tasks"]
  = Some "BLOCKED: Agent lacks permissions: [write:tasks]. This call has been rejected.".
Proof. reflexivity. Qed.

(** The names of the registry are pairwise distinct, so a tool name has at
    most one entry. *)
Lemma registry_names_unique (tool tool' : ToolDefinition) :
  tool ∈ TOOL_REGISTRY -> tool' ∈ TOOL_REGISTRY ->
  tool_name tool = tool_name tool' -> tool = tool'.
Proof.
  intros H H' Hname.
  apply list_elem_of_In in H. apply list_elem_of_In in H'.
  unfold TOOL_REGISTRY in H, H'. simpl in H, H'.
  repeat (destruct H as [<-|H]; [| ]);
    try contradiction;
    repeat (destruct H' as [<-|H']; [| ]);
    try contradiction;
    first [ reflexivity | discriminate Hname ].
Qed.

(** The decision order leaves no choice: the outcome is a function of the
    three arguments. *)
Lemma AccessDecision_deterministic (toolName : string)
  (allowedNames : list string) (grantedPermissions : list Permission)
  (d d' : option BlockReason) :
  AccessDecision toolName allowedNames grantedPermissions d ->
  AccessDecision toolName allowedNames grantedPermissions d' ->
  d = d'.
Proof.
  intros H H'.
  destruct H as [Hn | Ha Hr | tool Ha Hin Hname missing Hm | tool Ha Hin Hname Hsub];
    destruct H' as [Hn' | Ha' Hr' | tool' Ha' Hin' Hname' missing' Hm'
                   | tool' Ha' Hin' Hname' Hsub'];
    try reflexivity; try contradiction;
    try (exfalso; eapply Hr; eassumption);
    try (exfalso; eapply Hr'; eassumption).
  - assert (tool = tool') by (apply registry_names_unique; congruence).
    subst tool'. reflexivity.
  - assert (tool = tool') by (apply registry_names_unique; congruence).
    subst tool'. exfalso. apply Hm. apply subseteq_filter_nil, Hsub'.
  - assert (tool = tool') by (apply registry_names_unique; congruence).
    subst tool'. exfalso. apply Hm'. apply subseteq_filter_nil, Hsub.
Qed.

(** C4, as stated, fails: [deleteDatabase] has no registry entry, yet for
    the read-only agent's allow-list the call is blocked as not
    allow-listed, not as absent from the registry. *)
Lemma unregistered_tool_blocked_as_not_allowlisted :
  (forall tool, tool ∈ TOOL_REGISTRY -> tool_name tool <> "deleteDatabase")
  /\ validateToolAccess "deleteDatabase" ["readTask"; "listTasks"] ["read:tasks"]
     = Some (blockMessage (NotAllowlisted "deleteDatabase"))
  /\ validateToolAccess "deleteDatabase" ["readTask"; "listTasks"] ["read:tasks"]
     <> Some (blockMessage (NotInRegistry "deleteDatabase")).
Proof.
  split; [|split].
  - apply find_registry_none. reflexivity.
  - reflexivity.
  - vm_compute. discriminate.
Qed.

(** C4, amended — for a tool name with no registry entry,
    [validateToolAccess] returns a block reason whatever the granted
    permissions are: not-in-registry when the name is on the allow-list,
    not-allow-listed when it is not. *)
Theorem unregistered_tool_blocked (toolName : string)
  (allowedNames : list string) (grantedPermissions : list Permission) :
  (forall tool, tool ∈ TOOL_REGISTRY -> tool_name tool <> toolName) ->
  validateToolAccess toolName allowedNames grantedPermissions
  = Some (blockMessage (if decide (toolName ∈ allowedNames)
                        then NotInRegistry toolName
                        else NotAllowlisted toolName)).
Proof.
  intros Hnone. apply find_registry_none in Hnone.
  unfold validateToolAccess. rewrite Hnone.
  destruct (includes allowedNames toolName) eqn:Hallowed; cbn [negb].
  - apply includes_elem_of in Hallowed. rewrite decide_True by assumption.
    reflexivity.
  - rewrite decide_False; [reflexivity|].
    intros Hin. apply includes_elem_of in Hin. congruence.
Qed.

Lemma unregistered_tool_blocked_witness :
  (forall tool, tool ∈ TOOL_REGISTRY -> tool_name tool <> "dropDatabase")
  /\ validateToolAccess "dropDatabase" ["dropDatabase"] []
     = Some (blockMessage (NotInRegistry "dropDatabase")).
Proof.
  assert (H : forall tool, tool ∈ TOOL_REGISTRY -> tool_name tool <> "dropDatabase")
    by (apply find_registry_none; reflexivity).
  split; [exact H|].
  exact (unregistered_tool_blocked "dropDatabase" ["dropDatabase"] [] H).
Defined.

(** * Properties of the two-phase orchestration *)

Lemma heap_set_same (h : loc -> ToolCall) (call : loc) (c : ToolCall) :
  heap_set h call c call = c.
Proof. unfold heap_set. rewrite Nat.eqb_refl. reflexivity. Qed.

Lemma heap_set_other (h : loc -> ToolCall) (call l : loc) (c : ToolCall) :
  l <> call -> heap_set h call c l = h l.
Proof.
  intros Hne. unfold heap_set.
  destruct (Nat.eqb_spec l call); [contradiction | reflexivity].
Qed.

(** Every block message is a non-empty string, so a block reason is truthy
    exactly when it is not [null]. *)
Lemma validateToolAccess_truthy (toolName : string) (allowed : list string)
  (granted : list Permission) (reason : string) :
  validateToolAccess toolName allowed granted = Some reason ->
  String.eqb reason "" = false.
Proof.
  unfold validateToolAccess.
  destruct (negb (includes allowed toolName)); [intros [= <-]; reflexivity|].
  destruct (List.find _ TOOL_REGISTRY); [|intros [= <-]; reflexivity].
  destruct (Nat.ltb 0 _); [intros [= <-]; reflexivity | discriminate].
Qed.

Lemma passes_iff (config : AgentConfig) (toolName : string) :
  passes config toolName = true
  <-> validateToolAccess toolName (cfg_allowedTools config)
        (cfg_permissions config) = None.
Proof.
  unfold passes.
  destruct (validateToolAccess _ _ _) as [reason|] eqn:E; [|tauto].
  rewrite (validateToolAccess_truthy _ _ _ _ E). split; discriminate.
Qed.

Lemma for_of_classifies (config : AgentConfig) body (calls : list loc) :
  classifies config body ->
  forall blockedCalls approvedCalls logs w,
  exists w' logs',
    for_of body calls (blockedCalls, approvedCalls, logs) w
    = (w', Return
             (blockedCalls ++
                List.filter
                  (fun l => negb (passes config (call_toolName (heap w l)))) calls,
              approvedCalls ++
                List.filter
                  (fun l => passes config (call_toolName (heap w l))) calls,
              logs ++ logs'))
    /\ logIdCounter w' = logIdCounter w + length calls
    /\ (forall l,
          heap w' l = if bool_decide (l ∈ calls)
                      then with_status (heap w l) (verdict config (heap w l))
                      else heap w l)
    /\ Forall (fun e => log_type e = LToolCall \/ log_type e = LBlocked) logs'.
Proof.
  intros Hbody. induction calls as [|call calls IH];
    intros blockedCalls approvedCalls logs w.
  - exists w, []. simpl. rewrite !app_nil_r.
    repeat split; [lia | constructor].
  - destruct (Hbody blockedCalls approvedCalls logs call w)
      as (e & w1 & Hstep & Htype & Hcount & Hheap).
    assert (Hname : forall l, call_toolName (heap w1 l) = call_toolName (heap w l)).
    { intros l. rewrite Hheap. unfold heap_set.
      destruct (Nat.eqb_spec l call) as [->|]; reflexivity. }
    simpl. unfold bind at 1. rewrite Hstep.
    destruct (passes config (call_toolName (heap w call))) eqn:Hpass; simpl.
    + destruct (IH blockedCalls (approvedCalls ++ [call]) (logs ++ [e]) w1)
        as (w' & logs' & Hrun & Hcount' & Hheap' & Hlogs).
      exists w', (e :: logs'). rewrite Hrun.
      rewrite (filter_ext _ _ (fun l => f_equal (fun n => negb (passes config n)) (Hname l))).
      rewrite (filter_ext _ _ (fun l => f_equal (passes config) (Hname l))).
      rewrite <- !app_assoc. simpl. repeat split.
      * lia.
      * intros l. rewrite Hheap', !Hheap. unfold heap_set, verdict.
        destruct (Nat.eqb_spec l call) as [->|Hne].
        -- rewrite (bool_decide_eq_true_2 (call ∈ call :: calls)) by left.
           simpl. rewrite Hpass. destruct (bool_decide _); reflexivity.
        -- apply (f_equal (fun b : bool => if b then _ else _)).
           apply bool_decide_ext. rewrite elem_of_cons. tauto.
      * constructor; [left; rewrite Htype; reflexivity | exact Hlogs].
    + destruct (IH (blockedCalls ++ [call]) approvedCalls (logs ++ [e]) w1)
        as (w' & logs' & Hrun & Hcount' & Hheap' & Hlogs).
      exists w', (e :: logs'). rewrite Hrun.
      rewrite (filter_ext _ _ (fun l => f_equal (fun n => negb (passes config n)) (Hname l))).
      rewrite (filter_ext _ _ (fun l => f_equal (passes config) (Hname l))).
      rewrite <- !app_assoc. simpl. repeat split.
      * lia.
      * intros l. rewrite Hheap', !Hheap. unfold heap_set, verdict.
        destruct (Nat.eqb_spec l call) as [->|Hne].
        -- rewrite (bool_decide_eq_true_2 (call ∈ call :: calls)) by left.
           simpl. rewrite Hpass. destruct (bool_decide _); reflexivity.
        -- apply (f_equal (fun b : bool => if b then _ else _)).
           apply bool_decide_ext. rewrite elem_of_cons. tauto.
      * constructor; [right; rewrite Htype; reflexivity | exact Hlogs].
Qed.

Lemma for_of_executes body (calls : list loc) :
  executes body ->
  forall logs w,
  exists w' logs',
    for_of body calls logs w = (w', Return (logs ++ logs'))
    /\ logIdCounter w' = logIdCounter w + length calls
    /\ (forall l,
          heap w' l = if bool_decide (l ∈ calls)
                      then executed_call (heap w l)
                      else heap w l)
    /\ Forall (fun e => log_type e = LExecution) logs'.
Proof.
  intros Hbody. induction calls as [|call calls IH]; intros logs w.
  - exists w, []. simpl. rewrite app_nil_r.
    repeat split; [lia | constructor].
  - destruct (Hbody logs call w) as (e & w1 & Hstep & Htype & Hcount & Hheap).
    destruct (IH (logs ++ [e]) w1) as (w' & logs' & Hrun & Hcount' & Hheap' & Hlogs).
    exists w', (e :: logs'). simpl. unfold bind at 1. rewrite Hstep, Hrun.
    rewrite <- app_assoc. simpl. repeat split.
    + lia.
    + intros l. rewrite Hheap', !Hheap. unfold heap_set.
      destruct (Nat.eqb_spec l call) as [->|Hne].
      * rewrite (bool_decide_eq_true_2 (call ∈ call :: calls)) by left.
        destruct (bool_decide _); reflexivity.
      * apply (f_equal (fun b : bool => if b then _ else _)).
        apply bool_decide_ext. rewrite elem_of_cons. tauto.
    + constructor; assumption.
Qed.

Lemma count_type_app (t : LogType) (logs logs' : list LogEntry) :
  count_type t (logs ++ logs') = count_type t logs + count_type t logs'.
Proof. unfold count_type. rewrite List.filter_app, length_app. reflexivity. Qed.

Lemma count_type_none (t : LogType) (logs : list LogEntry) :
  Forall (fun e => is_log_type t e = false) logs -> count_type t logs = 0.
Proof.
  unfold count_type. induction 1 as [|e logs He _ IH]; simpl; [reflexivity|].
  rewrite He. exact IH.
Qed.

Lemma bind_return {A B : Type} (m : M A) (k : A -> M B) (w w' : World) (a : A) :
  m w = (w', Return a) -> bind m k w = k a w'.
Proof. intros H. unfold bind. rewrite H. reflexivity. Qed.

Lemma bind_throw {A B : Type} (m : M A) (k : A -> M B) (w w' : World)
  (message : string) :
  m w = (w', Throw message) -> bind m k w = (w', Throw message).
Proof. intros H. unfold bind. rewrite H. reflexivity. Qed.

(** Counting the entries of a type in a log made of explicit entries and a
    segment [Hlogs] describes. *)
Ltac count_logs Hlogs :=
  rewrite ?count_type_app;
  match type of Hlogs with
  | Forall _ ?logs1 =>
      match goal with
      | |- context [count_type ?t logs1] =>
          rewrite (count_type_none t logs1);
          [ reflexivity
          | eapply Forall_impl; [exact Hlogs|];
            let e := fresh "e" in
            let He := fresh "He" in
            intros e He; unfold is_log_type;
            first [ rewrite He; reflexivity
                  | destruct He as [He|He]; rewrite He; reflexivity ] ]
      end
  end.

Section RuntimeProperties.

Variable agentConfigs : list AgentConfig.
Variable outputSchemas : list (string * JSONSchema).
Variable clock : nat -> Z.
Variable generateStructuredOutput :
  LLMProvider -> GenerateOptions -> (loc -> ToolCall) ->
  (loc -> ToolCall) * Outcome StructuredResult.
Variable interleaved : World -> nat.



(** The classification loop of [runDiscussion] classifies. *)
Lemma runDiscussion_loop_classifies (config : AgentConfig) (modelId : ModelId) :
  classifies config
    (fun '(blockedCalls, approvedCalls, logs) call =>
       bind (readCall call) (fun c =>
       let blockReason :=
         validateToolAccess (call_toolName c)
           (cfg_allowedTools config) (cfg_permissions config) in
       let approve :=
         bind (setStatus call approved) (fun _ =>
         bind (createLog clock PDiscussion modelId (cfg_name config) LToolCall
                 ("Tool call approved: " +:+ call_toolName c) (DCall call))
              (fun e => ret (blockedCalls, approvedCalls ++ [call], logs ++ [e]))) in
       match blockReason with
       | Some reason =>
           if String.eqb reason "" then approve
           else
             bind (setStatus call rejected) (fun _ =>
             bind (createLog clock PDiscussion modelId (cfg_name config) LBlocked
                     reason (DCall call))
                  (fun e => ret (blockedCalls ++ [call], approvedCalls, logs ++ [e])))
       | None => approve
       end)).
Proof.
  intros blockedCalls approvedCalls logs call w.
  unfold verdict, passes, bind, readCall, setStatus, createLog, ret. simpl.
  destruct (validateToolAccess _ _ _) as [reason|] eqn:E.
  - rewrite (validateToolAccess_truthy _ _ _ _ E).
    eexists _, _. repeat split.
  - eexists _, _. repeat split.
Qed.

(** The execution loop of [runExecution] executes. *)
Lemma runExecution_loop_executes (config : AgentConfig) (modelId : ModelId) :
  executes
    (fun logs call =>
       bind (setStatus call executed) (fun _ =>
       bind (readCall call) (fun c =>
       bind (setResult call
               (VObj [ ("success", VBool true);
                       ("message",
                        VStr ("Executed " +:+ call_toolName c +:+ " successfully")) ]))
            (fun _ =>
       bind (createLog clock PExecution modelId (cfg_name config) LExecution
               ("Executed: " +:+ call_toolName c) (DCall call))
            (fun e => ret (logs ++ [e])))))).
Proof.
  intros logs call w.
  unfold bind, readCall, setStatus, setResult, createLog, ret. simpl.
  eexists _, _. repeat split.
  intros l. simpl. unfold heap_set, executed_call.
  destruct (Nat.eqb_spec l call) as [->|Hne]; [|reflexivity].
  rewrite Nat.eqb_refl. reflexivity.
Qed.


Lemma runExecution_unknown_agent discussionResult request w :
  findAgent agentConfigs request = None ->
  runExecution agentConfigs outputSchemas clock
    discussionResult request w
  = (w, Throw ("Unknown agent: " +:+ req_agent request)).
Proof.
  unfold findAgent, runExecution. intros ->. reflexivity.
Qed.

(** What [runExecution] does for a known agent. *)
Lemma runExecution_known_agent discussionResult request w config :
  findAgent agentConfigs request = Some config ->
  let passed :=
    schemaVerdict outputSchemas config (res_data (run_result discussionResult)) in
  exists w' logs',
    runExecution agentConfigs outputSchemas clock
      discussionResult request w
    = (w', Return
             {| run_phase := PExecution;
                run_result := run_result discussionResult;
                run_logs := if passed then run_logs discussionResult ++ logs'
                            else logs';
                run_validationPassed := passed;
                run_blockedCalls := run_blockedCalls discussionResult;
                run_approvedCalls := run_approvedCalls discussionResult |})
    /\ (forall l,
          heap w' l
          = if passed && bool_decide (l ∈ run_approvedCalls discussionResult)
            then executed_call (heap w l)
            else heap w l)
    /\ (passed = false -> heap w' = heap w)
    /\ count_type LError logs' = (if passed then 0 else 1)
    /\ count_type LValidation logs'
       = match table_get outputSchemas (cfg_outputSchema config) with
         | Some _ => 1
         | None => 0
         end.
Proof.
  unfold findAgent, runExecution, schemaVerdict. intros ->. simpl.
  erewrite bind_return by reflexivity.
  destruct (table_get outputSchemas (cfg_outputSchema config)) as [schema|].
  - erewrite bind_return by (erewrite bind_return by reflexivity; reflexivity).
    cbv beta iota zeta.
    destruct (valid (validateAgainstLooked _ schema)); cbn [negb].
    + match goal with
      | |- context [for_of ?body ?calls ?logs] =>
          destruct (for_of_executes body calls
                      (runExecution_loop_executes config
                         (effectiveModel request config)) logs
                      (mkWorld (S (S (logIdCounter w))) (heap w)))
            as (w1 & logs1 & Hrun & Hcount & Hheap & Hlogs)
      end.
      erewrite bind_return by exact Hrun.
      erewrite bind_return by reflexivity.
      eexists _, _. split; [reflexivity|]. repeat split.
      * exact Hheap.
      * discriminate.
      * count_logs Hlogs.
      * count_logs Hlogs.
    + erewrite bind_return by reflexivity.
      eexists _, _. split; [reflexivity|]. repeat split.
  - erewrite bind_return by reflexivity. cbv beta iota zeta. cbn [negb].
    match goal with
    | |- context [for_of ?body ?calls ?logs] =>
        destruct (for_of_executes body calls
                    (runExecution_loop_executes config
                       (effectiveModel request config)) logs
                    (mkWorld (S (logIdCounter w)) (heap w)))
          as (w1 & logs1 & Hrun & Hcount & Hheap & Hlogs)
    end.
    erewrite bind_return by exact Hrun.
    erewrite bind_return by reflexivity.
    eexists _, _. split; [reflexivity|]. repeat split.
    + exact Hheap.
    + discriminate.
    + count_logs Hlogs.
    + count_logs Hlogs.
Qed.

Lemma runDiscussion_unknown_agent request w :
  findAgent agentConfigs request = None ->
  runDiscussion agentConfigs outputSchemas clock generateStructuredOutput interleaved
    request w = (w, Throw ("Unknown agent: " +:+ req_agent request)).
Proof.
  unfold findAgent, runDiscussion. intros ->. reflexivity.
Qed.

Lemma runDiscussion_unknown_model request w config :
  findAgent agentConfigs request = Some config ->
  table_get providers (effectiveModel request config) = None ->
  runDiscussion agentConfigs outputSchemas clock generateStructuredOutput interleaved
    request w
  = (w, Throw ("Unknown model: " +:+ effectiveModel request config +:+
               ". Supported: " +:+ String.concat ", " (map fst providers))).
Proof.
  unfold findAgent, runDiscussion. intros -> Hp. cbv zeta.
  erewrite bind_throw; [reflexivity|].
  unfold getProvider. rewrite Hp. reflexivity.
Qed.

(** A model id that names a property every object inherits (such as
    [constructor]) passes the test of [getProvider]; the run then fails
    when it calls the method the inherited value lacks, two log ids later,
    with the store untouched. *)
Lemma runDiscussion_inherited_model request w config :
  findAgent agentConfigs request = Some config ->
  table_get providers (effectiveModel request config) = Some Inherited ->
  runDiscussion agentConfigs outputSchemas clock generateStructuredOutput interleaved
    request w
  = (mkWorld (S (S (logIdCounter w))) (heap w),
     Throw "TypeError: provider.generateStructuredOutput is not a function").
Proof.
  unfold findAgent, runDiscussion. intros -> Hp. cbv zeta.
  erewrite bind_return by (unfold getProvider; rewrite Hp; reflexivity).
  erewrite bind_return by reflexivity.
  erewrite bind_return by reflexivity.
  erewrite bind_throw by reflexivity.
  reflexivity.
Qed.

Lemma runDiscussion_provider_fails request w config p h0 message :
  findAgent agentConfigs request = Some config ->
  table_get providers (effectiveModel request config) = Some (Own p) ->
  generateStructuredOutput p (discussionOptions outputSchemas config request) (heap w)
  = (h0, Throw message) ->
  exists w',
    runDiscussion agentConfigs outputSchemas clock generateStructuredOutput interleaved
      request w = (w', Throw message).
Proof.
  unfold findAgent, runDiscussion. intros -> Hp Hgen. cbv zeta.
  erewrite bind_return by (unfold getProvider; rewrite Hp; reflexivity).
  erewrite bind_return by reflexivity.
  erewrite bind_return by reflexivity.
  erewrite bind_throw.
  - eexists. reflexivity.
  - unfold callProvider. cbn [heap]. unfold discussionOptions in Hgen.
    rewrite Hgen. reflexivity.
Qed.

(** What [runDiscussion] returns once the agent and the provider are
    resolved and the provider has answered [result], leaving the store
    [h0]. *)
Lemma runDiscussion_returns request w config p h0 result :
  findAgent agentConfigs request = Some config ->
  table_get providers (effectiveModel request config) = Some (Own p) ->
  generateStructuredOutput p (discussionOptions outputSchemas config request) (heap w)
  = (h0, Return result) ->
  exists w1 logs,
    runDiscussion agentConfigs outputSchemas clock generateStructuredOutput interleaved
      request w
    = (w1, Return
             {| run_phase := PDiscussion;
                run_result := result;
                run_logs := logs;
                run_validationPassed :=
                  schemaVerdict outputSchemas config (res_data result);
                run_blockedCalls :=
                  List.filter
                    (fun l => negb (passes config (call_toolName (h0 l))))
                    (res_toolCalls result);
                run_approvedCalls :=
                  List.filter
                    (fun l => passes config (call_toolName (h0 l)))
                    (res_toolCalls result) |})
    /\ (forall l,
          heap w1 l = if bool_decide (l ∈ res_toolCalls result)
                      then with_status (h0 l) (verdict config (h0 l))
                      else h0 l)
    /\ count_type LValidation logs
       = match table_get outputSchemas (cfg_outputSchema config) with
         | Some _ => 1
         | None => 0
         end
    /\ count_type LError logs = 0
    /\ count_type LExecution logs = 0.
Proof.
  unfold findAgent, runDiscussion, schemaVerdict.
  intros -> Hp Hgen. cbv zeta.
  erewrite bind_return by (unfold getProvider; rewrite Hp; reflexivity).
  erewrite bind_return by reflexivity.
  erewrite bind_return by reflexivity.
  erewrite bind_return
    by (unfold callProvider; cbn [heap]; unfold discussionOptions in Hgen;
        rewrite Hgen; reflexivity).
  match goal with
  | |- context [bind (for_of ?body ?calls (?b, ?a, ?logs)) _ ?w0] =>
      destruct (for_of_classifies config body calls
                  (runDiscussion_loop_classifies config
                     (effectiveModel request config)) b a logs w0)
        as (w1 & logs1 & Hrun & Hcount & Hheap & Hlogs)
  end.
  erewrite bind_return by exact Hrun. cbv beta iota.
  destruct (table_get outputSchemas (cfg_outputSchema config)) as [schema|].
  - erewrite bind_return by (erewrite bind_return by reflexivity; reflexivity).
    cbv beta iota zeta.
    erewrite bind_return by reflexivity.
    eexists _, _. split; [reflexivity|]. repeat split.
    + exact Hheap.
    + count_logs Hlogs.
    + count_logs Hlogs.
    + count_logs Hlogs.
  - erewrite bind_return by reflexivity. cbv beta iota zeta.
    erewrite bind_return by reflexivity.
    eexists _, _. split; [reflexivity|]. repeat split.
    + exact Hheap.
    + count_logs Hlogs.
    + count_logs Hlogs.
    + count_logs Hlogs.
Qed.

(** A discussion that returns went through an agent, a registered
    provider and an answer of that provider. *)
Lemma runDiscussion_inversion request w w1 discussionResult :
  runDiscussion agentConfigs outputSchemas clock generateStructuredOutput interleaved
    request w = (w1, Return discussionResult) ->
  exists config p h0,
    findAgent agentConfigs request = Some config
    /\ table_get providers (effectiveModel request config) = Some (Own p)
    /\ generateStructuredOutput p
         (discussionOptions outputSchemas config request) (heap w)
       = (h0, Return (run_result discussionResult))
    /\ run_approvedCalls discussionResult
       = List.filter (fun l => passes config (call_toolName (h0 l)))
           (res_toolCalls (run_result discussionResult))
    /\ run_blockedCalls discussionResult
       = List.filter (fun l => negb (passes config (call_toolName (h0 l))))
           (res_toolCalls (run_result discussionResult))
    /\ (forall l,
          heap w1 l
          = if bool_decide (l ∈ res_toolCalls (run_result discussionResult))
            then with_status (h0 l) (verdict config (h0 l))
            else h0 l).
Proof.
  intros Hrun.
  destruct (findAgent agentConfigs request) as [config|] eqn:Hagent.
  2: { rewrite (runDiscussion_unknown_agent _ _ Hagent) in Hrun. discriminate. }
  destruct (table_get providers (effectiveModel request config))
    as [[p|]|] eqn:Hp.
  3: { rewrite (runDiscussion_unknown_model _ _ _ Hagent Hp) in Hrun.
       discriminate. }
  2: { rewrite (runDiscussion_inherited_model _ w _ Hagent Hp) in Hrun.
       discriminate. }
  destruct (generateStructuredOutput p
              (discussionOptions outputSchemas config request) (heap w))
    as [h0 [result|message]] eqn:Hgen.
  2: { destruct (runDiscussion_provider_fails _ _ _ _ _ _ Hagent Hp Hgen)
         as (w' & Hthrow).
       rewrite Hthrow in Hrun. discriminate. }
  destruct (runDiscussion_returns _ _ _ _ _ _ Hagent Hp Hgen)
    as (w1' & logs & Hret & Hheap & _).
  rewrite Hret in Hrun. injection Hrun as <- <-.
  exists config, p, h0. cbn [run_result run_approvedCalls run_blockedCalls].
  repeat split; assumption.
Qed.

Lemma elem_of_List_filter {A : Type} (f : A -> bool) (l : list A) (x : A) :
  x ∈ List.filter f l <-> x ∈ l /\ f x = true.
Proof. rewrite !list_elem_of_In. apply filter_In. Qed.

(** C2 — The status of a [ToolCall] follows the machine pending to approved
    or rejected, approved to executed.  Over a run, the provider proposing
    pending calls and leaving the store [h0]: [runDiscussion] changes
    nothing but the status of the proposed calls, moving each from
    [pending] to [approved] or [rejected] and into the list of that status;
    [runExecution] changes only calls of [approvedCalls], which were
    approved and become executed; a rejected call stays rejected. *)
Theorem tool_call_status_machine request request' w w1 w2
  discussionResult executionResult :
  (forall p options h h' result,
     generateStructuredOutput p options h = (h', Return result) ->
     forall call, call ∈ res_toolCalls result -> call_status (h' call) = pending) ->
  runDiscussion agentConfigs outputSchemas clock generateStructuredOutput interleaved
    request w = (w1, Return discussionResult) ->
  runExecution agentConfigs outputSchemas clock
    discussionResult request' w1 = (w2, Return executionResult) ->
  exists config p h0,
    generateStructuredOutput p
      (discussionOptions outputSchemas config request) (heap w)
    = (h0, Return (run_result discussionResult))
    /\ (forall call,
          call ∈ res_toolCalls (run_result discussionResult) ->
          heap w1 call = with_status (h0 call) (call_status (heap w1 call))
          /\ call_status (h0 call) = pending
          /\ transition (call_status (h0 call)) (call_status (heap w1 call))
          /\ (call_status (heap w1 call) = approved
              <-> call ∈ run_approvedCalls discussionResult)
          /\ (call_status (heap w1 call) = rejected
              <-> call ∈ run_blockedCalls discussionResult)
          /\ (call_status (heap w2 call) = call_status (heap w1 call)
              \/ transition (call_status (heap w1 call))
                            (call_status (heap w2 call)))
          /\ (call_status (heap w1 call) = rejected ->
              call_status (heap w2 call) = rejected))
    /\ (forall l,
          l ∉ res_toolCalls (run_result discussionResult) -> heap w1 l = h0 l)
    /\ (forall l,
          heap w2 l <> heap w1 l ->
          l ∈ run_approvedCalls discussionResult
          /\ call_status (heap w1 l) = approved
          /\ call_status (heap w2 l) = executed).
Proof.
  intros Hpending Hdiscussion Hexecution.
  destruct (runDiscussion_inversion _ _ _ _ Hdiscussion)
    as (config & p & h0 & _ & _ & Hgen & Happroved & Hblocked & Hheap1).
  destruct (findAgent agentConfigs request') as [config'|] eqn:Hagent'.
  2: { rewrite (runExecution_unknown_agent _ _ _ Hagent') in Hexecution.
       discriminate. }
  destruct (runExecution_known_agent discussionResult request' w1 config' Hagent')
    as (w2' & logs' & Hret & Hheap2 & _).
  rewrite Hret in Hexecution. injection Hexecution as <- _. clear Hret.
  set (passed := schemaVerdict outputSchemas config'
                   (res_data (run_result discussionResult))) in *.
  assert (Hstatus1 : forall call,
             call ∈ res_toolCalls (run_result discussionResult) ->
             call_status (heap w1 call)
             = if passes config (call_toolName (h0 call))
               then approved else rejected).
  { intros call Hcall. rewrite Hheap1, bool_decide_eq_true_2 by exact Hcall.
    reflexivity. }
  exists config, p, h0. split; [exact Hgen|]. split; [|split].
  - intros call Hcall.
    split.
    { rewrite (Hheap1 call), bool_decide_eq_true_2 by exact Hcall. reflexivity. }
    pose proof (Hpending _ _ _ _ _ Hgen call Hcall) as Hp0.
    pose proof (Hstatus1 call Hcall) as Hs1.
    rewrite Hp0, Happroved, Hblocked, !elem_of_List_filter.
    rewrite (Hheap2 call), Happroved.
    destruct (passes config (call_toolName (h0 call))) eqn:Hpass;
      rewrite Hs1.
    + split; [reflexivity|]. split; [constructor|].
      split; [tauto|]. split; [split; [discriminate | intros [_ [=]]]|].
      split; [|discriminate].
      destruct (passed && bool_decide _); [right; constructor | left; exact Hs1].
    + split; [reflexivity|]. split; [constructor|].
      split; [split; [discriminate | intros [_ [=]]]|]. split; [tauto|].
      assert (Hnot : bool_decide
                       (call ∈ List.filter
                          (fun l => passes config (call_toolName (h0 l)))
                          (res_toolCalls (run_result discussionResult)))
                     = false).
      { apply bool_decide_eq_false_2. rewrite elem_of_List_filter.
        intros [_ Hp']. congruence. }
      rewrite Hnot, andb_false_r. split; [left; exact Hs1 | intros _; exact Hs1].
  - intros l Hl. rewrite Hheap1, bool_decide_eq_false_2 by exact Hl. reflexivity.
  - intros l Hchanged. rewrite (Hheap2 l) in Hchanged |- *.
    destruct passed; cbn [andb] in *; [|contradiction].
    destruct (bool_decide_reflect (l ∈ run_approvedCalls discussionResult))
      as [Hin|Hin]; [|contradiction].
    split; [exact Hin|]. split; [|reflexivity].
    rewrite Happroved, elem_of_List_filter in Hin. destruct Hin as [Hin Hpass].
    rewrite (Hstatus1 l Hin), Hpass. reflexivity.
Qed.

(** C1 — If the Execution-phase re-validation of the discussion result's
    data against the agent's output schema fails, [runExecution] returns
    with [validationPassed = false], leaves every [ToolCall] as it was (an
    approved call stays approved and gets no result), and its logs hold
    exactly one entry of type [error]. *)
Theorem failed_revalidation_executes_nothing
  discussionResult request w config schema :
  findAgent agentConfigs request = Some config ->
  table_get outputSchemas (cfg_outputSchema config) = Some schema ->
  valid (validateAgainstLooked (res_data (run_result discussionResult)) schema)
  = false ->
  exists w' executionResult,
    runExecution agentConfigs outputSchemas clock
      discussionResult request w = (w', Return executionResult)
    /\ run_validationPassed executionResult = false
    /\ heap w' = heap w
    /\ run_approvedCalls executionResult = run_approvedCalls discussionResult
    /\ (forall call,
          call ∈ run_approvedCalls executionResult ->
          call_status (heap w call) = approved ->
          call_status (heap w' call) = approved
          /\ call_result (heap w' call) = call_result (heap w call))
    /\ count_type LError (run_logs executionResult) = 1.
Proof.
  intros Hagent Hschema Hinvalid.
  destruct (runExecution_known_agent discussionResult request w config Hagent)
    as (w' & logs' & Hrun & _ & Hheap & Herror & _).
  unfold schemaVerdict in *. rewrite Hschema, Hinvalid in *.
  specialize (Hheap eq_refl).
  eexists _, _. split; [exact Hrun|]. cbn [run_validationPassed run_approvedCalls run_logs].
  repeat split; try assumption.
  - rewrite Hheap. assumption.
  - rewrite Hheap. reflexivity.
Qed.



End RuntimeProperties.

(** * The properties on sample runs *)

Lemma failed_revalidation_executes_nothing_witness :
  findAgent AGENT_CONFIGS sample_request = Some task_agent
  /\ table_get OUTPUT_SCHEMAS (cfg_outputSchema task_agent)
     = Some (Own TaskUpdate_schema)
  /\ valid (validateAgainstLooked
              (res_data (run_result invalid_discussion_result))
              (Own TaskUpdate_schema)) = false
  /\ exists w' executionResult,
       runExecution AGENT_CONFIGS OUTPUT_SCHEMAS sample_clock
         invalid_discussion_result sample_request approved_world
       = (w', Return executionResult)
       /\ run_validationPassed executionResult = false
       /\ call_status (heap w' 0) = approved
       /\ call_result (heap w' 0) = None
       /\ count_type LError (run_logs executionResult) = 1.
Proof.
  split; [reflexivity|]. split; [reflexivity|]. split; [reflexivity|].
  destruct (failed_revalidation_executes_nothing AGENT_CONFIGS OUTPUT_SCHEMAS
              sample_clock invalid_discussion_result sample_request
              approved_world task_agent (Own TaskUpdate_schema)
              eq_refl eq_refl eq_refl)
    as (w' & executionResult & Hrun & Hpassed & Hheap & Happroved & _ & Herror).
  exists w', executionResult. rewrite Hheap.
  repeat split; assumption || reflexivity.
Defined.

Lemma sample_generate_pending (p : LLMProvider) (options : GenerateOptions)
  (h h' : loc -> ToolCall) (result : StructuredResult) :
  sample_generate p options h = (h', Return result) ->
  forall call, call ∈ res_toolCalls result -> call_status (h' call) = pending.
Proof.
  unfold sample_generate. intros [= <- <-] call Hcall.
  apply list_elem_of_In in Hcall. simpl in Hcall.
  destruct Hcall as [<-|[<-|[]]]; reflexivity.
Defined.

Lemma tool_call_status_machine_witness :
  sample_discussion = (sample_discussion_world, Return sample_discussion_result)
  /\ sample_execution = (sample_execution_world, Return sample_execution_result)
  /\ run_approvedCalls sample_discussion_result = [0]
  /\ run_blockedCalls sample_discussion_result = [1]
  /\ call_status (heap sample_execution_world 0) = executed
  /\ call_status (heap sample_execution_world 1) = rejected.
Proof.
  assert (Hd : sample_discussion
               = (sample_discussion_world, Return sample_discussion_result))
    by (vm_compute; reflexivity).
  assert (He : sample_execution
               = (sample_execution_world, Return sample_execution_result))
    by (vm_compute; reflexivity).
  destruct (tool_call_status_machine AGENT_CONFIGS OUTPUT_SCHEMAS sample_clock
              sample_generate sample_interleaved sample_request sample_request sample_world
              sample_discussion_world sample_execution_world
              sample_discussion_result sample_execution_result
              sample_generate_pending Hd He)
    as (config & p & h0 & _ & Hcalls & _ & _).
  split; [exact Hd|]. split; [exact He|].
  split; [reflexivity|]. split; [reflexivity|]. split; [reflexivity|].
  assert (Hin : 1 ∈ res_toolCalls (run_result sample_discussion_result))
    by (apply list_elem_of_In; vm_compute; tauto).
  destruct (Hcalls 1 Hin) as (_ & _ & _ & _ & _ & _ & Hrejected).
  apply Hrejected. reflexivity.
Defined.



(** The same for a model id that no provider is registered for. *)
Lemma unknown_model_is_fatal_example :
  findAgent AGENT_CONFIGS unknown_model_request = Some task_agent
  /\ table_get providers (effectiveModel unknown_model_request task_agent) = None
  /\ runDiscussion AGENT_CONFIGS OUTPUT_SCHEMAS sample_clock sample_generate sample_interleaved
       unknown_model_request sample_world
     = (sample_world,
        Throw "Unknown model: gpt-4. Supported: gpt-5.2, claude-opus-4.6, gemini-3").
Proof. repeat split. Qed.



(** * Further properties of the schema validator *)

Lemma fold_left_appends {A : Type} (f : list string -> A -> list string)
  (l : list A) (acc : list string) :
  Forall (fun x => forall acc, f acc x = acc ++ f [] x) l ->
  fold_left f l acc = acc ++ fold_left f l [].
Proof.
  intros H. revert acc. induction H as [|x l Hx _ IH]; intros acc; simpl.
  - rewrite app_nil_r. reflexivity.
  - rewrite IH, (IH (f [] x)), Hx, app_assoc. reflexivity.
Qed.

Lemma forEach_indexed_appends {A : Type}
  (f : A -> nat -> list string -> list string) (l : list A) (i : nat)
  (acc : list string) :
  Forall (fun x => forall j acc, f x j acc = acc ++ f x j []) l ->
  forEach_indexed f l i acc = acc ++ forEach_indexed f l i [].
Proof.
  intros H. revert i acc. induction H as [|x l Hx _ IH]; intros i acc; simpl.
  - rewrite app_nil_r. reflexivity.
  - rewrite IH, (IH _ (f x i [])), Hx, app_assoc. reflexivity.
Qed.

(** [validate] only ever pushes, and what a call pushes does not depend on
    the errors already in the array. *)
Lemma validate_app_nil :
  forall s value path errs,
    validate s value path errs = errs ++ validate s value path [].
Proof.
  induction s as [type properties items required enum description addl IHp IHi]
    using JSONSchema_induction.
  intros value path errs. simpl.
  destruct (String.eqb type "object").
  { destruct (negb (typeof value =? "object")%string || is_null value || isArray value);
      [reflexivity|].
    set (stage1 := fun errors : list string =>
           match required with
           | Some required =>
               fold_left
                 (fun errors key =>
                    if negb (js_in key value)
                    then errors ++ [path +:+ "." +:+ key +:+ ": required field missing"]
                    else errors) required errors
           | None => errors
           end).
    assert (H1 : forall errors, stage1 errors = errors ++ stage1 []).
    { intros errors. unfold stage1. destruct required as [req|];
        [|rewrite app_nil_r; reflexivity].
      apply fold_left_appends, Forall_forall. intros key _ acc.
      destruct (negb (js_in key value)); [reflexivity | rewrite app_nil_r; reflexivity]. }
    set (stage2 := fun errors : list string =>
           match properties with
           | Some properties =>
               fold_left
                 (fun errors '(key, propSchema) =>
                    if js_in key value
                    then validate propSchema (js_get key value)
                           (path +:+ "." +:+ key) errors
                    else errors) properties errors
           | None => errors
           end).
    assert (H2 : forall errors, stage2 errors = errors ++ stage2 []).
    { intros errors. unfold stage2. destruct properties as [props|];
        [|rewrite app_nil_r; reflexivity].
      apply fold_left_appends. rewrite Forall_forall in IHp |- *.
      intros [key ps] Hin acc.
      destruct (js_in key value); [apply (IHp _ Hin) | rewrite app_nil_r; reflexivity]. }
    set (stage3 := fun errors : list string =>
           match addl, properties with
           | Some false, Some properties =>
               fold_left
                 (fun errors key =>
                    if negb (in_object key properties)
                    then errors ++ [path +:+ "." +:+ key +:+ ": unexpected property"]
                    else errors) (object_keys value) errors
           | _, _ => errors
           end).
    assert (H3 : forall errors, stage3 errors = errors ++ stage3 []).
    { intros errors. unfold stage3.
      destruct addl as [[|]|]; try (rewrite app_nil_r; reflexivity).
      destruct properties as [props|]; [|rewrite app_nil_r; reflexivity].
      apply fold_left_appends, Forall_forall. intros key _ acc.
      destruct (negb (in_object key props)); [reflexivity | rewrite app_nil_r; reflexivity]. }
    change (stage3 (stage2 (stage1 errs)) = errs ++ stage3 (stage2 (stage1 []))).
    rewrite H3, H2, H1, (H3 (stage2 _)), (H2 (stage1 [])), !app_assoc.
    reflexivity. }
  destruct (String.eqb type "array").
  { destruct value; try reflexivity.
    destruct items as [it|]; [|rewrite app_nil_r; reflexivity].
    apply forEach_indexed_appends, Forall_forall. intros item _ j acc. apply IHi. }
  destruct (String.eqb type "string").
  { destruct value; try reflexivity.
    destruct enum as [en|]; [|rewrite app_nil_r; reflexivity].
    destruct (negb (includes en s)); [reflexivity | rewrite app_nil_r; reflexivity]. }
  destruct (String.eqb type "number").
  { destruct (negb _); [reflexivity | rewrite app_nil_r; reflexivity]. }
  destruct (String.eqb type "boolean").
  { destruct (negb _); [reflexivity | rewrite app_nil_r; reflexivity]. }
  rewrite app_nil_r. reflexivity.
Qed.

(** X1 — [validate] only ever pushes: the errors already in the array stay,
    in place, at the front of the result, and whether a call reports
    anything does not depend on them. *)
Theorem validate_keeps_earlier_errors (s : JSONSchema) (value : Value)
  (path : string) (errs : list string) :
  errs `prefix_of` validate s value path errs
  /\ length (validate s value path errs)
     = length errs + length (validate s value path [])
  /\ (validate s value path errs = errs <-> validate s value path [] = []).
Proof.
  rewrite validate_app_nil. split; [|split].
  - exists (validate s value path []). reflexivity.
  - apply length_app.
  - split.
    + intros H. apply (app_inv_head errs). rewrite app_nil_r. exact H.
    + intros ->. apply app_nil_r.
Qed.

Lemma fold_left_flat_map {A : Type} (f : list string -> A -> list string)
  (l : list A) :
  Forall (fun x => forall acc, f acc x = acc ++ f [] x) l ->
  fold_left f l [] = flat_map (f []) l.
Proof.
  induction 1 as [|x l Hx Hl IH]; simpl; [reflexivity|].
  rewrite (fold_left_appends f l (f [] x) Hl), IH. reflexivity.
Qed.

(** The errors of an object node for an object, in closed form: the missing
    required fields in the order of [required], then the errors of the
    declared properties that are present, then the undeclared keys in the
    order of the object's keys. *)
Lemma validate_object_closed_form (s : JSONSchema) (value : Value)
  (path : string) (errs : list string) :
  s_type s = "object" ->
  is_object value = true ->
  validate s value path errs
  = errs
    ++ map (required_missing path)
         (List.filter (fun key => negb (js_in key value))
                      (default [] (s_required s)))
    ++ property_errors (default [] (s_properties s)) value path
    ++ match s_additionalProperties s, s_properties s with
       | Some false, Some properties =>
           map (unexpected_property path)
             (List.filter (fun key => negb (in_object key properties))
                          (object_keys value))
       | _, _ => []
       end.
Proof.
  intros Htype Hobj. rewrite validate_app_nil. f_equal.
  destruct s as [type properties items required enum description addl].
  simpl in Htype. subst type. simpl.
  rewrite (object_test_passes _ Hobj).
  assert (H1 : match required with
               | Some required =>
                   fold_left
                     (fun errors key =>
                        if negb (js_in key value)
                        then errors ++ [path +:+ "." +:+ key +:+ ": required field missing"]
                        else errors) required []
               | None => []
               end
               = map (required_missing path)
                   (List.filter (fun key => negb (js_in key value))
                                (default [] required))).
  { destruct required as [req|]; [|reflexivity].
    apply (fold_left_push (fun key => negb (js_in key value))
             (required_missing path) req []). }
  rewrite H1. clear H1.
  set (R := map (required_missing path) _).
  destruct properties as [props|]; simpl.
  2: { unfold property_errors. simpl.
       destruct addl as [[|]|]; rewrite app_nil_r; reflexivity. }
  assert (Happ : Forall
                   (fun x : string * JSONSchema =>
                      forall acc,
                        (let '(key, propSchema) := x in
                         if js_in key value
                         then validate propSchema (js_get key value)
                                (path +:+ "." +:+ key) acc
                         else acc)
                        = acc ++
                          (let '(key, propSchema) := x in
                           if js_in key value
                           then validate propSchema (js_get key value)
                                  (path +:+ "." +:+ key) []
                           else [])) props).
  { apply Forall_forall. intros [key ps] _ acc.
    destruct (js_in key value);
      [apply validate_app_nil | rewrite app_nil_r; reflexivity]. }
  assert (H2 : fold_left
                 (fun errors '(key, propSchema) =>
                    if js_in key value
                    then validate propSchema (js_get key value)
                           (path +:+ "." +:+ key) errors
                    else errors) props R
               = R ++ property_errors props value path).
  { rewrite (fold_left_appends _ props R Happ).
    rewrite (fold_left_flat_map _ props Happ). reflexivity. }
  rewrite H2.
  destruct addl as [[|]|]; rewrite ?app_nil_r; try reflexivity.
  rewrite (fold_left_push (fun key => negb (in_object key props))
             (unexpected_property path)).
  rewrite <- app_assoc. reflexivity.
Qed.

Lemma object_test_fails (value : Value) :
  is_object value = false ->
  negb (String.eqb (typeof value) "object") || is_null value || isArray value = true.
Proof. destruct value; simpl; (discriminate || reflexivity). Qed.

Lemma forEach_indexed_elem_of {A : Type}
  (f : A -> nat -> list string -> list string) (l : list A) (i : nat)
  (e : string) :
  Forall (fun x => forall j acc, f x j acc = acc ++ f x j []) l ->
  e ∈ forEach_indexed f l i []
  <-> exists j x, l !! j = Some x /\ e ∈ f x (i + j) [].
Proof.
  intros H. revert i. induction H as [|x l Hx Hl IH]; intros i; simpl.
  - split; [intros Hin; inversion Hin | intros (j & y & Hj & _); discriminate].
  - rewrite (forEach_indexed_appends f l (S i) (f x i []) Hl), elem_of_app, IH.
    split.
    + intros [Hin | (j & y & Hj & Hin)].
      * exists 0, x. rewrite Nat.add_0_r. split; [reflexivity | exact Hin].
      * exists (S j), y. rewrite Nat.add_succ_r. split; assumption.
    + intros ([|j] & y & Hj & Hin).
      * left. simpl in Hj. injection Hj as <-. rewrite Nat.add_0_r in Hin. exact Hin.
      * right. exists j, y. rewrite Nat.add_succ_r in Hin. split; assumption.
Qed.

Lemma nil_iff_no_element (l : list string) : l = [] <-> forall e, e ∉ l.
Proof.
  split.
  - intros -> e He. inversion He.
  - intros H. destruct l as [|e l]; [reflexivity|]. destruct (H e). left.
Qed.

Lemma map_filter_nil {A : Type} (g : A -> string) (c : A -> bool) (l : list A) :
  map g (List.filter (fun x => negb (c x)) l) = [] <-> forallb c l = true.
Proof.
  induction l as [|x l IH]; simpl; [tauto|].
  destruct (c x); simpl; [exact IH | split; discriminate].
Qed.

Lemma flat_map_nil {A : Type} (f : A -> list string) (l : list A) :
  flat_map f l = [] <-> Forall (fun x => f x = []) l.
Proof.
  induction l as [|x l IH]; simpl.
  - split; [constructor | reflexivity].
  - split.
    + intros H. apply app_eq_nil in H as [Hx Hl]. constructor; [exact Hx | apply IH, Hl].
    + intros H. inversion H as [|? ? Hx Hl]; subst. rewrite Hx. apply IH, Hl.
Qed.

(** [validate] pushes nothing exactly for the accepted values, at any
    path. *)
Lemma validate_nil_iff_accepted :
  forall s value path, validate s value path [] = [] <-> accepted s value = true.
Proof.
  induction s as [type properties items required enum description addl IHp IHi]
    using JSONSchema_induction.
  intros value path.
  destruct (String.eqb type "object") eqn:Hobject.
  { apply String.eqb_eq in Hobject. subst type.
    destruct (is_object value) eqn:Hobj.
    - rewrite (validate_object_closed_form
                 (mkJSONSchema "object" properties items required enum
                    description addl) _ _ _ eq_refl Hobj).
      simpl. rewrite Hobj. simpl.
      rewrite !andb_true_iff.
      split.
      + intros H. apply app_eq_nil in H as [HR H].
        apply app_eq_nil in H as [HP HE].
        split; [split|].
        * destruct required as [req|]; [|reflexivity]. simpl in HR.
          apply map_filter_nil in HR. exact HR.
        * destruct properties as [props|]; [|reflexivity]. simpl in HP.
          unfold property_errors in HP. apply flat_map_nil in HP.
          apply forallb_forall. intros [key ps] Hin.
          apply list_elem_of_In in Hin.
          rewrite Forall_forall in HP, IHp.
          pose proof (HP _ Hin) as Hk. simpl in Hk.
          destruct (js_in key value); [|reflexivity]. simpl.
          apply (IHp _ Hin) in Hk. exact Hk.
        * destruct addl as [[|]|]; try reflexivity.
          destruct properties as [props|]; [|reflexivity].
          apply (map_filter_nil _ (fun key => in_object key props)) in HE.
          exact HE.
      + intros [[HR HP] HE].
        apply app_nil; split; [|apply app_nil; split].
        * destruct required as [req|]; [|reflexivity]. simpl.
          apply map_filter_nil. exact HR.
        * destruct properties as [props|]; [|reflexivity]. simpl.
          unfold property_errors. apply flat_map_nil, Forall_forall.
          intros [key ps] Hin.
          pose proof (forallb_elem_of _ _ HP _ Hin) as Hk. simpl in Hk.
          destruct (js_in key value); [|reflexivity]. simpl in Hk.
          rewrite Forall_forall in IHp. apply (IHp _ Hin). exact Hk.
        * destruct addl as [[|]|]; try reflexivity.
          destruct properties as [props|]; [|reflexivity].
          apply (map_filter_nil _ (fun key => in_object key props)). exact HE.
    - simpl. rewrite (object_test_fails _ Hobj), Hobj. simpl.
      split; [intros H; destruct (app_cons_not_nil [] [] _ (eq_sym H)) | discriminate]. }
  simpl. rewrite Hobject.
  destruct (String.eqb type "array").
  { destruct value; try (split; discriminate).
    destruct items as [it|]; [|tauto].
    assert (Happ : Forall
                     (fun item : Value =>
                        forall (j : nat) acc,
                          validate it item (path +:+ "[" +:+ pretty j +:+ "]") acc
                          = acc ++ validate it item (path +:+ "[" +:+ pretty j +:+ "]") [])
                     elems).
    { apply Forall_forall. intros item _ j acc. apply validate_app_nil. }
    rewrite nil_iff_no_element. split.
    - intros H. apply forallb_forall. intros item Hitem.
      apply list_elem_of_In, list_elem_of_lookup in Hitem as [j Hj].
      apply (IHi item (path +:+ "[" +:+ pretty (0 + j) +:+ "]")).
      apply nil_iff_no_element. intros e He. apply (H e).
      apply (forEach_indexed_elem_of _ elems 0 e Happ). exists j, item. split; assumption.
    - intros H e He.
      apply (forEach_indexed_elem_of _ elems 0 e Happ) in He as (j & item & Hj & He).
      assert (Hitem : item ∈ elems) by (apply list_elem_of_lookup; exists j; exact Hj).
      pose proof (forallb_elem_of _ _ H item Hitem) as Hacc.
      apply (IHi item (path +:+ "[" +:+ pretty (0 + j) +:+ "]")) in Hacc.
      rewrite Hacc in He. inversion He. }
  destruct (String.eqb type "string").
  { destruct value; try (split; discriminate).
    destruct enum as [en|]; [|tauto].
    destruct (includes en s); simpl; [tauto | split; discriminate]. }
  destruct (String.eqb type "number").
  { destruct value; simpl; (tauto || split; discriminate). }
  destruct (String.eqb type "boolean").
  { destruct value; simpl; (tauto || split; discriminate). }
  tauto.
Qed.

(** X2 — Validation passes exactly for the values the schema accepts:
    [valid] is decided by the checks alone, not by paths or messages, and
    is compositional in the schema tree. *)
Theorem valid_iff_accepted (schema : JSONSchema) (data : Value) :
  valid (validateAgainstSchema data schema) = accepted schema data.
Proof.
  unfold validateAgainstSchema. simpl.
  destruct (accepted schema data) eqn:Hacc.
  - apply (validate_nil_iff_accepted schema data "$") in Hacc.
    rewrite Hacc. reflexivity.
  - destruct (validate schema data "$" []) as [|e errs] eqn:Hv; [|reflexivity].
    apply validate_nil_iff_accepted in Hv. congruence.
Qed.

Lemma string_app_assoc (a b c : string) : (a +:+ b) +:+ c = a +:+ (b +:+ c).
Proof.
  induction a as [|x a IH]; [reflexivity|].
  change (String x ((a +:+ b) +:+ c) = String x (a +:+ (b +:+ c))).
  f_equal. exact IH.
Qed.

(** X3 — Every error [validate] pushes begins with the path it was called
    at; the errors of [validateAgainstSchema] all begin with [$]. *)
Theorem errors_are_located :
  forall s value path e,
    e ∈ validate s value path [] -> exists rest, e = path +:+ rest.
Proof.
  induction s as [type properties items required enum description addl IHp IHi]
    using JSONSchema_induction.
  intros value path e.
  destruct (String.eqb type "object") eqn:Hobject.
  { apply String.eqb_eq in Hobject. subst type.
    destruct (is_object value) eqn:Hobj.
    - rewrite (validate_object_closed_form
                 (mkJSONSchema "object" properties items required enum
                    description addl) _ _ _ eq_refl Hobj).
      simpl. rewrite !elem_of_app. intros [HR | [HP | HE]].
      + apply list_elem_of_fmap in HR as (key & -> & _). eexists. reflexivity.
      + destruct properties as [props|]; [|inversion HP]. simpl in HP.
        unfold property_errors in HP.
        apply list_elem_of_In, in_flat_map in HP as ([key ps] & Hin & He).
        apply list_elem_of_In in Hin. apply list_elem_of_In in He.
        destruct (js_in key value); [|inversion He].
        rewrite Forall_forall in IHp.
        destruct (IHp _ Hin _ _ _ He) as (rest & ->).
        exists (("." +:+ key) +:+ rest). apply string_app_assoc.
      + destruct addl as [[|]|]; try (inversion HE; fail).
        destruct properties as [props|]; [|inversion HE].
        apply list_elem_of_fmap in HE as (key & -> & _). eexists. reflexivity.
    - simpl. rewrite (object_test_fails _ Hobj). simpl.
      intros He. apply list_elem_of_singleton in He. subst e. eexists. reflexivity. }
  simpl. rewrite Hobject.
  destruct (String.eqb type "array").
  { destruct value;
      try (intros He; apply list_elem_of_singleton in He; subst e;
           eexists; reflexivity).
    destruct items as [it|]; [|intros He; inversion He].
    intros He.
    apply forEach_indexed_elem_of in He as (j & item & _ & He).
    - destruct (IHi _ _ _ He) as (rest & ->).
      exists (("[" +:+ pretty (0 + j) +:+ "]") +:+ rest). apply string_app_assoc.
    - apply Forall_forall. intros item _ j acc. apply validate_app_nil. }
  destruct (String.eqb type "string").
  { destruct value;
      try (intros He; apply list_elem_of_singleton in He; subst e;
           eexists; reflexivity).
    destruct enum as [en|]; [|intros He; inversion He].
    destruct (negb (includes en s)); [|intros He; inversion He].
    intros He; apply list_elem_of_singleton in He; subst e. eexists; reflexivity. }
  destruct (String.eqb type "number").
  { destruct (negb _); [|intros He; inversion He].
    intros He; apply list_elem_of_singleton in He; subst e. eexists; reflexivity. }
  destruct (String.eqb type "boolean").
  { destruct (negb _); [|intros He; inversion He].
    intros He; apply list_elem_of_singleton in He; subst e. eexists; reflexivity. }
  intros He; inversion He.
Qed.

Lemma errors_are_located_witness :
  ("$.taskId: required field missing"
     ∈ validate TaskUpdate_schema sample_bad_update "$" [])
  /\ exists rest, "$.taskId: required field missing" = "$" +:+ rest.
Proof.
  assert (H : "$.taskId: required field missing"
                ∈ validate TaskUpdate_schema sample_bad_update "$" [])
    by (vm_compute; left).
  split; [exact H|].
  exact (errors_are_located TaskUpdate_schema sample_bad_update "$" _ H).
Defined.

(** X4 — At an object node, every required field that is absent from the
    object is reported at its path, whatever else is wrong with the
    object. *)
Theorem missing_required_field_is_reported
  (s : JSONSchema) (value : Value) (path : string) (errs : list string)
  (required : list string) (key : string) :
  s_type s = "object" ->
  is_object value = true ->
  s_required s = Some required ->
  key ∈ required ->
  js_in key value = false ->
  required_missing path key ∈ validate s value path errs.
Proof.
  intros Htype Hobj Hreq Hkey Hin.
  rewrite (validate_object_closed_form _ _ _ _ Htype Hobj), Hreq. simpl.
  rewrite !elem_of_app. right. left.
  apply list_elem_of_fmap. exists key. split; [reflexivity|].
  apply elem_of_List_filter. rewrite Hin. split; [exact Hkey | reflexivity].
Qed.

Lemma missing_required_field_is_reported_witness :
  "$.taskId: required field missing"
    ∈ errors (validateAgainstSchema sample_bad_update TaskUpdate_schema).
Proof.
  apply (missing_required_field_is_reported TaskUpdate_schema sample_bad_update
           "$" [] ["taskId"; "updates"] "taskId");
    try reflexivity.
  left.
Defined.

(** X5 — At an object node with [additionalProperties: false] and a
    [properties] map, every key of the object that is not [in] the map is
    reported as unexpected at its path. *)
Theorem undeclared_key_is_reported
  (s : JSONSchema) (value : Value) (path : string) (errs : list string)
  (properties : list (string * JSONSchema)) (key : string) :
  s_type s = "object" ->
  is_object value = true ->
  s_additionalProperties s = Some false ->
  s_properties s = Some properties ->
  key ∈ object_keys value ->
  in_object key properties = false ->
  unexpected_property path key ∈ validate s value path errs.
Proof.
  intros Htype Hobj Haddl Hprops Hkey Hin.
  rewrite (validate_object_closed_form _ _ _ _ Htype Hobj), Haddl, Hprops.
  rewrite !elem_of_app. right. right. right.
  apply list_elem_of_fmap. exists key. split; [reflexivity|].
  apply elem_of_List_filter. rewrite Hin. split; [exact Hkey | reflexivity].
Qed.

Lemma undeclared_key_is_reported_witness :
  "$.note: unexpected property"
    ∈ errors (validateAgainstSchema sample_bad_update TaskUpdate_schema).
Proof.
  apply (undeclared_key_is_reported TaskUpdate_schema sample_bad_update
           "$" [] _ "note" eq_refl eq_refl eq_refl eq_refl);
    [|reflexivity].
  right. left.
Defined.

(** X6 — Validation does not stop at the first problem: an error found in
    a declared property that is present, or in an element of an array,
    is among the errors of the enclosing node. *)
Theorem nested_errors_are_reported
  (s : JSONSchema) (value : Value) (path : string) (errs : list string)
  (e : string) :
  (forall properties key propSchema,
     s_type s = "object" ->
     is_object value = true ->
     s_properties s = Some properties ->
     (key, propSchema) ∈ properties ->
     js_in key value = true ->
     e ∈ validate propSchema (js_get key value) (path +:+ "." +:+ key) [] ->
     e ∈ validate s value path errs)
  /\ (forall items elems i item,
        s_type s = "array" ->
        s_items s = Some items ->
        value = VArr elems ->
        elems !! i = Some item ->
        e ∈ validate items item (path +:+ "[" +:+ pretty i +:+ "]") [] ->
        e ∈ validate s value path errs).
Proof.
  split.
  - intros properties key ps Htype Hobj Hprops Hin Hpresent He.
    rewrite (validate_object_closed_form _ _ _ _ Htype Hobj), Hprops.
    rewrite !elem_of_app. right. right. left. simpl.
    unfold property_errors. apply list_elem_of_In, in_flat_map.
    exists (key, ps). split; [apply list_elem_of_In, Hin|].
    rewrite Hpresent. apply list_elem_of_In, He.
  - intros items elems i item Htype Hitems -> Hi He.
    rewrite validate_app_nil, elem_of_app. right.
    destruct s as [type properties its required enum description addl].
    simpl in Htype, Hitems. subst type its. simpl.
    apply forEach_indexed_elem_of.
    + apply Forall_forall. intros x _ j acc. apply validate_app_nil.
    + exists i, item. split; [exact Hi | exact He].
Qed.

Lemma nested_errors_are_reported_witness :
  "$.updates.status: must be one of [open, in-progress, urgent, done]"
    ∈ errors (validateAgainstSchema sample_bad_update TaskUpdate_schema)
  /\ "$[1].title: required field missing"
       ∈ validate tasks_schema (VArr sample_tasks) "$" [].
Proof.
  split.
  - destruct (nested_errors_are_reported TaskUpdate_schema sample_bad_update
                "$" []
                "$.updates.status: must be one of [open, in-progress, urgent, done]")
      as [Hprop _].
    eapply (Hprop _ "updates"); try reflexivity.
    + right. left.
    + vm_compute. left.
  - destruct (nested_errors_are_reported tasks_schema (VArr sample_tasks)
                "$" [] "$[1].title: required field missing")
      as [_ Harr].
    eapply (Harr _ sample_tasks 1); try reflexivity.
    vm_compute. left.
Defined.

(** * Further properties of the permission validator *)

Lemma validateToolAccess_none_iff (toolName : string)
  (allowed : list string) (granted : list Permission) :
  validateToolAccess toolName allowed granted = None
  <-> includes allowed toolName = true
      /\ exists tool,
           List.find (fun t => String.eqb (tool_name t) toolName) TOOL_REGISTRY
           = Some tool
           /\ forallb (fun p => includes granted p)
                (tool_requiredPermissions tool) = true.
Proof.
  unfold validateToolAccess.
  destruct (includes allowed toolName); cbn [negb].
  2: { split; [discriminate | intros [[=] _]]. }
  destruct (List.find (fun t => String.eqb (tool_name t) toolName) TOOL_REGISTRY)
    as [tool|].
  2: { split; [discriminate | intros [_ (tool & [=] & _)]]. }
  assert (Hmissing :
            forall required,
              List.filter (fun p => negb (includes granted p)) required = []
              <-> forallb (fun p => includes granted p) required = true).
  { intros required. induction required as [|p l IH]; simpl; [tauto|].
    destruct (includes granted p); simpl; [exact IH | split; discriminate]. }
  specialize (Hmissing (tool_requiredPermissions tool)).
  destruct (List.filter (fun p => negb (includes granted p))
              (tool_requiredPermissions tool)) as [|p missing] eqn:E;
    simpl.
  - split; [|reflexivity]. intros _. split; [reflexivity|].
    exists tool. split; [reflexivity | apply Hmissing; reflexivity].
  - split; [discriminate|]. intros [_ (tool' & [= <-] & Hall)].
    apply Hmissing in Hall. discriminate.
Qed.

Lemma find_registry_entry (tool : ToolDefinition) :
  tool ∈ TOOL_REGISTRY ->
  List.find (fun t => String.eqb (tool_name t) (tool_name tool)) TOOL_REGISTRY
  = Some tool.
Proof.
  intros Hin.
  destruct (List.find (fun t => String.eqb (tool_name t) (tool_name tool))
              TOOL_REGISTRY) as [tool'|] eqn:Hfind.
  - apply find_registry_some in Hfind as [Hin' Hname].
    rewrite (registry_names_unique tool tool' Hin Hin'); [reflexivity|].
    symmetry. exact Hname.
  - destruct (proj1 (find_registry_none _ _) Hfind tool Hin). reflexivity.
Qed.

(** X7 — What an agent is shown is what it may call: a registry tool is
    among the permitted tools exactly when [validateToolAccess] lets a
    call to it through. *)
Theorem visible_iff_callable (tool : ToolDefinition)
  (allowedNames : list string) (grantedPermissions : list Permission) :
  tool ∈ TOOL_REGISTRY ->
  (tool ∈ getPermittedTools allowedNames grantedPermissions
   <-> validateToolAccess (tool_name tool) allowedNames grantedPermissions = None).
Proof.
  intros Hin. unfold getPermittedTools.
  rewrite elem_of_List_filter, andb_true_iff, validateToolAccess_none_iff.
  rewrite (find_registry_entry tool Hin). split.
  - intros [_ [Hname Hperm]]. split; [exact Hname|].
    exists tool. split; [reflexivity | exact Hperm].
  - intros [Hname (tool' & [= <-] & Hperm)]. repeat split; assumption.
Qed.

Lemma visible_iff_callable_witness :
  exists tool,
    tool ∈ TOOL_REGISTRY
    /\ tool_name tool = "updateTask"
    /\ tool ∈ getPermittedTools ["readTask"; "updateTask"; "listTasks"]
                ["read:tasks"; "write:tasks"].
Proof.
  destruct (List.find (fun t => String.eqb (tool_name t) "updateTask") TOOL_REGISTRY)
    as [tool|] eqn:Hfind; [|discriminate Hfind].
  assert (Hin : tool ∈ TOOL_REGISTRY)
    by (apply list_elem_of_In; exact (proj1 (find_some _ _ Hfind))).
  exists tool. split; [exact Hin|].
  injection Hfind as <-. split; [reflexivity|].
  apply (visible_iff_callable _ ["readTask"; "updateTask"; "listTasks"]
           ["read:tasks"; "write:tasks"] Hin).
  reflexivity.
Defined.

Lemma List_filter_sublist_impl {A : Type} (f g : A -> bool) (l : list A) :
  (forall x, f x = true -> g x = true) ->
  sublist (List.filter f l) (List.filter g l).
Proof.
  intros Himpl. induction l as [|x l IH]; simpl; [constructor|].
  destruct (f x) eqn:Hf.
  - rewrite (Himpl x Hf). constructor. exact IH.
  - destruct (g x); [constructor|]; exact IH.
Qed.

Lemma includes_mono (l l' : list string) (x : string) :
  l ⊆ l' -> includes l x = true -> includes l' x = true.
Proof. intros Hsub H. apply includes_elem_of, Hsub, includes_elem_of, H. Qed.

(** X8 — Granting more never hides or blocks: with a larger allow-list and
    more permissions, the permitted tools of before are still permitted,
    in the same order, and a call that passed still passes. *)
Theorem permissions_are_monotone
  (allowedNames allowedNames' : list string)
  (grantedPermissions grantedPermissions' : list Permission) :
  allowedNames ⊆ allowedNames' ->
  grantedPermissions ⊆ grantedPermissions' ->
  sublist (getPermittedTools allowedNames grantedPermissions)
          (getPermittedTools allowedNames' grantedPermissions')
  /\ (forall toolName,
        validateToolAccess toolName allowedNames grantedPermissions = None ->
        validateToolAccess toolName allowedNames' grantedPermissions' = None).
Proof.
  intros Hallowed Hgranted. split.
  - apply List_filter_sublist_impl. intros tool H.
    apply andb_true_iff in H as [Hname Hperm]. apply andb_true_iff. split.
    + exact (includes_mono _ _ _ Hallowed Hname).
    + apply forallb_forall. intros p Hp.
      apply (includes_mono _ _ _ Hgranted).
      exact (proj1 (forallb_forall _ _) Hperm p Hp).
  - intros toolName H. apply validateToolAccess_none_iff in H
      as [Hname (tool & Hfind & Hperm)].
    apply validateToolAccess_none_iff. split.
    + exact (includes_mono _ _ _ Hallowed Hname).
    + exists tool. split; [exact Hfind|].
      apply forallb_forall. intros p Hp.
      apply (includes_mono _ _ _ Hgranted).
      exact (proj1 (forallb_forall _ _) Hperm p Hp).
Qed.

Lemma permissions_are_monotone_witness :
  sublist (getPermittedTools ["readTask"; "listTasks"] ["read:tasks"])
          (getPermittedTools ["readTask"; "updateTask"; "listTasks"]
             ["read:tasks"; "write:tasks"]).
Proof.
  apply (permissions_are_monotone ["readTask"; "listTasks"]
           ["readTask"; "updateTask"; "listTasks"]
           ["read:tasks"] ["read:tasks"; "write:tasks"]).
  - intros x Hx. apply list_elem_of_In in Hx. apply list_elem_of_In.
    simpl in *. tauto.
  - intros x Hx. apply list_elem_of_In in Hx. apply list_elem_of_In.
    simpl in *. tauto.
Defined.

(** X9 — An agent with an empty allow-list, or with no permission at all,
    is shown no tool and has every call blocked, whatever the tool name:
    every tool of the registry requires some permission. *)
Theorem nothing_allowed_nothing_permitted :
  (forall grantedPermissions,
     getPermittedTools [] grantedPermissions = []
     /\ forall toolName,
          validateToolAccess toolName [] grantedPermissions
          = Some (blockMessage (NotAllowlisted toolName)))
  /\ (forall allowedNames,
        getPermittedTools allowedNames [] = []
        /\ forall toolName,
             validateToolAccess toolName allowedNames [] <> None).
Proof.
  split.
  - intros granted. split; [reflexivity|]. intros toolName. reflexivity.
  - intros allowed.
    assert (Hnone : getPermittedTools allowed [] = []).
    { unfold getPermittedTools, TOOL_REGISTRY. simpl.
      rewrite !andb_false_r. reflexivity. }
    split; [exact Hnone|].
    intros toolName H. apply validateToolAccess_none_iff in H
      as [Hname (tool & Hfind & Hperm)].
    apply find_registry_some in Hfind as [Hin <-].
    assert (Hvisible : tool ∈ getPermittedTools allowed []).
    { unfold getPermittedTools. apply elem_of_List_filter.
      split; [exact Hin|]. rewrite Hname, Hperm. reflexivity. }
    rewrite Hnone in Hvisible. inversion Hvisible.
Qed.

Lemma offers_iff (tools : list ToolDefinition) (name : string) :
  offers tools name = true <-> name ∈ map tool_name tools.
Proof.
  unfold offers.
  destruct (List.find _ tools) as [tool|] eqn:Hfind.
  - apply find_registry_some in Hfind as [Hin <-].
    split; [intros _|reflexivity].
    apply list_elem_of_fmap. exists tool. split; [reflexivity | exact Hin].
  - split; [discriminate|]. intros Hin.
    apply list_elem_of_fmap in Hin as (tool & -> & Hin).
    exfalso. exact (proj1 (find_registry_none _ _) Hfind tool Hin eq_refl).
Qed.

(** A call passes exactly when it names one of the tools [getPermittedTools]
    shows, whether the name is registered or not. *)
Lemma validateToolAccess_none_iff_offered (toolName : string)
  (allowed : list string) (granted : list Permission) :
  validateToolAccess toolName allowed granted = None
  <-> offers (getPermittedTools allowed granted) toolName = true.
Proof.
  rewrite validateToolAccess_none_iff, offers_iff. unfold getPermittedTools.
  split.
  - intros [Hname (tool & Hfind & Hperm)].
    apply find_registry_some in Hfind as [Hin <-].
    apply list_elem_of_fmap. exists tool. split; [reflexivity|].
    apply elem_of_List_filter. split; [exact Hin|].
    cbv zeta. rewrite Hname, Hperm. reflexivity.
  - intros Hin. apply list_elem_of_fmap in Hin as (tool & -> & Hin).
    apply elem_of_List_filter in Hin as [Hin Hok].
    cbv zeta in Hok. apply andb_true_iff in Hok as [Hname Hperm].
    split; [exact Hname|]. exists tool.
    split; [apply find_registry_entry, Hin | exact Hperm].
Qed.

Lemma probe_is_not_offered (toolName : string)
  (allowed : list string) (granted : list Permission) :
  toolName ∈ probe_names ->
  offers (getPermittedTools allowed granted) toolName = false.
Proof.
  intros Hprobe. apply not_true_iff_false. rewrite offers_iff. intros Hin.
  apply list_elem_of_fmap in Hin as (tool & -> & Hin).
  unfold getPermittedTools in Hin.
  apply elem_of_List_filter in Hin as [Hin _].
  unfold TOOL_REGISTRY in Hin. unfold probe_names in Hprobe.
  rewrite list_elem_of_In in Hin. rewrite list_elem_of_In in Hprobe.
  simpl in Hin, Hprobe.
  destruct Hin as [<-|[<-|[<-|[<-|[]]]]];
    simpl in Hprobe; intuition discriminate.
Qed.

(** * Further properties of the two-phase orchestration *)

Lemma stamp_app clock n (a b : list LogContent) :
  stamp clock n (a ++ b) = stamp clock n a ++ stamp clock (n + length a) b.
Proof.
  revert n. induction a as [|c a IH]; intros n; simpl.
  - rewrite Nat.add_0_r. reflexivity.
  - rewrite IH, Nat.add_succ_r. reflexivity.
Qed.

Lemma stamp_length clock n (contents : list LogContent) :
  length (stamp clock n contents) = length contents.
Proof.
  revert n. induction contents as [|c l IH]; intros n; simpl;
    [reflexivity | rewrite IH; reflexivity].
Qed.

Lemma stamp_ids clock n (contents : list LogContent) :
  map log_id (stamp clock n contents) = map logId (seq (S n) (length contents)).
Proof.
  revert n. induction contents as [|c l IH]; intros n; simpl;
    [reflexivity | rewrite IH; reflexivity].
Qed.

Lemma stamp_contents clock n (contents : list LogContent) :
  map contentOf (stamp clock n contents) = contents.
Proof.
  revert n. induction contents as [|[] l IH]; intros n; simpl;
    [reflexivity | rewrite IH; reflexivity].
Qed.

Lemma logId_inj (n m : nat) : logId n = logId m -> n = m.
Proof.
  unfold logId. intros H.
  change (String "l" (String "o" (String "g" (String "-" (pretty n))))
          = String "l" (String "o" (String "g" (String "-" (pretty m))))) in H.
  injection H as H. exact (pretty_nat_inj _ _ H).
Qed.

Lemma stamp_ids_NoDup clock n (contents : list LogContent) :
  NoDup (map log_id (stamp clock n contents)).
Proof.
  rewrite stamp_ids. apply NoDup_fmap_2; [intros a b; apply logId_inj|].
  apply NoDup_ListNoDup, seq_NoDup.
Qed.

Lemma for_of_logsClassification clock config modelId body (calls : list loc) :
  logsClassification clock config modelId body ->
  forall blockedCalls approvedCalls logs w,
  exists w',
    for_of body calls (blockedCalls, approvedCalls, logs) w
    = (w', Return
             (blockedCalls ++
                List.filter
                  (fun l => negb (passes config (call_toolName (heap w l)))) calls,
              approvedCalls ++
                List.filter
                  (fun l => passes config (call_toolName (heap w l))) calls,
              logs ++
                stamp clock (logIdCounter w)
                  (map (fun call =>
                          classificationContent config modelId
                            (call_toolName (heap w call)) call) calls)))
    /\ logIdCounter w' = logIdCounter w + length calls
    /\ forall l, call_toolName (heap w' l) = call_toolName (heap w l).
Proof.
  intros Hbody. induction calls as [|call calls IH];
    intros blockedCalls approvedCalls logs w.
  - exists w. simpl. rewrite !app_nil_r. repeat split. lia.
  - destruct (Hbody blockedCalls approvedCalls logs call w)
      as (w1 & Hstep & Hcount & Hname).
    simpl. erewrite bind_return by exact Hstep. cbv zeta.
    destruct (passes config (call_toolName (heap w call))) eqn:Hpass; simpl.
    + destruct (IH blockedCalls (approvedCalls ++ [call])
                  (logs ++ [entryAt clock (S (logIdCounter w))
                              (classificationContent config modelId
                                 (call_toolName (heap w call)) call)]) w1)
        as (w' & Hrun & Hcount' & Hname').
      exists w'. rewrite Hrun, Hcount.
      rewrite (filter_ext _ _ (fun l => f_equal (fun n => negb (passes config n)) (Hname l))).
      rewrite (filter_ext _ _ (fun l => f_equal (passes config) (Hname l))).
      rewrite (map_ext _ _
                 (fun l => f_equal (fun n => classificationContent config modelId n l)
                             (Hname l))).
      rewrite <- !app_assoc. simpl. repeat split.
      * lia.
      * intros l. rewrite Hname', Hname. reflexivity.
    + destruct (IH (blockedCalls ++ [call]) approvedCalls
                  (logs ++ [entryAt clock (S (logIdCounter w))
                              (classificationContent config modelId
                                 (call_toolName (heap w call)) call)]) w1)
        as (w' & Hrun & Hcount' & Hname').
      exists w'. rewrite Hrun, Hcount.
      rewrite (filter_ext _ _ (fun l => f_equal (fun n => negb (passes config n)) (Hname l))).
      rewrite (filter_ext _ _ (fun l => f_equal (passes config) (Hname l))).
      rewrite (map_ext _ _
                 (fun l => f_equal (fun n => classificationContent config modelId n l)
                             (Hname l))).
      rewrite <- !app_assoc. simpl. repeat split.
      * lia.
      * intros l. rewrite Hname', Hname. reflexivity.
Qed.

Lemma for_of_logsExecution clock config modelId body (calls : list loc) :
  logsExecution clock config modelId body ->
  forall logs w,
  exists w',
    for_of body calls logs w
    = (w', Return
             (logs ++
                stamp clock (logIdCounter w)
                  (map (fun call =>
                          executionContent config modelId
                            (call_toolName (heap w call)) call) calls)))
    /\ logIdCounter w' = logIdCounter w + length calls
    /\ forall l, call_toolName (heap w' l) = call_toolName (heap w l).
Proof.
  intros Hbody. induction calls as [|call calls IH]; intros logs w.
  - exists w. simpl. rewrite app_nil_r. repeat split. lia.
  - destruct (Hbody logs call w) as (w1 & Hstep & Hcount & Hname).
    destruct (IH (logs ++ [entryAt clock (S (logIdCounter w))
                             (executionContent config modelId
                                (call_toolName (heap w call)) call)]) w1)
      as (w' & Hrun & Hcount' & Hname').
    exists w'. simpl. erewrite bind_return by exact Hstep.
    rewrite Hrun, Hcount.
    rewrite (map_ext _ _
               (fun l => f_equal (fun n => executionContent config modelId n l)
                           (Hname l))).
    rewrite <- !app_assoc. simpl. repeat split.
    + lia.
    + intros l. rewrite Hname', Hname. reflexivity.
Qed.

Lemma stamp_types clock n (contents : list LogContent) :
  map log_type (stamp clock n contents) = map said_type contents.
Proof.
  revert n. induction contents as [|c l IH]; intros n; simpl;
    [reflexivity | rewrite IH; reflexivity].
Qed.

Lemma stamp_lookup clock n (contents : list LogContent) (i : nat) :
  stamp clock n contents !! i = entryAt clock (S (n + i)) <$> contents !! i.
Proof.
  revert n i. induction contents as [|c l IH]; intros n [|i]; simpl;
    try reflexivity.
  - rewrite Nat.add_0_r. reflexivity.
  - rewrite IH, Nat.add_succ_r. reflexivity.
Qed.

Lemma stamp_Forall clock n (contents : list LogContent) (P : LogContent -> Prop) :
  Forall P contents -> Forall (fun e => P (contentOf e)) (stamp clock n contents).
Proof.
  intros H. revert n. induction H as [|[] l Hc _ IH]; intros n; simpl;
    constructor; [exact Hc | apply IH].
Qed.

Lemma stampAround_length clock n gap (a b : list LogContent) :
  length (stampAround clock n gap a b) = length a + length b.
Proof. unfold stampAround. rewrite length_app, !stamp_length. reflexivity. Qed.

Lemma stampAround_types clock n gap (a b : list LogContent) :
  map log_type (stampAround clock n gap a b) = map said_type (a ++ b).
Proof.
  unfold stampAround. rewrite !map_app, !stamp_types. reflexivity.
Qed.

Lemma stampAround_ids clock n gap (a b : list LogContent) :
  map log_id (stampAround clock n gap a b)
  = map logId (numbersAround n gap (length a) (length b)).
Proof.
  unfold stampAround, numbersAround. rewrite !map_app, !stamp_ids.
  reflexivity.
Qed.

(** The entry at a position holds the content of that position. *)
Lemma stampAround_lookup clock n gap (a b : list LogContent) (i : nat)
  (c : LogContent) :
  (a ++ b) !! i = Some c ->
  exists k, stampAround clock n gap a b !! i = Some (entryAt clock k c).
Proof.
  unfold stampAround. intros Hc.
  destruct (Nat.lt_ge_cases i (length a)) as [Hlt|Hge].
  - rewrite lookup_app_l in Hc by exact Hlt.
    rewrite lookup_app_l by (rewrite stamp_length; exact Hlt).
    rewrite stamp_lookup, Hc. eexists. reflexivity.
  - rewrite lookup_app_r in Hc by exact Hge.
    rewrite lookup_app_r by (rewrite stamp_length; exact Hge).
    rewrite stamp_length, stamp_lookup, Hc. eexists. reflexivity.
Qed.

Lemma stampAround_Forall clock n gap (a b : list LogContent)
  (P : LogContent -> Prop) :
  Forall P (a ++ b) ->
  Forall (fun e => P (contentOf e)) (stampAround clock n gap a b).
Proof.
  unfold stampAround. rewrite !Forall_app. intros [Ha Hb].
  split; apply stamp_Forall; assumption.
Qed.

(** The numbers of the entries are pairwise distinct. *)
Lemma numbersAround_NoDup (n gap before after : nat) :
  NoDup (numbersAround n gap before after).
Proof.
  unfold numbersAround. apply NoDup_app. split; [|split].
  - apply NoDup_ListNoDup, seq_NoDup.
  - intros x Hx Hx'. apply list_elem_of_In, in_seq in Hx.
    apply list_elem_of_In, in_seq in Hx'. lia.
  - apply NoDup_ListNoDup, seq_NoDup.
Qed.

Lemma stampAround_ids_NoDup clock n gap (a b : list LogContent) :
  NoDup (map log_id (stampAround clock n gap a b)).
Proof.
  rewrite stampAround_ids. apply NoDup_fmap_2; [intros x y; apply logId_inj|].
  apply numbersAround_NoDup.
Qed.

Lemma validationContent_types outputSchemas config modelId phase passed failed data :
  map said_type
    (validationContent outputSchemas config modelId phase passed failed data)
  = validationType outputSchemas config.
Proof.
  unfold validationContent, validationType.
  destruct (table_get outputSchemas (cfg_outputSchema config)); reflexivity.
Qed.

Lemma classification_in_approved config (h0 : loc -> ToolCall)
  (calls : list loc) (call : loc) :
  call ∈ calls ->
  bool_decide
    (call ∈ List.filter (fun l => passes config (call_toolName (h0 l))) calls)
  = passes config (call_toolName (h0 call)).
Proof.
  intros Hin. destruct (passes config (call_toolName (h0 call))) eqn:Hpass.
  - apply bool_decide_eq_true_2, elem_of_List_filter. split; assumption.
  - apply bool_decide_eq_false_2. rewrite elem_of_List_filter.
    intros [_ H]. congruence.
Qed.

Lemma List_filter_length_split {A : Type} (f : A -> bool) (l : list A) :
  length (List.filter f l) + length (List.filter (fun x => negb (f x)) l)
  = length l.
Proof.
  induction l as [|x l IH]; [reflexivity|].
  simpl. destruct (f x); simpl; lia.
Qed.

(** A property of a few explicit entries. *)
Ltac entries_hold :=
  repeat first [ apply Forall_nil_2 | apply Forall_cons_2
               | split | reflexivity ].

Section TraceProperties.

Variable agentConfigs : list AgentConfig.
Variable outputSchemas : list (string * JSONSchema).
Variable clock : nat -> Z.
Variable generateStructuredOutput :
  LLMProvider -> GenerateOptions -> (loc -> ToolCall) ->
  (loc -> ToolCall) * Outcome StructuredResult.
Variable interleaved : World -> nat.

Lemma runDiscussion_loop_logs (config : AgentConfig) (modelId : ModelId) :
  logsClassification clock config modelId
    (fun '(blockedCalls, approvedCalls, logs) call =>
       bind (readCall call) (fun c =>
       let blockReason :=
         validateToolAccess (call_toolName c)
           (cfg_allowedTools config) (cfg_permissions config) in
       let approve :=
         bind (setStatus call approved) (fun _ =>
         bind (createLog clock PDiscussion modelId (cfg_name config) LToolCall
                 ("Tool call approved: " +:+ call_toolName c) (DCall call))
              (fun e => ret (blockedCalls, approvedCalls ++ [call], logs ++ [e]))) in
       match blockReason with
       | Some reason =>
           if String.eqb reason "" then approve
           else
             bind (setStatus call rejected) (fun _ =>
             bind (createLog clock PDiscussion modelId (cfg_name config) LBlocked
                     reason (DCall call))
                  (fun e => ret (blockedCalls ++ [call], approvedCalls, logs ++ [e])))
       | None => approve
       end)).
Proof.
  intros blockedCalls approvedCalls logs call w.
  unfold classificationContent, passes, bind, readCall, setStatus, createLog, ret.
  cbn [heap logIdCounter].
  destruct (validateToolAccess _ _ _) as [reason|] eqn:E.
  - rewrite (validateToolAccess_truthy _ _ _ _ E).
    eexists. split; [reflexivity|]. split; [reflexivity|].
    intros l. cbn [heap]. unfold heap_set.
    destruct (Nat.eqb_spec l call) as [->|]; reflexivity.
  - eexists. split; [reflexivity|]. split; [reflexivity|].
    intros l. cbn [heap]. unfold heap_set.
    destruct (Nat.eqb_spec l call) as [->|]; reflexivity.
Qed.

Lemma runExecution_loop_logs (config : AgentConfig) (modelId : ModelId) :
  logsExecution clock config modelId
    (fun logs call =>
       bind (setStatus call executed) (fun _ =>
       bind (readCall call) (fun c =>
       bind (setResult call
               (VObj [ ("success", VBool true);
                       ("message",
                        VStr ("Executed " +:+ call_toolName c +:+ " successfully")) ]))
            (fun _ =>
       bind (createLog clock PExecution modelId (cfg_name config) LExecution
               ("Executed: " +:+ call_toolName c) (DCall call))
            (fun e => ret (logs ++ [e])))))).
Proof.
  intros logs call w.
  unfold executionContent, bind, readCall, setStatus, setResult, createLog, ret.
  cbn [heap logIdCounter].
  rewrite heap_set_same. cbn [call_toolName].
  eexists. split; [reflexivity|]. split; [reflexivity|].
  intros l. cbn [heap]. unfold heap_set.
  destruct (Nat.eqb_spec l call) as [->|]; reflexivity.
Qed.

(** What [runDiscussion] returns, with its logs in closed form. *)
Lemma runDiscussion_trace request w config p h0 result :
  findAgent agentConfigs request = Some config ->
  table_get providers (effectiveModel request config) = Some (Own p) ->
  generateStructuredOutput p (discussionOptions outputSchemas config request) (heap w)
  = (h0, Return result) ->
  let gap := interleaved (mkWorld (S (S (logIdCounter w))) (heap w)) in
  exists w1 logs,
    runDiscussion agentConfigs outputSchemas clock generateStructuredOutput interleaved
      request w
    = (w1, Return
             {| run_phase := PDiscussion;
                run_result := result;
                run_logs := logs;
                run_validationPassed :=
                  schemaVerdict outputSchemas config (res_data result);
                run_blockedCalls :=
                  List.filter
                    (fun l => negb (passes config (call_toolName (h0 l))))
                    (res_toolCalls result);
                run_approvedCalls :=
                  List.filter
                    (fun l => passes config (call_toolName (h0 l)))
                    (res_toolCalls result) |})
    /\ logs = stampAround clock (logIdCounter w) gap
                (discussionOpening config (effectiveModel request config) p)
                (discussionAnswered outputSchemas config
                   (effectiveModel request config) h0 result)
    /\ logIdCounter w1 = logIdCounter w + gap + length logs.
Proof.
  intros Hagent Hp Hgen gap.
  unfold findAgent in Hagent. unfold runDiscussion, schemaVerdict.
  rewrite Hagent. cbv zeta.
  erewrite bind_return by (unfold getProvider; rewrite Hp; reflexivity).
  erewrite bind_return by reflexivity.
  erewrite bind_return by reflexivity.
  erewrite bind_return
    by (unfold callProvider; cbn [heap]; unfold discussionOptions in Hgen;
        rewrite Hgen; reflexivity).
  match goal with
  | |- context [bind (for_of ?body ?calls (?b, ?a, ?logs)) _ ?w0] =>
      destruct (for_of_logsClassification clock config
                  (effectiveModel request config) body calls
                  (runDiscussion_loop_logs config
                     (effectiveModel request config)) b a logs w0)
        as (w1 & Hrun & Hcount & _)
  end.
  erewrite bind_return by exact Hrun. cbv beta iota.
  cbn [heap logIdCounter] in *. fold gap in Hcount |- *.
  unfold stampAround, discussionOpening, discussionAnswered, validationContent.
  destruct (table_get outputSchemas (cfg_outputSchema config)) as [schema|].
  - erewrite bind_return by (erewrite bind_return by reflexivity; reflexivity).
    cbv beta iota zeta.
    erewrite bind_return by reflexivity.
    eexists _, _. split; [reflexivity|]. split.
    + rewrite Hcount, !stamp_app. cbn [length stamp app]. rewrite length_map.
      unfold entryAt, logId.
      cbn [said_phase said_model said_agent said_type said_message said_data
           displayName_text logIdCounter].
      rewrite <- ?app_assoc. cbn [app].
      replace (logIdCounter w + 2 + gap)
        with (S (S (logIdCounter w)) + gap) by (clear; lia).
      rewrite ?Nat.add_0_r.
      try replace (S (S (logIdCounter w)) + gap
                   + length (res_toolCalls result) + 1)
        with (S (S (S (logIdCounter w)) + gap
                 + length (res_toolCalls result)))
        by (clear; lia).
      reflexivity.
    + cbn [logIdCounter]. rewrite Hcount.
      rewrite ?length_app, ?stamp_length, ?length_app, ?length_map.
      cbn [length]. clear. lia.
  - erewrite bind_return by reflexivity. cbv beta iota zeta.
    erewrite bind_return by reflexivity.
    eexists _, _. split; [reflexivity|]. split.
    + rewrite Hcount, !stamp_app. cbn [length stamp app]. rewrite length_map.
      unfold entryAt, logId.
      cbn [said_phase said_model said_agent said_type said_message said_data
           displayName_text logIdCounter].
      rewrite <- ?app_assoc. cbn [app].
      replace (logIdCounter w + 2 + gap)
        with (S (S (logIdCounter w)) + gap) by (clear; lia).
      rewrite ?Nat.add_0_r.
      try replace (S (S (logIdCounter w)) + gap
                   + length (res_toolCalls result) + 1)
        with (S (S (S (logIdCounter w)) + gap
                 + length (res_toolCalls result)))
        by (clear; lia).
      reflexivity.
    + cbn [logIdCounter]. rewrite Hcount.
      rewrite ?length_app, ?stamp_length, ?length_app, ?length_map.
      cbn [length]. clear. lia.
Qed.


(** What [runExecution] returns, with its logs in closed form. *)
Lemma runExecution_trace discussionResult request w config :
  findAgent agentConfigs request = Some config ->
  let passed :=
    schemaVerdict outputSchemas config (res_data (run_result discussionResult)) in
  exists w' logs',
    runExecution agentConfigs outputSchemas clock discussionResult request w
    = (w', Return
             {| run_phase := PExecution;
                run_result := run_result discussionResult;
                run_logs := if passed then run_logs discussionResult ++ logs'
                            else logs';
                run_validationPassed := passed;
                run_blockedCalls := run_blockedCalls discussionResult;
                run_approvedCalls := run_approvedCalls discussionResult |})
    /\ logs' = stamp clock (logIdCounter w)
                 (executionContents outputSchemas config
                    (effectiveModel request config) discussionResult (heap w))
    /\ logIdCounter w' = logIdCounter w + length logs'.
Proof.
  unfold findAgent, runExecution, executionContents, validationContent,
    schemaVerdict.
  intros ->. simpl.
  erewrite bind_return by reflexivity.
  destruct (table_get outputSchemas (cfg_outputSchema config)) as [schema|].
  - erewrite bind_return by (erewrite bind_return by reflexivity; reflexivity).
    cbv beta iota zeta.
    destruct (valid (validateAgainstLooked _ schema)); cbn [negb].
    + match goal with
      | |- context [for_of ?body ?calls ?logs] =>
          destruct (for_of_logsExecution clock config
                      (effectiveModel request config) body calls
                      (runExecution_loop_logs config
                         (effectiveModel request config)) logs
                      (mkWorld (S (S (logIdCounter w))) (heap w)))
            as (w1 & Hrun & Hcount & _)
      end.
      erewrite bind_return by exact Hrun.
      erewrite bind_return by reflexivity.
      cbn [heap logIdCounter] in *.
      eexists _, _. split; [reflexivity|]. split.
      * rewrite Hcount. cbn [app stamp]. rewrite ?stamp_app. cbn [length stamp app].
        rewrite length_map. unfold entryAt, logId.
        cbn [said_phase said_model said_agent said_type said_message said_data].
        rewrite <- ?app_assoc. cbn [app].
        reflexivity.
      * cbn [logIdCounter]. rewrite Hcount, !length_app, stamp_length, length_map.
        cbn [length]. clear. lia.
    + erewrite bind_return by reflexivity.
      eexists _, _. split; [reflexivity|]. split; [reflexivity|].
      cbn [logIdCounter length app]. clear. lia.
  - erewrite bind_return by reflexivity. cbv beta iota zeta. cbn [negb].
    match goal with
    | |- context [for_of ?body ?calls ?logs] =>
        destruct (for_of_logsExecution clock config
                    (effectiveModel request config) body calls
                    (runExecution_loop_logs config
                       (effectiveModel request config)) logs
                    (mkWorld (S (logIdCounter w)) (heap w)))
          as (w1 & Hrun & Hcount & _)
    end.
    erewrite bind_return by exact Hrun.
    erewrite bind_return by reflexivity.
    cbn [heap logIdCounter] in *.
    eexists _, _. split; [reflexivity|]. split.
    + rewrite Hcount. cbn [app stamp]. rewrite ?stamp_app. cbn [length stamp app].
      rewrite length_map. unfold entryAt, logId.
      cbn [said_phase said_model said_agent said_type said_message said_data].
      rewrite <- ?app_assoc. cbn [app]. reflexivity.
    + cbn [logIdCounter]. rewrite Hcount, !length_app, stamp_length, length_map.
      cbn [length]. clear. lia.
Qed.

(** A discussion that returns, with everything it returns. *)
Lemma runDiscussion_trace_inversion request w w1 discussionResult :
  runDiscussion agentConfigs outputSchemas clock generateStructuredOutput interleaved
    request w = (w1, Return discussionResult) ->
  exists config p h0,
    findAgent agentConfigs request = Some config
    /\ table_get providers (effectiveModel request config) = Some (Own p)
    /\ generateStructuredOutput p
         (discussionOptions outputSchemas config request) (heap w)
       = (h0, Return (run_result discussionResult))
    /\ run_logs discussionResult
       = stampAround clock (logIdCounter w)
           (interleaved (mkWorld (S (S (logIdCounter w))) (heap w)))
           (discussionOpening config (effectiveModel request config) p)
           (discussionAnswered outputSchemas config
              (effectiveModel request config) h0 (run_result discussionResult))
    /\ logIdCounter w1
       = logIdCounter w
         + interleaved (mkWorld (S (S (logIdCounter w))) (heap w))
         + length (run_logs discussionResult)
    /\ run_validationPassed discussionResult
       = schemaVerdict outputSchemas config
           (res_data (run_result discussionResult))
    /\ run_approvedCalls discussionResult
       = List.filter (fun l => passes config (call_toolName (h0 l)))
           (res_toolCalls (run_result discussionResult))
    /\ run_blockedCalls discussionResult
       = List.filter (fun l => negb (passes config (call_toolName (h0 l))))
           (res_toolCalls (run_result discussionResult))
    /\ run_phase discussionResult = PDiscussion.
Proof.
  intros Hrun.
  destruct (findAgent agentConfigs request) as [config|] eqn:Hagent.
  2: { rewrite (runDiscussion_unknown_agent agentConfigs outputSchemas clock
                  generateStructuredOutput interleaved _ _ Hagent) in Hrun.
       discriminate. }
  destruct (table_get providers (effectiveModel request config))
    as [[p|]|] eqn:Hp.
  3: { rewrite (runDiscussion_unknown_model agentConfigs outputSchemas clock
                  generateStructuredOutput interleaved _ _ _ Hagent Hp) in Hrun.
       discriminate. }
  2: { rewrite (runDiscussion_inherited_model agentConfigs outputSchemas clock
                  generateStructuredOutput interleaved _ _ _ Hagent Hp) in Hrun.
       discriminate. }
  destruct (generateStructuredOutput p
              (discussionOptions outputSchemas config request) (heap w))
    as [h0 [result|message]] eqn:Hgen.
  2: { destruct (runDiscussion_provider_fails agentConfigs outputSchemas clock
                   generateStructuredOutput interleaved _ _ _ _ _ _ Hagent Hp Hgen)
         as (w' & Hthrow).
       rewrite Hthrow in Hrun. discriminate. }
  destruct (runDiscussion_trace _ _ _ _ _ _ Hagent Hp Hgen)
    as (w1' & logs & Hret & Hlogs & Hcount).
  rewrite Hret in Hrun. injection Hrun as <- <-.
  exists config, p, h0.
  cbn [run_result run_logs run_validationPassed run_approvedCalls
       run_blockedCalls run_phase].
  subst logs. repeat split; assumption.
Qed.

(** X10 — The ids of the log entries of a Discussion phase.  The two
    opening entries carry the two ids after the counter.  The run then
    awaits the provider, and the entries it logs once it has the answer
    carry consecutive ids from the counter it finds when it resumes, which
    other runs may have moved on meanwhile.  The ids are pairwise distinct,
    and the counter ends at the last of them. *)
Theorem discussion_log_ids request w w1 discussionResult :
  runDiscussion agentConfigs outputSchemas clock generateStructuredOutput interleaved
    request w = (w1, Return discussionResult) ->
  exists resumed answered,
    logIdCounter w + 2 <= resumed
    /\ length (run_logs discussionResult) = 2 + answered
    /\ map log_id (run_logs discussionResult)
       = map logId (seq (S (logIdCounter w)) 2 ++ seq (S resumed) answered)
    /\ NoDup (map log_id (run_logs discussionResult))
    /\ logIdCounter w1 = resumed + answered.
Proof.
  intros Hrun.
  destruct (runDiscussion_trace_inversion _ _ _ _ Hrun)
    as (config & p & h0 & _ & _ & _ & Hlogs & Hcount & _).
  set (gap := interleaved (mkWorld (S (S (logIdCounter w))) (heap w))) in *.
  exists (logIdCounter w + 2 + gap),
    (length (discussionAnswered outputSchemas config
               (effectiveModel request config) h0
               (run_result discussionResult))).
  rewrite Hlogs in *. rewrite stampAround_length in *.
  split; [clear; lia|]. split; [reflexivity|]. split; [|split].
  - apply stampAround_ids.
  - apply stampAround_ids_NoDup.
  - rewrite Hcount. cbn [length discussionOpening]. clear. lia.
Qed.

(** X11 — The audit trail of a Discussion phase, in order: two plan
    entries, one entry per proposed call in proposal order, the validation
    entry when the agent's schema is found, a closing plan entry.  The
    entry of the [i]-th proposed call references that call; it says the
    call was approved, or gives the block reason of [validateToolAccess]. *)
Theorem discussion_audit_trail request w w1 discussionResult config :
  runDiscussion agentConfigs outputSchemas clock generateStructuredOutput interleaved
    request w = (w1, Return discussionResult) ->
  findAgent agentConfigs request = Some config ->
  map log_type (run_logs discussionResult)
  = [LPlan; LPlan]
    ++ map (classificationType (run_approvedCalls discussionResult))
         (res_toolCalls (run_result discussionResult))
    ++ validationType outputSchemas config
    ++ [LPlan]
  /\ (forall i call,
        res_toolCalls (run_result discussionResult) !! i = Some call ->
        exists e,
          run_logs discussionResult !! (2 + i) = Some e
          /\ log_data e = DCall call
          /\ if bool_decide (call ∈ run_approvedCalls discussionResult)
             then log_message e
                  = "Tool call approved: " +:+ call_toolName (heap w1 call)
             else Some (log_message e)
                  = validateToolAccess (call_toolName (heap w1 call))
                      (cfg_allowedTools config) (cfg_permissions config)).
Proof.
  intros Hrun Hagent.
  destruct (runDiscussion_trace_inversion _ _ _ _ Hrun)
    as (config' & p & h0 & Hagent' & Hp & Hgen & Hlogs & _ & _ & Happroved & _).
  rewrite Hagent in Hagent'. injection Hagent' as <-.
  destruct (runDiscussion_inversion agentConfigs outputSchemas clock
              generateStructuredOutput interleaved _ _ _ _ Hrun)
    as (config' & p' & h0' & Hagent' & Hp' & Hgen' & _ & _ & Hheap).
  rewrite Hagent in Hagent'. injection Hagent' as <-.
  rewrite Hp in Hp'. injection Hp' as <-.
  rewrite Hgen in Hgen'. injection Hgen' as <-.
  assert (Hname : forall l, call_toolName (heap w1 l) = call_toolName (h0 l)).
  { intros l. rewrite Hheap. destruct (bool_decide _); reflexivity. }
  rewrite Hlogs, Happroved. split.
  - rewrite stampAround_types. unfold discussionOpening, discussionAnswered.
    rewrite !map_app, validationContent_types, map_map. cbn [map said_type app].
    do 2 f_equal. f_equal.
    apply map_ext_in. intros call Hcall. apply list_elem_of_In in Hcall.
    unfold classificationType, classificationContent.
    rewrite (classification_in_approved _ _ _ _ Hcall).
    destruct (passes config (call_toolName (h0 call))); reflexivity.
  - intros i call Hi.
    assert (Hcall : call ∈ res_toolCalls (run_result discussionResult))
      by (apply list_elem_of_lookup; exists i; exact Hi).
    destruct (stampAround_lookup clock (logIdCounter w)
                (interleaved (mkWorld (S (S (logIdCounter w))) (heap w)))
                (discussionOpening config (effectiveModel request config) p)
                (discussionAnswered outputSchemas config
                   (effectiveModel request config) h0
                   (run_result discussionResult))
                (2 + i)
                (classificationContent config (effectiveModel request config)
                   (call_toolName (h0 call)) call))
      as (k & Hentry).
    { unfold discussionOpening, discussionAnswered. cbn [app].
      change (2 + i) with (S (S i)).
      rewrite lookup_cons. cbv iota. rewrite lookup_cons. cbv iota.
      rewrite lookup_app_l
        by (rewrite length_map; apply lookup_lt_Some with call; exact Hi).
      rewrite list_lookup_fmap, Hi. reflexivity. }
    eexists. split; [exact Hentry|].
    rewrite (classification_in_approved _ _ _ _ Hcall), Hname.
    unfold classificationContent, passes.
    destruct (validateToolAccess _ _ _) as [reason|] eqn:E.
    + rewrite (validateToolAccess_truthy _ _ _ _ E). split; reflexivity.
    + split; reflexivity.
Qed.

(** An execution that returns, with everything it returns. *)
Lemma runExecution_trace_inversion discussionResult request w w' executionResult :
  runExecution agentConfigs outputSchemas clock discussionResult request w
  = (w', Return executionResult) ->
  exists config,
    findAgent agentConfigs request = Some config
    /\ run_validationPassed executionResult
       = schemaVerdict outputSchemas config
           (res_data (run_result discussionResult))
    /\ run_logs executionResult
       = (if run_validationPassed executionResult
          then run_logs discussionResult else [])
         ++ stamp clock (logIdCounter w)
              (executionContents outputSchemas config
                 (effectiveModel request config) discussionResult (heap w))
    /\ logIdCounter w'
       = logIdCounter w
         + length (executionContents outputSchemas config
                     (effectiveModel request config) discussionResult (heap w))
    /\ run_phase executionResult = PExecution
    /\ run_result executionResult = run_result discussionResult
    /\ run_approvedCalls executionResult = run_approvedCalls discussionResult
    /\ run_blockedCalls executionResult = run_blockedCalls discussionResult.
Proof.
  intros Hrun.
  destruct (findAgent agentConfigs request) as [config|] eqn:Hagent.
  2: { rewrite (runExecution_unknown_agent agentConfigs outputSchemas clock
                  _ _ _ Hagent) in Hrun. discriminate. }
  destruct (runExecution_trace discussionResult request w config Hagent)
    as (w1 & logs' & Hret & Hlogs & Hcount).
  rewrite Hret in Hrun. injection Hrun as <- <-.
  exists config.
  cbn [run_validationPassed run_logs run_phase run_result run_approvedCalls
       run_blockedCalls].
  subst logs'. rewrite stamp_length in Hcount.
  repeat split; try assumption.
  destruct (schemaVerdict _ _ _); reflexivity.
Qed.

(** X12 — The entries an Execution phase logs carry consecutive ids,
    starting right after the counter; they come after the discussion logs
    when the re-validation passed and alone when it failed. *)
Theorem execution_log_ids discussionResult request w w' executionResult :
  runExecution agentConfigs outputSchemas clock discussionResult request w
  = (w', Return executionResult) ->
  exists logs',
    run_logs executionResult
    = (if run_validationPassed executionResult
       then run_logs discussionResult else []) ++ logs'
    /\ map log_id logs' = map logId (seq (S (logIdCounter w)) (length logs'))
    /\ NoDup (map log_id logs')
    /\ logIdCounter w' = logIdCounter w + length logs'.
Proof.
  intros Hrun.
  destruct (runExecution_trace_inversion _ _ _ _ _ Hrun)
    as (config & _ & _ & Hlogs & Hcount & _).
  eexists. split; [exact Hlogs|]. split; [|split].
  - rewrite stamp_ids, stamp_length. reflexivity.
  - apply stamp_ids_NoDup.
  - rewrite stamp_length. exact Hcount.
Qed.

(** X13 — When the re-validation fails, [runExecution] returns exactly
    three entries, the discussion logs left out: the confirmation, the
    validation entry with the joined errors and the validation result, and
    the abort. *)
Theorem aborted_execution_logs discussionResult request w w' executionResult :
  runExecution agentConfigs outputSchemas clock discussionResult request w
  = (w', Return executionResult) ->
  run_validationPassed executionResult = false ->
  exists config schema e1 e2 e3,
    findAgent agentConfigs request = Some config
    /\ table_get outputSchemas (cfg_outputSchema config) = Some schema
    /\ run_logs executionResult = [e1; e2; e3]
    /\ log_type e1 = LExecution
    /\ log_type e2 = LValidation
    /\ log_message e2
       = "✗ Re-validation failed: " +:+
         String.concat "; "
           (errors (validateAgainstLooked
                      (res_data (run_result discussionResult)) schema))
    /\ log_data e2
       = DValidation (validateAgainstLooked
                        (res_data (run_result discussionResult)) schema)
    /\ log_type e3 = LError
    /\ log_message e3 = "Execution aborted: output failed re-validation".
Proof.
  intros Hrun Hfailed.
  destruct (runExecution_trace_inversion _ _ _ _ _ Hrun)
    as (config & Hagent & Hpassed & Hlogs & _).
  rewrite Hfailed in Hlogs, Hpassed. symmetry in Hpassed.
  unfold executionContents, validationContent in Hlogs.
  rewrite Hpassed in Hlogs. unfold schemaVerdict in Hpassed.
  destruct (table_get outputSchemas (cfg_outputSchema config))
    as [schema|] eqn:Hschema; [|discriminate].
  rewrite Hpassed in Hlogs. cbn [app stamp] in Hlogs.
  eexists config, schema, _, _, _. split; [exact Hagent|].
  split; [exact Hschema|]. split; [exact Hlogs|]. repeat split.
Qed.

(** X14 — When the re-validation passes, [runExecution] returns the
    discussion logs followed by its own entries: the confirmation, the
    validation entry when the agent's schema is found, one entry per
    approved call in approval order, naming the tool and referencing the
    call, and the summary with the number of approved calls. *)
Theorem successful_execution_logs
  discussionResult request w w' executionResult config :
  runExecution agentConfigs outputSchemas clock discussionResult request w
  = (w', Return executionResult) ->
  findAgent agentConfigs request = Some config ->
  run_validationPassed executionResult = true ->
  exists logs',
    run_logs executionResult = run_logs discussionResult ++ logs'
    /\ map log_type logs'
       = [LExecution] ++ validationType outputSchemas config
         ++ map (fun _ => LExecution) (run_approvedCalls discussionResult)
         ++ [LExecution]
    /\ (forall i call,
          run_approvedCalls discussionResult !! i = Some call ->
          exists e,
            logs' !! (1 + length (validationType outputSchemas config) + i)
            = Some e
            /\ log_message e = "Executed: " +:+ call_toolName (heap w call)
            /\ log_data e = DCall call)
    /\ (exists e,
          last logs' = Some e
          /\ log_message e
             = "Execution complete. " +:+
               pretty (length (run_approvedCalls discussionResult)) +:+
               " tool calls executed.").
Proof.
  intros Hrun Hagent Hpassed.
  destruct (runExecution_trace_inversion _ _ _ _ _ Hrun)
    as (config' & Hagent' & Hverdict & Hlogs & _).
  rewrite Hagent in Hagent'. injection Hagent' as <-.
  rewrite Hpassed in Hlogs, Hverdict. symmetry in Hverdict.
  eexists. split; [exact Hlogs|].
  unfold executionContents. rewrite Hverdict.
  assert (Hvlen : length (validationContent outputSchemas config
                            (effectiveModel request config) PExecution
                            "✓ Re-validation passed" "✗ Re-validation failed: "
                            (res_data (run_result discussionResult)))
                  = length (validationType outputSchemas config)).
  { unfold validationContent, validationType.
    destruct (table_get outputSchemas (cfg_outputSchema config));
      reflexivity. }
  split; [|split].
  - rewrite stamp_types, !map_app, validationContent_types, map_map.
    reflexivity.
  - intros i call Hi.
    rewrite stamp_lookup. cbn [app].
    change (1 + length (validationType outputSchemas config) + i)
      with (S (length (validationType outputSchemas config) + i)).
    rewrite lookup_cons. cbv iota.
    rewrite lookup_app_r by (rewrite Hvlen; clear; lia).
    rewrite Hvlen.
    replace (length (validationType outputSchemas config) + i
             - length (validationType outputSchemas config)) with i
      by (clear; lia).
    rewrite lookup_app_l
      by (rewrite length_map; apply lookup_lt_Some with call; exact Hi).
    rewrite list_lookup_fmap, Hi. cbn [fmap option_fmap option_map].
    eexists. split; [reflexivity|]. split; reflexivity.
  - rewrite !app_assoc, stamp_app. cbn [stamp].
    rewrite last_snoc. eexists. split; [reflexivity|]. reflexivity.
Qed.

(** A provider that fails, with the world it leaves. *)
Lemma runDiscussion_provider_fails_world request w config p h0 message :
  findAgent agentConfigs request = Some config ->
  table_get providers (effectiveModel request config) = Some (Own p) ->
  generateStructuredOutput p (discussionOptions outputSchemas config request) (heap w)
  = (h0, Throw message) ->
  runDiscussion agentConfigs outputSchemas clock generateStructuredOutput interleaved
    request w
  = (mkWorld (S (S (logIdCounter w))
              + interleaved (mkWorld (S (S (logIdCounter w))) (heap w))) h0,
     Throw message).
Proof.
  unfold findAgent, runDiscussion. intros -> Hp Hgen. cbv zeta.
  erewrite bind_return by (unfold getProvider; rewrite Hp; reflexivity).
  erewrite bind_return by reflexivity.
  erewrite bind_return by reflexivity.
  erewrite bind_throw; [reflexivity|].
  unfold callProvider. cbn [heap]. unfold discussionOptions in Hgen.
  rewrite Hgen. reflexivity.
Qed.

(** X15 — The ways [runDiscussion] fails.  It throws for an unknown agent
    or an unknown model, with the world untouched; for a model name that
    only [Object.prototype] answers, with a TypeError after two log ids are
    used; or with the provider's own error, after two log ids are used (and
    those that other runs used while the provider was awaited) and with
    the store as the provider left it.  Once the provider has answered, it
    does not throw. *)
Theorem discussion_failures request w w' message :
  runDiscussion agentConfigs outputSchemas clock generateStructuredOutput interleaved
    request w = (w', Throw message) ->
  (findAgent agentConfigs request = None
   /\ message = "Unknown agent: " +:+ req_agent request
   /\ w' = w)
  \/ exists config,
       findAgent agentConfigs request = Some config
       /\ ((table_get providers (effectiveModel request config) = None
            /\ message
               = "Unknown model: " +:+ effectiveModel request config +:+
                 ". Supported: " +:+ String.concat ", " (map fst providers)
            /\ w' = w)
           \/ (table_get providers (effectiveModel request config)
               = Some Inherited
               /\ message
                  = "TypeError: provider.generateStructuredOutput is not a function"
               /\ w' = mkWorld (S (S (logIdCounter w))) (heap w))
           \/ (exists p h0,
                 table_get providers (effectiveModel request config)
                 = Some (Own p)
                 /\ generateStructuredOutput p
                      (discussionOptions outputSchemas config request) (heap w)
                    = (h0, Throw message)
                 /\ w' = mkWorld
                           (S (S (logIdCounter w))
                            + interleaved
                                (mkWorld (S (S (logIdCounter w))) (heap w)))
                           h0)).
Proof.
  intros Hrun.
  destruct (findAgent agentConfigs request) as [config|] eqn:Hagent.
  2: { rewrite (runDiscussion_unknown_agent agentConfigs outputSchemas clock
                  generateStructuredOutput interleaved _ _ Hagent) in Hrun.
       injection Hrun as <- <-. left. repeat split. }
  right. exists config. split; [reflexivity|].
  destruct (table_get providers (effectiveModel request config))
    as [[p|]|] eqn:Hp.
  3: { rewrite (runDiscussion_unknown_model agentConfigs outputSchemas clock
                  generateStructuredOutput interleaved _ _ _ Hagent Hp) in Hrun.
       injection Hrun as <- <-. left. repeat split. }
  2: { rewrite (runDiscussion_inherited_model agentConfigs outputSchemas clock
                  generateStructuredOutput interleaved _ _ _ Hagent Hp) in Hrun.
       injection Hrun as <- <-. right. left. repeat split. }
  right. right.
  destruct (generateStructuredOutput p
              (discussionOptions outputSchemas config request) (heap w))
    as [h0 [result|message']] eqn:Hgen.
  - destruct (runDiscussion_trace _ _ _ _ _ _ Hagent Hp Hgen)
      as (w1 & logs & Hret & _).
    rewrite Hret in Hrun. discriminate.
  - rewrite (runDiscussion_provider_fails_world _ _ _ _ _ _ Hagent Hp Hgen)
      in Hrun.
    injection Hrun as <- <-. exists p, h0. repeat split. exact Hgen.
Qed.

(** X16 — The re-validation of the Execution phase gives the verdict the
    Discussion phase gave, for a request that names the same agent: the
    data is the same and so is the schema.  The result and the two lists
    of calls are handed on as they are. *)
Theorem revalidation_agrees_with_discussion
  request request' w w1 w2 w3 discussionResult executionResult :
  runDiscussion agentConfigs outputSchemas clock generateStructuredOutput interleaved
    request w = (w1, Return discussionResult) ->
  runExecution agentConfigs outputSchemas clock discussionResult request' w2
  = (w3, Return executionResult) ->
  req_agent request' = req_agent request ->
  run_validationPassed executionResult = run_validationPassed discussionResult
  /\ run_result executionResult = run_result discussionResult
  /\ run_approvedCalls executionResult = run_approvedCalls discussionResult
  /\ run_blockedCalls executionResult = run_blockedCalls discussionResult.
Proof.
  intros Hd He Hsame.
  destruct (runDiscussion_trace_inversion _ _ _ _ Hd)
    as (config & p & h0 & Hagent & _ & _ & _ & _ & Hverdict & _).
  destruct (runExecution_trace_inversion _ _ _ _ _ He)
    as (config' & Hagent' & Hverdict' & _ & _ & _ & Hresult & Happroved
        & Hblocked).
  unfold findAgent in Hagent, Hagent'. rewrite Hsame, Hagent in Hagent'.
  injection Hagent' as <-.
  rewrite Hverdict, Hverdict'. repeat split; assumption.
Qed.

(** X17 — Every entry of the audit trail of a request carries the name of
    the agent and the effective model (the override of the request when it
    has one), and the phase that logged it. *)
Theorem log_entries_carry_agent_and_model
  request w w1 w2 discussionResult executionResult config :
  runDiscussion agentConfigs outputSchemas clock generateStructuredOutput interleaved
    request w = (w1, Return discussionResult) ->
  runExecution agentConfigs outputSchemas clock discussionResult request w1
  = (w2, Return executionResult) ->
  findAgent agentConfigs request = Some config ->
  Forall (fun e => log_agent e = cfg_name config
                   /\ log_model e = effectiveModel request config
                   /\ log_phase e = PDiscussion)
         (run_logs discussionResult)
  /\ exists logs',
       run_logs executionResult
       = (if run_validationPassed executionResult
          then run_logs discussionResult else []) ++ logs'
       /\ Forall (fun e => log_agent e = cfg_name config
                           /\ log_model e = effectiveModel request config
                           /\ log_phase e = PExecution)
                 logs'.
Proof.
  intros Hd He Hagent.
  destruct (runDiscussion_trace_inversion _ _ _ _ Hd)
    as (config1 & p & h0 & Hagent1 & _ & _ & Hlogs & _).
  destruct (runExecution_trace_inversion _ _ _ _ _ He)
    as (config2 & Hagent2 & _ & Hlogs' & _).
  rewrite Hagent in Hagent1, Hagent2.
  injection Hagent1 as <-. injection Hagent2 as <-.
  split.
  - rewrite Hlogs.
    apply (stampAround_Forall clock _ _ _ _
             (fun c => said_agent c = cfg_name config
                       /\ said_model c = effectiveModel request config
                       /\ said_phase c = PDiscussion)).
    unfold discussionOpening, discussionAnswered, validationContent.
    rewrite !Forall_app. repeat split.
    + entries_hold.
    + apply Forall_forall. intros c Hc.
      apply list_elem_of_fmap in Hc as (call & -> & _).
      unfold classificationContent.
      destruct (passes config (call_toolName (h0 call))); repeat split.
    + destruct (table_get outputSchemas (cfg_outputSchema config));
        entries_hold.
    + entries_hold.
  - eexists. split; [exact Hlogs'|].
    apply (stamp_Forall clock _ _
             (fun c => said_agent c = cfg_name config
                       /\ said_model c = effectiveModel request config
                       /\ said_phase c = PExecution)).
    unfold executionContents, validationContent.
    rewrite !Forall_app. repeat split.
    + entries_hold.
    + destruct (table_get outputSchemas (cfg_outputSchema config));
        entries_hold.
    + destruct (schemaVerdict _ _ _); [|entries_hold].
      rewrite Forall_app. split; [|entries_hold].
      apply Forall_forall. intros c Hc.
      apply list_elem_of_fmap in Hc as (call & -> & _).
      repeat split.
Qed.

(** X18 — The ids of a request's whole trail.  When the Execution phase
    runs after the Discussion phase, the counter not having gone back in
    between, and the re-validation passes, the ids of the returned logs
    are those of the two opening entries, those of the entries logged once
    the provider had answered, and those of the Execution phase, each group
    consecutive and after the one before: no two entries of the trail
    share an id. *)
Theorem two_phase_log_ids
  request w w1 w2 w3 discussionResult executionResult :
  runDiscussion agentConfigs outputSchemas clock generateStructuredOutput interleaved
    request w = (w1, Return discussionResult) ->
  runExecution agentConfigs outputSchemas clock discussionResult request w2
  = (w3, Return executionResult) ->
  logIdCounter w1 <= logIdCounter w2 ->
  run_validationPassed executionResult = true ->
  exists resumed answered executed,
    logIdCounter w + 2 <= resumed
    /\ resumed + answered = logIdCounter w1
    /\ map log_id (run_logs executionResult)
       = map logId (seq (S (logIdCounter w)) 2 ++ seq (S resumed) answered
                    ++ seq (S (logIdCounter w2)) executed)
    /\ NoDup (map log_id (run_logs executionResult))
    /\ logIdCounter w3 = logIdCounter w2 + executed.
Proof.
  intros Hd He Horder Hpassed.
  destruct (runDiscussion_trace_inversion _ _ _ _ Hd)
    as (config1 & p & h0 & _ & _ & _ & Hlogs & Hcount & _).
  destruct (runExecution_trace_inversion _ _ _ _ _ He)
    as (config2 & _ & _ & Hlogs' & Hcount' & _).
  rewrite Hpassed in Hlogs'.
  set (gap := interleaved (mkWorld (S (S (logIdCounter w))) (heap w))) in *.
  set (answered := discussionAnswered outputSchemas config1
                     (effectiveModel request config1) h0
                     (run_result discussionResult)) in *.
  set (executed := executionContents outputSchemas config2
                     (effectiveModel request config2) discussionResult
                     (heap w2)) in *.
  exists (logIdCounter w + 2 + gap), (length answered), (length executed).
  assert (Hids : map log_id (run_logs executionResult)
                 = map logId (seq (S (logIdCounter w)) 2
                              ++ seq (S (logIdCounter w + 2 + gap))
                                   (length answered)
                              ++ seq (S (logIdCounter w2)) (length executed))).
  { rewrite Hlogs', Hlogs, map_app, stampAround_ids, stamp_ids.
    unfold numbersAround. cbn [length discussionOpening].
    rewrite !map_app, <- !app_assoc. reflexivity. }
  assert (Hend : logIdCounter w + 2 + gap + length answered = logIdCounter w1).
  { rewrite Hcount, Hlogs, stampAround_length.
    cbn [length discussionOpening]. clear. lia. }
  split; [clear; lia|]. split; [exact Hend|]. split; [exact Hids|].
  split; [|exact Hcount'].
  rewrite Hids. apply NoDup_fmap_2; [intros x y; apply logId_inj|].
  apply NoDup_app. split; [|split].
  - apply NoDup_ListNoDup, seq_NoDup.
  - intros x Hx Hx'. apply list_elem_of_In, in_seq in Hx.
    apply list_elem_of_In, in_app_or in Hx' as [Hx'|Hx'];
      apply in_seq in Hx'; lia.
  - apply NoDup_app. split; [|split].
    + apply NoDup_ListNoDup, seq_NoDup.
    + intros x Hx Hx'. apply list_elem_of_In, in_seq in Hx.
      apply list_elem_of_In, in_seq in Hx'. lia.
    + apply NoDup_ListNoDup, seq_NoDup.
Qed.

(** X19 — Every call the provider proposed lands in exactly one of the two
    lists of the Discussion result, by the verdict of [validateToolAccess]
    on its name, and both lists keep the order of the proposal. *)
Theorem proposed_calls_are_partitioned request w w1 discussionResult :
  runDiscussion agentConfigs outputSchemas clock generateStructuredOutput interleaved
    request w = (w1, Return discussionResult) ->
  exists config,
    findAgent agentConfigs request = Some config
    /\ (forall call,
          call ∈ run_approvedCalls discussionResult
          <-> call ∈ res_toolCalls (run_result discussionResult)
              /\ validateToolAccess (call_toolName (heap w1 call))
                   (cfg_allowedTools config) (cfg_permissions config) = None)
    /\ (forall call,
          call ∈ run_blockedCalls discussionResult
          <-> call ∈ res_toolCalls (run_result discussionResult)
              /\ validateToolAccess (call_toolName (heap w1 call))
                   (cfg_allowedTools config) (cfg_permissions config) <> None)
    /\ sublist (run_approvedCalls discussionResult)
               (res_toolCalls (run_result discussionResult))
    /\ sublist (run_blockedCalls discussionResult)
               (res_toolCalls (run_result discussionResult))
    /\ length (run_approvedCalls discussionResult)
       + length (run_blockedCalls discussionResult)
       = length (res_toolCalls (run_result discussionResult)).
Proof.
  intros Hd.
  destruct (runDiscussion_inversion agentConfigs outputSchemas clock
              generateStructuredOutput interleaved _ _ _ _ Hd)
    as (config & p & h0 & Hagent & _ & _ & Happroved & Hblocked & Hheap).
  exists config. split; [exact Hagent|].
  assert (Hname : forall call,
            call_toolName (heap w1 call) = call_toolName (h0 call)).
  { intros call. rewrite Hheap. destruct (bool_decide _); reflexivity. }
  rewrite Happroved, Hblocked.
  split; [|split; [|split; [|split]]].
  - intros call. rewrite elem_of_List_filter, Hname, passes_iff. reflexivity.
  - intros call. rewrite elem_of_List_filter, Hname.
    rewrite negb_true_iff, <- not_true_iff_false, passes_iff. reflexivity.
  - apply List_filter_sublist.
  - apply List_filter_sublist.
  - apply List_filter_length_split.
Qed.

(** X20 — Running the Execution phase again on the same Discussion result
    changes no [ToolCall]: each approved call already holds the result and
    the status the first run gave it. *)
Theorem execution_is_idempotent_on_calls
  discussionResult request request' w w1 w2 executionResult executionResult' :
  runExecution agentConfigs outputSchemas clock discussionResult request w
  = (w1, Return executionResult) ->
  runExecution agentConfigs outputSchemas clock discussionResult request' w1
  = (w2, Return executionResult') ->
  req_agent request' = req_agent request ->
  forall call, heap w2 call = heap w1 call.
Proof.
  intros He He' Hsame call.
  destruct (findAgent agentConfigs request) as [config|] eqn:Hagent.
  2: { rewrite (runExecution_unknown_agent agentConfigs outputSchemas clock
                  _ _ _ Hagent) in He. discriminate. }
  assert (Hagent' : findAgent agentConfigs request' = Some config).
  { unfold findAgent in *. rewrite Hsame. exact Hagent. }
  destruct (runExecution_known_agent agentConfigs outputSchemas clock
              discussionResult request w config Hagent)
    as (w1' & logs1 & Hret & Hheap & _).
  destruct (runExecution_known_agent agentConfigs outputSchemas clock
              discussionResult request' w1 config Hagent')
    as (w2' & logs2 & Hret' & Hheap' & _).
  rewrite Hret in He. injection He as <- _.
  rewrite Hret' in He'. injection He' as <- _.
  rewrite Hheap', Hheap.
  destruct (schemaVerdict _ _ _ && bool_decide _); reflexivity.
Qed.

(** X21 — Whatever the provider proposes, a call is approved exactly when
    it names one of the tools the runtime offered to the provider in that
    run, the result of [getPermittedTools] for the agent. *)
Theorem approved_iff_tool_was_offered request w w1 discussionResult :
  runDiscussion agentConfigs outputSchemas clock generateStructuredOutput interleaved
    request w = (w1, Return discussionResult) ->
  exists config,
    findAgent agentConfigs request = Some config
    /\ forall call,
         call ∈ res_toolCalls (run_result discussionResult) ->
         (call ∈ run_approvedCalls discussionResult
          <-> call_toolName (heap w1 call)
              ∈ map tool_name
                  (getPermittedTools (cfg_allowedTools config)
                     (cfg_permissions config)))
         /\ (call ∈ run_blockedCalls discussionResult
             <-> call_toolName (heap w1 call)
                 ∉ map tool_name
                     (getPermittedTools (cfg_allowedTools config)
                        (cfg_permissions config))).
Proof.
  intros Hd.
  destruct (runDiscussion_inversion agentConfigs outputSchemas clock
              generateStructuredOutput interleaved _ _ _ _ Hd)
    as (config & p & h0 & Hagent & _ & _ & Happroved & Hblocked & Hheap).
  exists config. split; [exact Hagent|]. intros call Hcall.
  assert (Hname : call_toolName (heap w1 call) = call_toolName (h0 call)).
  { rewrite Hheap. destruct (bool_decide _); reflexivity. }
  rewrite Happroved, Hblocked, !elem_of_List_filter, Hname.
  rewrite <- offers_iff, <- validateToolAccess_none_iff_offered, <- passes_iff.
  split.
  - split; [intros [_ H]; exact H | intros H; split; assumption].
  - rewrite negb_true_iff, not_true_iff_false.
    split; [intros [_ H]; exact H | intros H; split; assumption].
Qed.

End TraceProperties.

(** * The adapters *)

Lemma allocate_other (calls : list ToolCall) (h : loc -> ToolCall) (l l' : loc) :
  l' < l \/ l + length calls <= l' -> allocate h l calls l' = h l'.
Proof.
  revert h l. induction calls as [|c calls IH]; intros h l Hout; [reflexivity|].
  cbn [allocate length] in *. rewrite IH by lia.
  apply heap_set_other. lia.
Qed.

Lemma allocate_lookup (calls : list ToolCall) (h : loc -> ToolCall) (l i : nat)
  (c : ToolCall) :
  calls !! i = Some c -> allocate h l calls (l + i) = c.
Proof.
  revert h l i. induction calls as [|c' calls IH]; intros h l i Hi;
    [discriminate|].
  cbn [allocate]. destruct i as [|i].
  - injection Hi as ->. rewrite allocate_other by lia.
    rewrite Nat.add_0_r. apply heap_set_same.
  - replace (l + S i) with (S l + i) by lia. apply IH. exact Hi.
Qed.

Lemma seq_elem_of (start len l : nat) :
  l ∈ seq start len <-> exists i, i < len /\ l = start + i.
Proof.
  rewrite list_elem_of_In, in_seq. split.
  - intros [Hlo Hhi]. exists (l - start). lia.
  - intros (i & Hi & ->). lia.
Qed.

Lemma Forall_push_if (P : ToolCall -> Prop) (condition : bool)
  (c : ToolCall) (calls : list ToolCall) :
  Forall P calls -> (condition = true -> P c) ->
  Forall P (push_if condition c calls).
Proof.
  intros Hcalls Hc. unfold push_if. destruct condition; [|exact Hcalls].
  apply Forall_app. split; [exact Hcalls|].
  apply Forall_cons_2; [apply Hc; reflexivity | apply Forall_nil_2].
Qed.

Section AdapterProperties.

Variable toLowerCase : string -> string.
Variable fresh : (loc -> ToolCall) -> loc.

(** What the three [extractToolCalls] put in their list. *)
Lemma extractToolCalls_proposals (p : LLMProvider) (prompt : string)
  (tools : list ToolDefinition) :
  Forall (fun c => (offers tools (call_toolName c) = true
                    \/ call_toolName c ∈ probe_names)
                   /\ call_status c = pending
                   /\ call_result c = None)
         (extractToolCalls toLowerCase p prompt tools).
Proof.
  assert (Hprobe : forall name, In name probe_names -> name ∈ probe_names)
    by (intros name; apply list_elem_of_In).
  unfold extractToolCalls, openai_extractToolCalls, claude_extractToolCalls,
    gemini_extractToolCalls.
  destruct (vendor p); cbv zeta;
    repeat (apply Forall_push_if; [|intros Hcondition]);
    try apply Forall_nil_2;
    cbn [call_toolName call_status call_result];
    (split; [|split; reflexivity]);
    first [ left; apply andb_true_iff in Hcondition as [_ Hoffer]; exact Hoffer
          | right; apply Hprobe; simpl; tauto ].
Qed.

(** Where the objects of an answer are, and what they hold. *)
Lemma adapter_answer (p : LLMProvider) (options : GenerateOptions)
  (h h0 : loc -> ToolCall) (result : StructuredResult) :
  adapter_generateStructuredOutput toLowerCase fresh p options h
  = (h0, Return result) ->
  forall call,
    call ∈ res_toolCalls result ->
    h0 call ∈ extractToolCalls toLowerCase p (opt_userPrompt options)
                (opt_tools options).
Proof.
  unfold adapter_generateStructuredOutput. intros [= <- <-] call Hcall.
  cbn [res_toolCalls] in Hcall.
  apply seq_elem_of in Hcall as (i & Hi & ->).
  destruct (lookup_lt_is_Some_2 _ _ Hi) as [c Hc].
  rewrite (allocate_lookup _ _ _ _ _ Hc).
  apply list_elem_of_lookup. exists i. exact Hc.
Qed.

(** X22 — An adapter always answers, and [success] is set.  Where the
    engine allocates beyond the objects in use, the proposed calls are
    distinct fresh objects (none was in use before the call), each pending
    and without result, each naming a tool the adapter was given or one of
    the three probe names; the objects in use are untouched, as is every
    object other than the proposed calls. *)
Theorem adapter_answer_contract (p : LLMProvider) (options : GenerateOptions)
  (h : loc -> ToolCall) (inUse : loc -> Prop) :
  (forall l, inUse l -> l < fresh h) ->
  exists h0 result,
    adapter_generateStructuredOutput toLowerCase fresh p options h
    = (h0, Return result)
    /\ res_success result = true
    /\ res_data result
       = generateMockData toLowerCase (opt_userPrompt options)
           (opt_outputSchema options)
    /\ NoDup (res_toolCalls result)
    /\ (forall call,
          call ∈ res_toolCalls result ->
          ~ inUse call
          /\ call_status (h0 call) = pending
          /\ call_result (h0 call) = None
          /\ (call_toolName (h0 call) ∈ map tool_name (opt_tools options)
              \/ call_toolName (h0 call) ∈ probe_names))
    /\ (forall l, inUse l -> h0 l = h l)
    /\ (forall call, call ∉ res_toolCalls result -> h0 call = h call).
Proof.
  intros Hfresh.
  eexists _, _. split; [reflexivity|].
  cbn [res_success res_data res_toolCalls].
  split; [reflexivity|]. split; [reflexivity|]. split; [|split; [|split]].
  - apply NoDup_ListNoDup, seq_NoDup.
  - intros call Hcall.
    assert (Hin := adapter_answer p options h _ _ eq_refl call Hcall).
    pose proof (extractToolCalls_proposals p (opt_userPrompt options)
                  (opt_tools options)) as Hall.
    rewrite Forall_forall in Hall.
    split.
    { intros Hused. apply Hfresh in Hused.
      apply seq_elem_of in Hcall as (i & _ & ->). lia. }
    destruct (Hall _ Hin) as ([Hoffer|Hprobe] & Hstatus & Hresult);
      repeat split; try assumption.
    + left. apply offers_iff, Hoffer.
    + right. exact Hprobe.
  - intros l Hused. apply allocate_other. left. apply Hfresh, Hused.
  - intros call Hcall. apply allocate_other.
    destruct (Nat.lt_ge_cases call (fresh h)) as [Hlt|Hge]; [left; exact Hlt|].
    right. destruct (Nat.le_gt_cases
                       (fresh h + length (extractToolCalls toLowerCase p
                                            (opt_userPrompt options)
                                            (opt_tools options))) call)
      as [Hle|Hgt]; [exact Hle|].
    exfalso. apply Hcall. apply seq_elem_of.
    exists (call - fresh h). lia.
Qed.

(** X23 — With the adapters as providers, the calls the Discussion phase
    blocks are exactly the proposed calls that name a probe, whatever the
    agent's allow-list and permissions: an adapter proposes a registered
    tool only when the runtime offered it. *)
Theorem adapter_discussion_blocks_exactly_probes
  agentConfigs outputSchemas clock interleaved request w w1 discussionResult :
  runDiscussion agentConfigs outputSchemas clock
    (adapter_generateStructuredOutput toLowerCase fresh) interleaved request w
  = (w1, Return discussionResult) ->
  forall call,
    (call ∈ run_blockedCalls discussionResult
     <-> call ∈ res_toolCalls (run_result discussionResult)
         /\ call_toolName (heap w1 call) ∈ probe_names)
    /\ (call ∈ run_approvedCalls discussionResult
        <-> call ∈ res_toolCalls (run_result discussionResult)
            /\ call_toolName (heap w1 call) ∉ probe_names).
Proof.
  intros Hd call.
  destruct (runDiscussion_inversion agentConfigs outputSchemas clock _ _ _ _ _ _ Hd)
    as (config & p & h0 & Hagent & _ & Hgen & Happroved & Hblocked & Hheap).
  assert (Hname : call_toolName (heap w1 call) = call_toolName (h0 call)).
  { rewrite Hheap. destruct (bool_decide _); reflexivity. }
  rewrite Happroved, Hblocked, !elem_of_List_filter, Hname.
  assert (Hverdict : call ∈ res_toolCalls (run_result discussionResult) ->
            passes config (call_toolName (h0 call)) = true
            <-> call_toolName (h0 call) ∉ probe_names).
  { intros Hcall.
    assert (Hin := adapter_answer _ _ _ _ _ Hgen call Hcall).
    pose proof (extractToolCalls_proposals p
                  (opt_userPrompt (discussionOptions outputSchemas config request))
                  (opt_tools (discussionOptions outputSchemas config request)))
      as Hall.
    rewrite Forall_forall in Hall. destruct (Hall _ Hin) as (Hcases & _).
    cbn [opt_tools discussionOptions] in Hcases.
    rewrite passes_iff, validateToolAccess_none_iff_offered.
    destruct Hcases as [Hoffer|Hprobe].
    - split; [|intros _; exact Hoffer].
      intros _ Hprobe.
      rewrite (probe_is_not_offered _ _ _ Hprobe) in Hoffer. discriminate.
    - rewrite (probe_is_not_offered _ _ _ Hprobe).
      split; [discriminate|]. intros Hnot. contradiction. }
  split.
  - split.
    + intros [Hcall Hblock]. split; [exact Hcall|].
      apply negb_true_iff in Hblock.
      destruct (decide (call_toolName (h0 call) ∈ probe_names)) as [Hp|Hp];
        [exact Hp|].
      apply (Hverdict Hcall) in Hp. congruence.
    + intros [Hcall Hprobe]. split; [exact Hcall|].
      apply negb_true_iff, not_true_iff_false. intros Hpass.
      apply (Hverdict Hcall) in Hpass. contradiction.
  - split.
    + intros [Hcall Hpass]. split; [exact Hcall|]. apply (Hverdict Hcall), Hpass.
    + intros [Hcall Hprobe]. split; [exact Hcall|]. apply (Hverdict Hcall), Hprobe.
Qed.

(** The data of an adapter fits each shipped output schema. *)
Lemma generateMockData_fits_shipped (prompt : string) (config : AgentConfig) :
  config ∈ AGENT_CONFIGS ->
  schemaVerdict OUTPUT_SCHEMAS config
    (generateMockData toLowerCase prompt
       (opt_outputSchema
          (discussionOptions OUTPUT_SCHEMAS config
             (mkAgentRunRequest (cfg_name config) None prompt))))
  = true.
Proof.
  intros Hin. apply list_elem_of_In in Hin. unfold AGENT_CONFIGS in Hin.
  simpl in Hin.
  destruct Hin as [<-|[<-|[<-|[]]]];
    unfold generateMockData;
    destruct (str_includes "overdue" (toLowerCase prompt));
    destruct (str_includes "urgent" (toLowerCase prompt));
    vm_compute; reflexivity.
Qed.

(** X24 — With the shipped agents and output schemas and the adapters as
    providers, the validation of the Discussion phase always passes,
    whatever the prompt and the model: [generateMockData] builds its data
    by the schema it is given. *)
Theorem shipped_discussion_always_validates
  clock interleaved request w w1 discussionResult :
  runDiscussion AGENT_CONFIGS OUTPUT_SCHEMAS clock
    (adapter_generateStructuredOutput toLowerCase fresh) interleaved request w
  = (w1, Return discussionResult) ->
  run_validationPassed discussionResult = true.
Proof.
  intros Hd.
  destruct (runDiscussion_trace_inversion _ _ _ _ _ _ _ _ _ Hd)
    as (config & p & h0 & Hagent & _ & Hgen & _ & _ & Hverdict & _).
  rewrite Hverdict.
  unfold adapter_generateStructuredOutput in Hgen.
  injection Hgen as _ Hresult. rewrite <- Hresult. cbn [res_data].
  assert (Hin : config ∈ AGENT_CONFIGS).
  { unfold findAgent in Hagent. apply find_some in Hagent as [Hin _].
    apply list_elem_of_In, Hin. }
  exact (generateMockData_fits_shipped (req_input request) config Hin).
Qed.

(** X25 — The arguments an adapter proposes for a registered tool fit the
    parameter schema the registry declares for that tool. *)
Theorem proposed_arguments_fit_parameters (p : LLMProvider) (prompt : string)
  (tools : list ToolDefinition) (c : ToolCall) (tool : ToolDefinition) :
  c ∈ extractToolCalls toLowerCase p prompt tools ->
  tool ∈ TOOL_REGISTRY ->
  tool_name tool = call_toolName c ->
  valid (validateAgainstSchema (call_arguments c) (tool_parameters tool)) = true.
Proof.
  intros Hc Htool Hname.
  assert (Hall : Forall
            (fun c => forall tool, In tool TOOL_REGISTRY ->
                        tool_name tool = call_toolName c ->
                        valid (validateAgainstSchema (call_arguments c)
                                 (tool_parameters tool)) = true)
            (extractToolCalls toLowerCase p prompt tools)).
  { clear. unfold extractToolCalls, openai_extractToolCalls,
      claude_extractToolCalls, gemini_extractToolCalls.
    destruct (vendor p); cbv zeta;
      repeat (apply Forall_push_if; [|intros _]);
      try apply Forall_nil_2;
      intros tool Hin Hname; unfold TOOL_REGISTRY in Hin; simpl in Hin;
      destruct Hin as [<-|[<-|[<-|[<-|[]]]]];
      first [ discriminate Hname | vm_compute; reflexivity ]. }
  rewrite Forall_forall in Hall.
  apply (Hall c Hc tool); [apply list_elem_of_In, Htool | exact Hname].
Qed.

End AdapterProperties.

(** X26 — The provider registry is keyed by model id: [getProvider] returns
    exactly the providers [getAllProviders] lists, each under its own
    [modelId], and leaves the world alone. *)
Theorem getProvider_getAllProviders (modelId' : ModelId) (p : LLMProvider)
  (w w' : World) :
  getProvider modelId' w = (w', Return (Own p))
  <-> p ∈ getAllProviders /\ modelId p = modelId' /\ w' = w.
Proof.
  unfold getProvider, getAllProviders, table_get, providers.
  cbn [own_property map snd].
  split.
  - repeat match goal with
           | |- context [String.eqb ?a ?b] =>
               destruct (String.eqb_spec a b); [subst|]
           end;
      try (destruct (inherited modelId'));
      unfold ret, throw; intros [= <- <-] || intros [=];
      (split; [apply list_elem_of_In; simpl; tauto | split; reflexivity]).
  - intros (Hin & <- & ->). apply list_elem_of_In in Hin. simpl in Hin.
    destruct Hin as [<-|[<-|[<-|[]]]]; reflexivity.
Qed.

(** * The properties above on the sample runs *)

Lemma sample_discussion_returns :
  sample_discussion = (sample_discussion_world, Return sample_discussion_result).
Proof. vm_compute. reflexivity. Defined.

Lemma sample_execution_returns :
  sample_execution = (sample_execution_world, Return sample_execution_result).
Proof. vm_compute. reflexivity. Defined.

Lemma probing_discussion_returns :
  probing_discussion
  = (probing_discussion_world, Return probing_discussion_result).
Proof. vm_compute. reflexivity. Defined.

Lemma discussion_log_ids_witness :
  sample_discussion = (sample_discussion_world, Return sample_discussion_result)
  /\ map log_id (run_logs sample_discussion_result)
     = ["log-1"; "log-2"; "log-6"; "log-7"; "log-8"; "log-9"]
  /\ NoDup (map log_id (run_logs sample_discussion_result))
  /\ logIdCounter sample_discussion_world = 9.
Proof.
  destruct (discussion_log_ids AGENT_CONFIGS OUTPUT_SCHEMAS sample_clock
              sample_generate sample_interleaved sample_request sample_world
              sample_discussion_world sample_discussion_result
              sample_discussion_returns)
    as (resumed & answered & _ & _ & _ & Hdistinct & _).
  split; [exact sample_discussion_returns|].
  split; [vm_compute; reflexivity|].
  split; [exact Hdistinct | vm_compute; reflexivity].
Defined.

Lemma execution_log_ids_witness :
  sample_execution = (sample_execution_world, Return sample_execution_result)
  /\ exists logs',
       run_logs sample_execution_result
       = run_logs sample_discussion_result ++ logs'
       /\ map log_id logs' = ["log-10"; "log-11"; "log-12"; "log-13"]
       /\ logIdCounter sample_execution_world = 13.
Proof.
  split; [exact sample_execution_returns|].
  destruct (execution_log_ids AGENT_CONFIGS OUTPUT_SCHEMAS sample_clock
              sample_discussion_result sample_request sample_discussion_world
              sample_execution_world sample_execution_result
              sample_execution_returns)
    as (logs' & Hlogs & Hids & _ & Hcount).
  exists logs'. split; [exact Hlogs|].
  assert (Hlength : length logs' = 4).
  { assert (Hall : length (run_logs sample_execution_result) = 10)
      by (vm_compute; reflexivity).
    assert (Hfirst : length (run_logs sample_discussion_result) = 6)
      by (vm_compute; reflexivity).
    rewrite Hlogs in Hall.
    change (run_validationPassed sample_execution_result) with true in Hall.
    cbv iota in Hall. rewrite length_app, Hfirst in Hall.
    clear -Hall. lia. }
  rewrite Hlength in Hids, Hcount.
  split; [rewrite Hids | rewrite Hcount]; vm_compute; reflexivity.
Defined.

Lemma discussion_audit_trail_witness :
  sample_discussion = (sample_discussion_world, Return sample_discussion_result)
  /\ findAgent AGENT_CONFIGS sample_request = Some task_agent
  /\ map log_type (run_logs sample_discussion_result)
     = [LPlan; LPlan; LToolCall; LBlocked; LValidation; LPlan].
Proof.
  split; [exact sample_discussion_returns|]. split; [reflexivity|].
  destruct (discussion_audit_trail AGENT_CONFIGS OUTPUT_SCHEMAS sample_clock
              sample_generate sample_interleaved sample_request sample_world
              sample_discussion_world sample_discussion_result task_agent
              sample_discussion_returns eq_refl)
    as (Htypes & _).
  rewrite Htypes. vm_compute. reflexivity.
Defined.

Lemma aborted_execution_logs_witness :
  aborted_execution = (aborted_execution_world, Return aborted_execution_result)
  /\ run_validationPassed aborted_execution_result = false
  /\ map log_type (run_logs aborted_execution_result)
     = [LExecution; LValidation; LError].
Proof.
  assert (He : aborted_execution
               = (aborted_execution_world, Return aborted_execution_result))
    by (vm_compute; reflexivity).
  split; [exact He|]. split; [reflexivity|].
  destruct (aborted_execution_logs AGENT_CONFIGS OUTPUT_SCHEMAS sample_clock
              invalid_discussion_result sample_request approved_world
              aborted_execution_world aborted_execution_result He eq_refl)
    as (config & schema & e1 & e2 & e3 & _ & _ & Hlogs & H1 & H2 & _ & _
        & H3 & _).
  rewrite Hlogs. cbn [map]. rewrite H1, H2, H3. reflexivity.
Defined.

Lemma successful_execution_logs_witness :
  sample_execution = (sample_execution_world, Return sample_execution_result)
  /\ findAgent AGENT_CONFIGS sample_request = Some task_agent
  /\ run_validationPassed sample_execution_result = true
  /\ exists logs',
       run_logs sample_execution_result
       = run_logs sample_discussion_result ++ logs'
       /\ map log_type logs'
          = [LExecution; LValidation; LExecution; LExecution].
Proof.
  split; [exact sample_execution_returns|]. split; [reflexivity|].
  split; [reflexivity|].
  destruct (successful_execution_logs AGENT_CONFIGS OUTPUT_SCHEMAS sample_clock
              sample_discussion_result sample_request sample_discussion_world
              sample_execution_world sample_execution_result task_agent
              sample_execution_returns eq_refl eq_refl)
    as (logs' & Hlogs & Htypes & _).
  exists logs'. split; [exact Hlogs|]. rewrite Htypes. vm_compute. reflexivity.
Defined.

Lemma discussion_failures_witness :
  runDiscussion AGENT_CONFIGS OUTPUT_SCHEMAS sample_clock sample_generate sample_interleaved
    unknown_agent_request sample_world
  = (sample_world, Throw "Unknown agent: ghost-agent")
  /\ findAgent AGENT_CONFIGS unknown_agent_request = None.
Proof.
  assert (Hd : runDiscussion AGENT_CONFIGS OUTPUT_SCHEMAS sample_clock
                 sample_generate sample_interleaved unknown_agent_request sample_world
               = (sample_world, Throw "Unknown agent: ghost-agent"))
    by reflexivity.
  split; [exact Hd|].
  destruct (discussion_failures AGENT_CONFIGS OUTPUT_SCHEMAS sample_clock
              sample_generate sample_interleaved unknown_agent_request sample_world sample_world
              "Unknown agent: ghost-agent" Hd)
    as [(Hagent & _) | (config & Hagent & _)];
    [exact Hagent | discriminate Hagent].
Defined.

Lemma revalidation_agrees_with_discussion_witness :
  sample_discussion = (sample_discussion_world, Return sample_discussion_result)
  /\ sample_execution = (sample_execution_world, Return sample_execution_result)
  /\ req_agent sample_request = req_agent sample_request
  /\ run_validationPassed sample_execution_result
     = run_validationPassed sample_discussion_result.
Proof.
  split; [exact sample_discussion_returns|].
  split; [exact sample_execution_returns|]. split; [reflexivity|].
  exact (proj1 (revalidation_agrees_with_discussion AGENT_CONFIGS
                  OUTPUT_SCHEMAS sample_clock sample_generate sample_interleaved sample_request
                  sample_request sample_world sample_discussion_world
                  sample_discussion_world sample_execution_world
                  sample_discussion_result sample_execution_result
                  sample_discussion_returns sample_execution_returns eq_refl)).
Defined.

Lemma log_entries_carry_agent_and_model_witness :
  sample_discussion = (sample_discussion_world, Return sample_discussion_result)
  /\ sample_execution = (sample_execution_world, Return sample_execution_result)
  /\ findAgent AGENT_CONFIGS sample_request = Some task_agent
  /\ Forall (fun e => log_agent e = "task-agent"
                      /\ log_model e = "gpt-5.2"
                      /\ log_phase e = PDiscussion)
            (run_logs sample_discussion_result).
Proof.
  split; [exact sample_discussion_returns|].
  split; [exact sample_execution_returns|]. split; [reflexivity|].
  exact (proj1 (log_entries_carry_agent_and_model AGENT_CONFIGS
                  OUTPUT_SCHEMAS sample_clock sample_generate sample_interleaved sample_request
                  sample_world sample_discussion_world sample_execution_world
                  sample_discussion_result sample_execution_result task_agent
                  sample_discussion_returns sample_execution_returns eq_refl)).
Defined.

Lemma two_phase_log_ids_witness :
  sample_discussion = (sample_discussion_world, Return sample_discussion_result)
  /\ sample_execution = (sample_execution_world, Return sample_execution_result)
  /\ logIdCounter sample_discussion_world <= logIdCounter sample_discussion_world
  /\ run_validationPassed sample_execution_result = true
  /\ map log_id (run_logs sample_execution_result)
     = ["log-1"; "log-2"; "log-6"; "log-7"; "log-8"; "log-9"; "log-10";
        "log-11"; "log-12"; "log-13"]
  /\ NoDup (map log_id (run_logs sample_execution_result)).
Proof.
  split; [exact sample_discussion_returns|].
  split; [exact sample_execution_returns|]. split; [reflexivity|].
  split; [reflexivity|].
  destruct (two_phase_log_ids AGENT_CONFIGS OUTPUT_SCHEMAS sample_clock
              sample_generate sample_interleaved sample_request sample_world
              sample_discussion_world sample_discussion_world
              sample_execution_world
              sample_discussion_result sample_execution_result
              sample_discussion_returns sample_execution_returns
              (le_n _) eq_refl)
    as (resumed & answered & executed & _ & _ & _ & Hdistinct & _).
  split; [vm_compute; reflexivity | exact Hdistinct].
Defined.

Lemma proposed_calls_are_partitioned_witness :
  sample_discussion = (sample_discussion_world, Return sample_discussion_result)
  /\ length (run_approvedCalls sample_discussion_result)
     + length (run_blockedCalls sample_discussion_result)
     = 2.
Proof.
  split; [exact sample_discussion_returns|].
  destruct (proposed_calls_are_partitioned AGENT_CONFIGS OUTPUT_SCHEMAS
              sample_clock sample_generate sample_interleaved sample_request sample_world
              sample_discussion_world sample_discussion_result
              sample_discussion_returns)
    as (config & _ & _ & _ & _ & _ & Hlength).
  rewrite Hlength. reflexivity.
Defined.

Lemma execution_is_idempotent_on_calls_witness :
  sample_execution = (sample_execution_world, Return sample_execution_result)
  /\ sample_reexecution
     = (sample_reexecution_world, Return sample_reexecution_result)
  /\ req_agent sample_request = req_agent sample_request
  /\ heap sample_reexecution_world 0 = heap sample_execution_world 0
  /\ call_status (heap sample_reexecution_world 0) = executed.
Proof.
  assert (He' : sample_reexecution
                = (sample_reexecution_world, Return sample_reexecution_result))
    by (vm_compute; reflexivity).
  split; [exact sample_execution_returns|]. split; [exact He'|].
  split; [reflexivity|].
  pose proof (execution_is_idempotent_on_calls AGENT_CONFIGS OUTPUT_SCHEMAS
                sample_clock sample_discussion_result sample_request
                sample_request sample_discussion_world sample_execution_world
                sample_reexecution_world sample_execution_result
                sample_reexecution_result sample_execution_returns He'
                eq_refl 0) as Hsame.
  split; [exact Hsame|]. rewrite Hsame. reflexivity.
Defined.

Lemma approved_iff_tool_was_offered_witness :
  sample_discussion = (sample_discussion_world, Return sample_discussion_result)
  /\ 0 ∈ run_approvedCalls sample_discussion_result
  /\ call_toolName (heap sample_discussion_world 0)
     ∈ map tool_name
         (getPermittedTools (cfg_allowedTools task_agent)
            (cfg_permissions task_agent)).
Proof.
  split; [exact sample_discussion_returns|].
  destruct (approved_iff_tool_was_offered AGENT_CONFIGS OUTPUT_SCHEMAS
              sample_clock sample_generate sample_interleaved sample_request sample_world
              sample_discussion_world sample_discussion_result
              sample_discussion_returns)
    as (config & Hagent & Hcalls).
  assert (Hconfig : config = task_agent).
  { change (findAgent AGENT_CONFIGS sample_request) with (Some task_agent)
      in Hagent.
    injection Hagent as <-. reflexivity. }
  subst config.
  assert (Hproposed : 0 ∈ res_toolCalls (run_result sample_discussion_result))
    by (apply list_elem_of_In; vm_compute; tauto).
  assert (Happroved : 0 ∈ run_approvedCalls sample_discussion_result)
    by (apply list_elem_of_In; vm_compute; tauto).
  split; [exact Happroved|].
  apply (proj1 (Hcalls 0 Hproposed)), Happroved.
Defined.

Lemma adapter_answer_contract_witness :
  (forall l, sample_in_use l -> l < sample_fresh (heap sample_execution_world))
  /\ exists h0 result,
       adapter_generateStructuredOutput ascii_toLowerCase sample_fresh
         gpt_provider probing_options (heap sample_execution_world)
       = (h0, Return result)
       /\ res_toolCalls result = [40; 41; 42]
       /\ ~ sample_in_use 40
       /\ call_status (h0 40) = pending
       /\ h0 0 = heap sample_execution_world 0
       /\ call_status (h0 0) = executed.
Proof.
  assert (Hfresh : forall l, sample_in_use l ->
                             l < sample_fresh (heap sample_execution_world))
    by (unfold sample_in_use, sample_fresh; intros l Hl; lia).
  split; [exact Hfresh|].
  destruct (adapter_answer_contract ascii_toLowerCase sample_fresh gpt_provider
              probing_options (heap sample_execution_world) sample_in_use
              Hfresh)
    as (h0 & result & Hrun & _ & _ & _ & Hcalls & Hused & _).
  exists h0, result.
  assert (Hlist : res_toolCalls result = [40; 41; 42]).
  { unfold adapter_generateStructuredOutput in Hrun.
    injection Hrun as _ <-. vm_compute. reflexivity. }
  assert (Hin : 40 ∈ res_toolCalls result)
    by (rewrite Hlist; apply list_elem_of_In; simpl; tauto).
  destruct (Hcalls 40 Hin) as (Hnew & Hpending & _).
  assert (Hold : sample_in_use 0) by (unfold sample_in_use; lia).
  split; [exact Hrun|]. split; [exact Hlist|]. split; [exact Hnew|].
  split; [exact Hpending|]. split; [exact (Hused 0 Hold)|].
  rewrite (Hused 0 Hold). reflexivity.
Defined.

Lemma adapter_discussion_blocks_exactly_probes_witness :
  probing_discussion
  = (probing_discussion_world, Return probing_discussion_result)
  /\ run_blockedCalls probing_discussion_result = [42]
  /\ call_toolName (heap probing_discussion_world 42) ∈ probe_names.
Proof.
  split; [exact probing_discussion_returns|]. split; [reflexivity|].
  destruct (adapter_discussion_blocks_exactly_probes ascii_toLowerCase
              sample_fresh AGENT_CONFIGS OUTPUT_SCHEMAS sample_clock
              sample_interleaved probing_request sample_world probing_discussion_world
              probing_discussion_result probing_discussion_returns 42)
    as (Hblocked & _).
  apply Hblocked. apply list_elem_of_In. vm_compute. tauto.
Defined.

Lemma shipped_discussion_always_validates_witness :
  probing_discussion
  = (probing_discussion_world, Return probing_discussion_result)
  /\ run_validationPassed probing_discussion_result = true.
Proof.
  split; [exact probing_discussion_returns|].
  exact (shipped_discussion_always_validates ascii_toLowerCase sample_fresh
           sample_clock sample_interleaved probing_request sample_world probing_discussion_world
           probing_discussion_result probing_discussion_returns).
Defined.

Lemma proposed_arguments_fit_parameters_witness :
  sample_updateTask_call
  ∈ extractToolCalls ascii_toLowerCase gpt_provider (req_input probing_request)
      (getPermittedTools (cfg_allowedTools task_agent)
         (cfg_permissions task_agent))
  /\ updateTask_tool ∈ TOOL_REGISTRY
  /\ tool_name updateTask_tool = call_toolName sample_updateTask_call
  /\ valid (validateAgainstSchema (call_arguments sample_updateTask_call)
              (tool_parameters updateTask_tool)) = true.
Proof.
  assert (Hc : sample_updateTask_call
               ∈ extractToolCalls ascii_toLowerCase gpt_provider
                   (req_input probing_request)
                   (getPermittedTools (cfg_allowedTools task_agent)
                      (cfg_permissions task_agent)))
    by (apply list_elem_of_In; vm_compute; tauto).
  assert (Htool : updateTask_tool ∈ TOOL_REGISTRY)
    by (apply list_elem_of_In; vm_compute; tauto).
  split; [exact Hc|]. split; [exact Htool|]. split; [reflexivity|].
  exact (proposed_arguments_fit_parameters ascii_toLowerCase gpt_provider
           (req_input probing_request)
           (getPermittedTools (cfg_allowedTools task_agent)
              (cfg_permissions task_agent))
           sample_updateTask_call updateTask_tool Hc Htool eq_refl).
Defined.
